(** * Smart locker system: firmware state machine and coordinator service

    A shallow embedding of

    - [locker_firmware_fixed.ino]: the bit-banged shift-register driver
      ([ShiftRegister]) and the per-compartment motion state machine
      ([LockerControl]) that runs on each ESP32 column;
    - [lib/db/lockerService.ts] and [app/api/lockers/pickup/route.ts]: the
      column registry, the command relay and the reservation operations of
      the coordinator.

    Machine integers are [Z] with the wrap-around of the C type written
    out; the JavaScript [Map] of columns is a [gmap]; the SQLite tables are
    lists of rows in table order. *)

From Stdlib Require Import ZArith List String Ascii Bool Lia.
From stdpp Require Import gmap strings list pretty sorting.
Import ListNotations.

(** ** Part I: the column firmware *)

Module Firmware.

Local Open Scope Z_scope.

(** *** Configuration *)

Definition NUM_LOCKERS : Z := 3.

Definition SR_CLK : Z := 14.
Definition SR_LATCH : Z := 27.
Definition SR_MOSI : Z := 13.
Definition SR_MISO_PINS : list Z := [39; 35; 34].
Definition SR_CS_PINS : list Z := [32; 33; 25].

(** 74HC595 output bits *)
Definition OUT_DIR : Z := 0.
Definition OUT_LED : Z := 1.
Definition OUT_UVC : Z := 2.
Definition OUT_HEAT : Z := 3.
Definition OUT_STEP : Z := 4.
Definition OUT_SOLENOID : Z := 5.
Definition OUT_ACT_LED : Z := 6.
Definition OUT_SPARE : Z := 7.

(** 74HC165 input bits *)
Definition IN_HALL_CLOSED : Z := 0.
Definition IN_HALL_OPEN : Z := 1.
Definition IN_IR_BEAM : Z := 2.
Definition IN_NC : Z := 3.
Definition IN_OCCUPANCY : Z := 4.
Definition IN_TEMP : Z := 5.
Definition IN_SAFETY : Z := 6.
Definition IN_TMC_DIAG : Z := 7.

Definition MOTOR_STEP_DELAY_US : Z := 500.
Definition MOTOR_TIMEOUT_MS : Z := 10000.
Definition SOLENOID_PULSE_MS : Z := 50.
Definition UVC_DEFAULT_MS : Z := 30000.

(** [#define TEST_MODE true]: the value the firmware is built with. *)
Definition TEST_MODE : bool := true.

(** [uint8_t] and [uint32_t] truncation. *)
Definition u8 (x : Z) : Z := x mod 256.
Definition u32 (x : Z) : Z := x mod 4294967296.

(** *** Data structures *)

Inductive LockerState :=
  IDLE | UNLOCKING | OPEN | CLOSING | LOCKED | FAULT | SANITIZING.

Definition LockerState_eqb (a b : LockerState) : bool :=
  match a, b with
  | IDLE, IDLE | UNLOCKING, UNLOCKING | OPEN, OPEN | CLOSING, CLOSING
  | LOCKED, LOCKED | FAULT, FAULT | SANITIZING, SANITIZING => true
  | _, _ => false
  end.

Record SensorState := mkSensorState {
  doorClosed : bool; doorOpen : bool; irBeamClear : bool; occupied : bool;
  tempOk : bool; safetyOk : bool; motorFault : bool
}.

Record OutputState := mkOutputState {
  led : bool; uvc : bool; solenoid : bool; heater : bool
}.

(** What the driver does on the GPIO lines, in program order. *)
Inductive io_event :=
| DigitalWrite (pin : Z) (level : bool)
| DigitalRead (pin : Z) (level : bool)
| PinMode (pin : Z) (output : bool)
| DelayMicroseconds (us : Z)
| Delay (ms : Z).

(** *** class ShiftRegister

    [wire] is not a member of the C++ class: it records the pin activity
    the object has produced, oldest event first. *)

Record ShiftRegister := mkShiftRegister {
  sr_index : Z;
  _misoPin : Z;
  _csPin : Z;
  _outputState : Z;
  _inputState : Z;
  wire : list io_event
}.

Definition emit (evs : list io_event) (sr : ShiftRegister) : ShiftRegister :=
  {| sr_index := sr_index sr; _misoPin := _misoPin sr; _csPin := _csPin sr;
     _outputState := _outputState sr; _inputState := _inputState sr;
     wire := wire sr ++ evs |}.

Definition set_outputState (d : Z) (sr : ShiftRegister) : ShiftRegister :=
  {| sr_index := sr_index sr; _misoPin := _misoPin sr; _csPin := _csPin sr;
     _outputState := d; _inputState := _inputState sr; wire := wire sr |}.

Definition set_inputState (d : Z) (sr : ShiftRegister) : ShiftRegister :=
  {| sr_index := sr_index sr; _misoPin := _misoPin sr; _csPin := _csPin sr;
     _outputState := _outputState sr; _inputState := d; wire := wire sr |}.

(** [for (int i = 7; i >= 0; i--)] *)
Definition bits_msb_first : list Z := [7; 6; 5; 4; 3; 2; 1; 0].

(** One iteration of the loop of [writeOutputs]. *)
Definition clock_out (data i : Z) : list io_event :=
  [ DigitalWrite SR_MOSI (negb (Z.land (Z.shiftr data i) 1 =? 0));
    DelayMicroseconds 1;
    DigitalWrite SR_CLK true;
    DelayMicroseconds 1;
    DigitalWrite SR_CLK false;
    DelayMicroseconds 1 ].

(** The pin sequence of [writeOutputs(data)] on chip-select [cs]. *)
Definition write_sequence (cs data : Z) : list io_event :=
  [ DigitalWrite cs true; DelayMicroseconds 1 ]
  ++ flat_map (clock_out data) bits_msb_first
  ++ [ DigitalWrite SR_LATCH false; DelayMicroseconds 1;
       DigitalWrite SR_LATCH true; DelayMicroseconds 1;
       DigitalWrite cs false ].

Definition writeOutputs (data : Z) (sr : ShiftRegister) : ShiftRegister :=
  emit (write_sequence (_csPin sr) data) (set_outputState data sr).

(** One iteration of the loop of [readInputs]: [level] is what
    [digitalRead(_misoPin)] returns while bit [i] is presented. *)
Definition clock_in (misoPin : Z) (level : bool) : list io_event :=
  [ DigitalRead misoPin level;
    DigitalWrite SR_CLK true;
    DelayMicroseconds 1;
    DigitalWrite SR_CLK false;
    DelayMicroseconds 1 ].

Definition read_sequence (misoPin : Z) (miso : Z -> bool) : list io_event :=
  [ DigitalWrite SR_LATCH false; DelayMicroseconds 1;
    DigitalWrite SR_LATCH true; DelayMicroseconds 1 ]
  ++ flat_map (fun i => clock_in misoPin (miso i)) bits_msb_first.

(** [if (digitalRead(_misoPin)) data |= (1 << i);] over the eight bits. *)
Definition read_word (miso : Z -> bool) : Z :=
  fold_left
    (fun data i => if miso i then u8 (Z.lor data (Z.shiftl 1 i)) else data)
    bits_msb_first 0.

(** [readInputs]: [miso i] is the level sampled on the MISO pin in the
    iteration for bit [i]. Returns the word read and the new object. *)
Definition readInputs (miso : Z -> bool) (sr : ShiftRegister)
  : Z * ShiftRegister :=
  let sr1 := emit (read_sequence (_misoPin sr) miso) sr in
  let data := read_word miso in
  let sr2 := set_inputState data sr1 in
  (data, writeOutputs (_outputState sr2) sr2).

Definition setOutput (bit : Z) (state : bool) (sr : ShiftRegister)
  : ShiftRegister :=
  if 7 <? bit then sr
  else
    let o := if state
             then u8 (Z.lor (_outputState sr) (Z.shiftl 1 bit))
             else u8 (Z.land (_outputState sr) (Z.lnot (Z.shiftl 1 bit))) in
    writeOutputs o (set_outputState o sr).

Definition getOutputState (sr : ShiftRegister) : Z := _outputState sr.
Definition getInputState (sr : ShiftRegister) : Z := _inputState sr.
Definition refresh (miso : Z -> bool) (sr : ShiftRegister) : ShiftRegister :=
  snd (readInputs miso sr).

(** The constructor; an index outside the pin tables leaves the two pin
    members unset, which is read here as pin 0. *)
Definition ShiftRegister_new (index : Z) : ShiftRegister :=
  {| sr_index := index;
     _misoPin := if index <? NUM_LOCKERS
                 then nth (Z.to_nat index) SR_MISO_PINS 0 else 0;
     _csPin := if index <? NUM_LOCKERS
               then nth (Z.to_nat index) SR_CS_PINS 0 else 0;
     _outputState := 0;
     _inputState := 255;
     wire := [] |}.

(** [begin()]; [pinsInit] is the static flag of the function, shared by
    all registers. Returns the new value of the flag. *)
Definition ShiftRegister_begin (pinsInit : bool) (sr : ShiftRegister)
  : bool * ShiftRegister :=
  let sr :=
    if pinsInit then sr
    else emit [ PinMode SR_CLK true; PinMode SR_LATCH true;
                PinMode SR_MOSI true; DigitalWrite SR_CLK false;
                DigitalWrite SR_LATCH true; DigitalWrite SR_MOSI false ] sr in
  let sr :=
    emit [ PinMode (_misoPin sr) false; PinMode (_csPin sr) true;
           DigitalWrite (_csPin sr) false ] sr in
  (true, writeOutputs 0 sr).

(** *** class LockerControl

    [_sr] points to the shift register of this compartment, which no
    other object uses, so the register is kept inside the record.
    [_lastError] is a [const char*], [None] for [nullptr]. *)

Record LockerControl := mkLockerControl {
  lc_index : Z;
  _sr : ShiftRegister;
  _state : LockerState;
  _opStart : Z;
  _sanitizeEnd : Z;
  _lastError : option string
}.

Definition with_sr (sr : ShiftRegister) (lc : LockerControl) : LockerControl :=
  {| lc_index := lc_index lc; _sr := sr; _state := _state lc;
     _opStart := _opStart lc; _sanitizeEnd := _sanitizeEnd lc;
     _lastError := _lastError lc |}.

Definition with_state (st : LockerState) (lc : LockerControl) : LockerControl :=
  {| lc_index := lc_index lc; _sr := _sr lc; _state := st;
     _opStart := _opStart lc; _sanitizeEnd := _sanitizeEnd lc;
     _lastError := _lastError lc |}.

Definition with_opStart (t : Z) (lc : LockerControl) : LockerControl :=
  {| lc_index := lc_index lc; _sr := _sr lc; _state := _state lc;
     _opStart := t; _sanitizeEnd := _sanitizeEnd lc;
     _lastError := _lastError lc |}.

Definition with_sanitizeEnd (t : Z) (lc : LockerControl) : LockerControl :=
  {| lc_index := lc_index lc; _sr := _sr lc; _state := _state lc;
     _opStart := _opStart lc; _sanitizeEnd := t;
     _lastError := _lastError lc |}.

Definition with_lastError (e : string) (lc : LockerControl) : LockerControl :=
  {| lc_index := lc_index lc; _sr := _sr lc; _state := _state lc;
     _opStart := _opStart lc; _sanitizeEnd := _sanitizeEnd lc;
     _lastError := Some e |}.

(** [_sr->setOutput(bit, on)] *)
Definition sr_setOutput (bit : Z) (on : bool) (lc : LockerControl)
  : LockerControl :=
  with_sr (setOutput bit on (_sr lc)) lc.

Definition LockerControl_new (index : Z) (sr : ShiftRegister) : LockerControl :=
  {| lc_index := index; _sr := sr; _state := IDLE;
     _opStart := 0; _sanitizeEnd := 0; _lastError := None |}.

(** [(in & (1 << b)) != 0] *)
Definition bit_set (w b : Z) : bool := negb (Z.land w (Z.shiftl 1 b) =? 0).

(** The hall sensors and the occupancy sensor are active low. *)
Definition getSensors (lc : LockerControl) : SensorState :=
  let w := getInputState (_sr lc) in
  {| doorClosed := negb (bit_set w IN_HALL_CLOSED);
     doorOpen := negb (bit_set w IN_HALL_OPEN);
     irBeamClear := bit_set w IN_IR_BEAM;
     occupied := negb (bit_set w IN_OCCUPANCY);
     tempOk := bit_set w IN_TEMP;
     safetyOk := bit_set w IN_SAFETY;
     motorFault := bit_set w IN_TMC_DIAG |}.

Definition getOutputs (lc : LockerControl) : OutputState :=
  let o := getOutputState (_sr lc) in
  {| led := bit_set o OUT_LED;
     uvc := bit_set o OUT_UVC;
     solenoid := bit_set o OUT_SOLENOID;
     heater := bit_set o OUT_HEAT |}.

Definition getState (lc : LockerControl) : LockerState := _state lc.

Definition isBusy (lc : LockerControl) : bool :=
  LockerState_eqb (_state lc) UNLOCKING
  || LockerState_eqb (_state lc) CLOSING
  || LockerState_eqb (_state lc) SANITIZING.

Definition getLastError (lc : LockerControl) : option string := _lastError lc.

Definition emergencyStop (lc : LockerControl) : LockerControl :=
  with_sr (writeOutputs 0 (_sr lc)) lc.

Definition setLED (on : bool) := sr_setOutput OUT_LED on.
Definition setUVC (on : bool) := sr_setOutput OUT_UVC on.
Definition setHeater (on : bool) := sr_setOutput OUT_HEAT on.

(** [begin()]: the boot state is derived from the first sensor sample. *)
Definition LockerControl_begin (miso : Z -> bool) (lc : LockerControl)
  : LockerControl :=
  let lc := with_sr (refresh miso (writeOutputs 0 (_sr lc))) lc in
  let s := getSensors lc in
  if doorClosed s then with_state LOCKED lc
  else if doorOpen s then with_state OPEN lc
  else with_state IDLE lc.

(** [update()]: [miso] is what the input register presents during the
    refresh and [now] is the value [millis()] returns in this call (every
    path through the body calls it at most once). *)
Definition update (now : Z) (miso : Z -> bool) (lc : LockerControl)
  : LockerControl :=
  let lc := with_sr (refresh miso (_sr lc)) lc in
  let s := getSensors lc in
  if motorFault s && negb (LockerState_eqb (_state lc) FAULT) then
    with_state FAULT (emergencyStop (with_lastError "Motor fault" lc))
  else
    match _state lc with
    | UNLOCKING =>
        if doorOpen s then
          with_state OPEN (sr_setOutput OUT_STEP false lc)
        else if MOTOR_TIMEOUT_MS <? u32 (now - _opStart lc) then
          with_state FAULT (emergencyStop (with_lastError "Open timeout" lc))
        else lc
    | CLOSING =>
        if negb (irBeamClear s) then
          with_opStart now
            (with_state UNLOCKING
               (sr_setOutput OUT_DIR true (with_lastError "Obstruction" lc)))
        else if doorClosed s then
          with_state LOCKED
            (sr_setOutput OUT_LED false (sr_setOutput OUT_STEP false lc))
        else if MOTOR_TIMEOUT_MS <? u32 (now - _opStart lc) then
          with_state FAULT (emergencyStop (with_lastError "Close timeout" lc))
        else lc
    | SANITIZING =>
        if _sanitizeEnd lc <=? now then
          with_state LOCKED (sr_setOutput OUT_UVC false lc)
        else lc
    | OPEN =>
        if doorClosed s then
          with_state LOCKED (sr_setOutput OUT_LED false lc)
        else lc
    | _ => lc
    end.

(** [checkSafety()] under [#if TEST_MODE]: [test_mode] is the value of the
    macro the firmware is compiled with. *)
Definition checkSafety (test_mode : bool) (lc : LockerControl)
  : bool * LockerControl :=
  if test_mode then (true, lc)
  else
    let s := getSensors lc in
    if negb (safetyOk s) then (false, with_lastError "Safety tripped" lc)
    else if motorFault s then (false, with_lastError "Motor fault" lc)
    else (true, lc).

(** [unlock()]: [now] is the value of [millis()] after the solenoid pulse. *)
Definition unlock (test_mode : bool) (now : Z) (lc : LockerControl)
  : bool * LockerControl :=
  if isBusy lc then (false, with_lastError "Busy" lc)
  else
    let '(ok, lc) := checkSafety test_mode lc in
    if negb ok then (false, lc)
    else
      let lc := sr_setOutput OUT_SOLENOID true lc in
      let lc := with_sr (emit [Delay SOLENOID_PULSE_MS] (_sr lc)) lc in
      let lc := sr_setOutput OUT_SOLENOID false lc in
      let lc := sr_setOutput OUT_DIR true lc in
      let lc := sr_setOutput OUT_LED true lc in
      (true, with_opStart now (with_state UNLOCKING lc)).

Definition lock (test_mode : bool) (now : Z) (lc : LockerControl)
  : bool * LockerControl :=
  let s := getSensors lc in
  if negb (irBeamClear s) then (false, with_lastError "IR blocked" lc)
  else
    let '(ok, lc) := checkSafety test_mode lc in
    if negb ok then (false, lc)
    else
      let lc := sr_setOutput OUT_DIR false lc in
      (true, with_opStart now (with_state CLOSING lc)).

(** [startSanitize(ms)]: [ms] is a [uint32_t], the sum wraps. *)
Definition startSanitize (now ms : Z) (lc : LockerControl)
  : bool * LockerControl :=
  let s := getSensors lc in
  if negb (doorClosed s) then (false, with_lastError "Door open" lc)
  else if isBusy lc then (false, with_lastError "Busy" lc)
  else
    let lc := sr_setOutput OUT_UVC true lc in
    (true, with_state SANITIZING (with_sanitizeEnd (u32 (now + ms)) lc)).

(** *** The output register behind the pins

    The 74HC595 as its data sheet describes it: the level on the serial
    input is shifted in at bit 0 on a rising edge of the shift clock, and
    the shift register is copied to the outputs on a rising edge of the
    storage clock. How the board wires the chip select of a compartment
    is not in the sources: [gated] tells whether the two clocks reach the
    register only while its chip select is high. *)

Record HC595 := mkHC595 {
  hc_shift : Z;
  hc_latch : Z;
  hc_ser : bool;
  hc_clk : bool;
  hc_rclk : bool;
  hc_sel : bool
}.

Definition shift_in (s : Z) (b : bool) : Z :=
  u8 (Z.lor (Z.shiftl s 1) (if b then 1 else 0)).

(** The register of the compartment on chip select [cs] meets one event. *)
Definition hc595_step (gated : bool) (cs : Z) (d : HC595) (e : io_event)
  : HC595 :=
  match e with
  | DigitalWrite pin level =>
      let enabled := hc_sel d || negb gated in
      if pin =? SR_MOSI then
        {| hc_shift := hc_shift d; hc_latch := hc_latch d; hc_ser := level;
           hc_clk := hc_clk d; hc_rclk := hc_rclk d; hc_sel := hc_sel d |}
      else if pin =? SR_CLK then
        {| hc_shift := if level && negb (hc_clk d) && enabled
                       then shift_in (hc_shift d) (hc_ser d)
                       else hc_shift d;
           hc_latch := hc_latch d; hc_ser := hc_ser d;
           hc_clk := level; hc_rclk := hc_rclk d; hc_sel := hc_sel d |}
      else if pin =? SR_LATCH then
        {| hc_shift := hc_shift d;
           hc_latch := if level && negb (hc_rclk d) && enabled
                       then hc_shift d else hc_latch d;
           hc_ser := hc_ser d; hc_clk := hc_clk d;
           hc_rclk := level; hc_sel := hc_sel d |}
      else if pin =? cs then
        {| hc_shift := hc_shift d; hc_latch := hc_latch d;
           hc_ser := hc_ser d; hc_clk := hc_clk d; hc_rclk := hc_rclk d;
           hc_sel := level |}
      else d
  | _ => d
  end.

(** The register after the pin activity [evs], oldest event first. *)
Definition hc595_run (gated : bool) (cs : Z) (evs : list io_event)
    (d : HC595) : HC595 :=
  fold_left (hc595_step gated cs) evs d.

(** *** Reading the pin activity and the sensor sample *)

(** The levels put on MOSI, in program order. *)
Definition mosi_levels (evs : list io_event) : list bool :=
  flat_map (fun e => match e with
                     | DigitalWrite pin level =>
                         if pin =? SR_MOSI then [level] else []
                     | _ => []
                     end) evs.

(** The [SensorState] that the eight MISO levels of a refresh decode to. *)
Definition sample (miso : Z -> bool) : SensorState :=
  {| doorClosed := negb (miso IN_HALL_CLOSED);
     doorOpen := negb (miso IN_HALL_OPEN);
     irBeamClear := miso IN_IR_BEAM;
     occupied := negb (miso IN_OCCUPANCY);
     tempOk := miso IN_TEMP;
     safetyOk := miso IN_SAFETY;
     motorFault := miso IN_TMC_DIAG |}.

(** *** Runs of compartment 0, from [setup()] on

    The hall and occupancy inputs are active low; the other inputs are
    active high. *)

(** The objects [setup()] creates for index 0, before [LockerControl::begin()]. *)
Definition fresh_locker : LockerControl :=
  LockerControl_new 0 (snd (ShiftRegister_begin false (ShiftRegister_new 0))).

(** Every input line high: no door sensor active, motor fault reported. *)
Definition all_high : Z -> bool := fun _ => true.

(** Door neither closed nor open, nothing wrong. *)
Definition idle_sample : Z -> bool := fun i => negb (i =? IN_TMC_DIAG).
(** Door open. *)
Definition door_open_sample : Z -> bool :=
  fun i => negb ((i =? IN_HALL_OPEN) || (i =? IN_TMC_DIAG)).
(** Door closed. *)
Definition closed_sample : Z -> bool :=
  fun i => negb ((i =? IN_HALL_CLOSED) || (i =? IN_TMC_DIAG)).
(** Door closed, motor fault reported. *)
Definition closed_fault_sample : Z -> bool :=
  fun i => negb (i =? IN_HALL_CLOSED).
(** Door closed, safety input not asserted. *)
Definition unsafe_sample : Z -> bool :=
  fun i => negb ((i =? IN_HALL_CLOSED) || (i =? IN_SAFETY)
                 || (i =? IN_TMC_DIAG)).
(** IR beam blocked. *)
Definition blocked_sample : Z -> bool :=
  fun i => negb ((i =? IN_IR_BEAM) || (i =? IN_TMC_DIAG)).
(** IR beam blocked, motor fault reported. *)
Definition blocked_fault_sample : Z -> bool := fun i => negb (i =? IN_IR_BEAM).

(** Boot with the door ajar, [unlock()] at 0 ms, door open sensed at
    1000 ms, [lock()] at 2000 ms. *)
Definition booted_locker : LockerControl :=
  LockerControl_begin idle_sample fresh_locker.
Definition unlocking_locker : LockerControl :=
  snd (unlock TEST_MODE 0 booted_locker).
Definition open_locker : LockerControl :=
  update 1000 door_open_sample unlocking_locker.
Definition closing_locker : LockerControl :=
  snd (lock TEST_MODE 2000 open_locker).

(** Boot with the door closed, then [startSanitize(5000)] at 0 ms. *)
Definition locked_locker : LockerControl :=
  LockerControl_begin closed_sample fresh_locker.
Definition sanitizing_locker : LockerControl :=
  snd (startSanitize 0 5000 locked_locker).

(** Boot with the door closed and the safety input not asserted. *)
Definition unsafe_locker : LockerControl :=
  LockerControl_begin unsafe_sample fresh_locker.

End Firmware.

(** ** Part I, continued: motor jog, sensor events and the network cycle *)

Module FirmwareLoop.

Import Firmware.
Local Open Scope Z_scope.

Definition COLUMN_ID : string := "COL-001".
Definition HTTP_PORT : Z := 80.
Definition HEARTBEAT_INTERVAL : Z := 30000.
Definition ANNOUNCE_RETRY : Z := 5000.

(** [delayMicroseconds(us)] between two accesses of the register. *)
Definition pause_us (us : Z) (lc : LockerControl) : LockerControl :=
  with_sr (emit [DelayMicroseconds us] (_sr lc)) lc.

(** The body of the loop of [stepMotor]: one pulse on the step output. *)
Definition step_pulse (delayUs : Z) (lc : LockerControl) : LockerControl :=
  let lc := sr_setOutput OUT_STEP true lc in
  let lc := pause_us (delayUs / 2) lc in
  let lc := sr_setOutput OUT_STEP false lc in
  pause_us (delayUs / 2) lc.

(** [stepMotor(steps, fwd, delayUs)]: [steps] is an [int], the loop
    [for (int i = 0; i < steps; i++)] runs [max steps 0] times. *)
Definition stepMotor (steps : Z) (fwd : bool) (delayUs : Z)
    (lc : LockerControl) : LockerControl :=
  let lc := sr_setOutput OUT_DIR fwd lc in
  let lc := pause_us 10 lc in
  Nat.iter (Z.to_nat steps) (step_pulse delayUs) lc.

(** The byte [cur] of [checkSensorChanges]. *)
Definition sensor_mask (s : SensorState) : Z :=
  Z.lor (Z.lor (Z.lor (Z.lor (Z.lor
    (if doorClosed s then 1 else 0)
    (if doorOpen s then 2 else 0))
    (if occupied s then 4 else 0))
    (if irBeamClear s then 8 else 0))
    (if motorFault s then 16 else 0))
    (if safetyOk s then 32 else 0).

(** A call [sendEvent(event, idx)]. *)
Record SentEvent := mkSentEvent {
  se_event : string;
  se_index : Z
}.

(** The body of the loop of [checkSensorChanges] for locker [i]: the
    events it sends, in order, and the new value of [prevSensorStates[i]]. *)
Definition check_locker (i : Z) (s : SensorState) (prev : Z)
  : list SentEvent * Z :=
  let cur := sensor_mask s in
  if cur =? prev then ([], prev)
  else
    ((if negb (Z.land cur 1 =? Z.land prev 1) && doorClosed s
      then [ {| se_event := "DOOR_CLOSED"; se_index := i |} ] else [])
     ++ (if negb (Z.land cur 2 =? Z.land prev 2) && doorOpen s
         then [ {| se_event := "DOOR_OPENED"; se_index := i |} ] else [])
     ++ (if negb (Z.land cur 4 =? Z.land prev 4)
         then [ {| se_event := if occupied s then "ITEM_PLACED"
                               else "ITEM_REMOVED";
                   se_index := i |} ]
         else []),
     cur).

(** [checkSensorChanges()] over the lockers from index [i] on, each with
    its entry of [prevSensorStates]. *)
Fixpoint check_from (i : Z) (lockers : list LockerControl) (prev : list Z)
  : list SentEvent * list Z :=
  match lockers, prev with
  | lc :: lockers', p :: prev' =>
      let '(evs, p') := check_locker i (getSensors lc) p in
      let '(rest, prev'') := check_from (i + 1) lockers' prev' in
      (evs ++ rest, p' :: prev'')
  | _, _ => ([], prev)
  end.

Definition checkSensorChanges (lockers : list LockerControl) (prev : list Z)
  : list SentEvent * list Z :=
  check_from 0 lockers prev.

(** [memset(prevSensorStates, 0xFF, ...)] in [setup()]. *)
Definition initial_prevSensorStates : list Z := [255; 255; 255].

(** The globals of the network cycle. *)
Record NetState := mkNetState {
  networkConnected : bool;
  announced : bool;
  lastHeartbeat : Z;
  lastAnnounce : Z;
  prevSensorStates : list Z
}.

(** What one cycle hands to [postToServer]. *)
Inductive Outgoing :=
| PostAnnounce
| PostHeartbeat
| PostEvent (e : SentEvent).

(** [updateNetwork()]: [linkOff] tells whether [Ethernet.linkStatus()] is
    [LinkOFF], [now] is [millis()] and [announce_ok] is what
    [sendAnnounce()] returns if it is called. The DHCP upkeep of
    [Ethernet.maintain()] has no counterpart here. *)
Definition updateNetwork (linkOff : bool) (now : Z) (announce_ok : bool)
    (lockers : list LockerControl) (st : NetState)
  : list Outgoing * NetState :=
  if negb (networkConnected st) then ([], st)
  else if linkOff then
    ([], {| networkConnected := false; announced := false;
            lastHeartbeat := lastHeartbeat st;
            lastAnnounce := lastAnnounce st;
            prevSensorStates := prevSensorStates st |})
  else
    let try_announce :=
      negb (announced st) && (ANNOUNCE_RETRY <? u32 (now - lastAnnounce st)) in
    let announced1 :=
      if try_announce then (if announce_ok then true else announced st)
      else announced st in
    let lastAnnounce1 := if try_announce then now else lastAnnounce st in
    let beat :=
      announced1 && (HEARTBEAT_INTERVAL <? u32 (now - lastHeartbeat st)) in
    let lastHeartbeat1 := if beat then now else lastHeartbeat st in
    let '(evs, prev1) := checkSensorChanges lockers (prevSensorStates st) in
    ((if try_announce then [PostAnnounce] else [])
     ++ (if beat then [PostHeartbeat] else [])
     ++ map PostEvent evs,
     {| networkConnected := true; announced := announced1;
        lastHeartbeat := lastHeartbeat1; lastAnnounce := lastAnnounce1;
        prevSensorStates := prev1 |}).

(** The inputs of one cycle of [updateNetwork]. *)
Record CycleInput := mkCycleInput {
  ci_linkOff : bool;
  ci_now : Z;
  ci_announce_ok : bool;
  ci_lockers : list LockerControl
}.

(** Successive calls of [updateNetwork], one per element of [inputs]; the
    result collects what was handed to [postToServer]. *)
Fixpoint network_cycles (inputs : list CycleInput) (st : NetState)
  : list Outgoing * NetState :=
  match inputs with
  | [] => ([], st)
  | c :: rest =>
      let '(out, st1) :=
        updateNetwork (ci_linkOff c) (ci_now c) (ci_announce_ok c)
          (ci_lockers c) st in
      let '(outs, st2) := network_cycles rest st1 in
      (out ++ outs, st2)
  end.

(** The state [setup()] leaves when the network came up. *)
Definition net_after_setup : NetState :=
  {| networkConnected := true; announced := false; lastHeartbeat := 0;
     lastAnnounce := 0; prevSensorStates := initial_prevSensorStates |}.

(** [loop()] calls [update()] once per cycle: the compartment after the
    cycles whose clock readings and samples are listed in [cycles]. *)
Definition run_updates (cycles : list (Z * (Z -> bool))) (lc : LockerControl)
  : LockerControl :=
  fold_left (fun lc c => update (fst c) (snd c) lc) cycles lc.

(** The rising edges put on the shared clock line. *)
Definition clock_edges (evs : list io_event) : nat :=
  length (List.filter (fun e => match e with
                           | DigitalWrite pin true => pin =? SR_CLK
                           | _ => false
                           end) evs).

(** What [loop()] can do to one compartment: the [update()] of a cycle, or
    the operation a request of [handleRequest] (or a key of
    [handleSerial]) runs on it, in the firmware as built. *)
Inductive Command :=
| DoUpdate (now : Z) (miso : Z -> bool)
| DoUnlock (now : Z)
| DoLock (now : Z)
| DoSanitize (now ms : Z)
| DoSetLED (on : bool)
| DoSetUVC (on : bool)
| DoSetHeater (on : bool)
| DoStepMotor (steps : Z) (fwd : bool).

Definition execute (c : Command) (lc : LockerControl) : LockerControl :=
  match c with
  | DoUpdate now miso => update now miso lc
  | DoUnlock now => snd (unlock TEST_MODE now lc)
  | DoLock now => snd (lock TEST_MODE now lc)
  | DoSanitize now ms => snd (startSanitize now ms lc)
  | DoSetLED on => setLED on lc
  | DoSetUVC on => setUVC on lc
  | DoSetHeater on => setHeater on lc
  | DoStepMotor steps fwd => stepMotor steps fwd MOTOR_STEP_DELAY_US lc
  end.

Definition run (cs : list Command) (lc : LockerControl) : LockerControl :=
  fold_left (fun lc c => execute c lc) cs lc.

End FirmwareLoop.

(** ** Part II: the coordinator service ([lib/db/lockerService.ts])

    JavaScript strings are modelled by [string]; case mapping and the
    whitespace class are those of the ASCII range, which contains the
    pickup-code alphabet. An ISO timestamp produced by
    [new Date().toISOString()] is represented by the millisecond instant it
    denotes, which is what [new Date(s).getTime()] reads back. The [db]
    handle is a better-sqlite3 connection: every prepared statement is
    modelled by the meaning of its SQL text, and a table with
    [id TEXT PRIMARY KEY] is a finite map from the key to the row. *)

Module Coordinator.

Local Open Scope Z_scope.

(** *** String helpers *)

Definition is_lower (c : ascii) : bool :=
  let n := nat_of_ascii c in (97 <=? n)%nat && (n <=? 122)%nat.

Definition upper_char (c : ascii) : ascii :=
  if is_lower c then ascii_of_nat (nat_of_ascii c - 32) else c.

(** [s.toUpperCase()] *)
Fixpoint toUpperCase (s : string) : string :=
  match s with
  | EmptyString => EmptyString
  | String c r => String (upper_char c) (toUpperCase r)
  end.

(** The class [\s]: tab, line feed, vertical tab, form feed, carriage
    return and space. *)
Definition is_space (c : ascii) : bool :=
  let n := nat_of_ascii c in
  ((9 <=? n)%nat && (n <=? 13)%nat) || (n =? 32)%nat.

(** [s.replace(/\s/g, '')] *)
Fixpoint strip_whitespace (s : string) : string :=
  match s with
  | EmptyString => EmptyString
  | String c r =>
      if is_space c then strip_whitespace r
      else String c (strip_whitespace r)
  end.

(** [s.slice(-4)] *)
Definition slice_last4 (s : string) : string :=
  String.substring (String.length s - 4) 4 s.

(** [s.split('-')] *)
Fixpoint split_dash (s : string) : list string :=
  match s with
  | EmptyString => [EmptyString]
  | String c r =>
      if Ascii.eqb c "-" then EmptyString :: split_dash r
      else match split_dash r with
           | h :: t => String c h :: t
           | [] => [String c EmptyString]
           end
  end.

Definition is_digit (c : ascii) : bool :=
  let n := nat_of_ascii c in (48 <=? n)%nat && (n <=? 57)%nat.

(** The decimal value of the longest prefix of digits, if it is not empty. *)
Fixpoint digits_prefix (acc : option Z) (s : string) : option Z :=
  match s with
  | EmptyString => acc
  | String c r =>
      if is_digit c then
        digits_prefix
          (Some (10 * default 0 acc + Z.of_nat (nat_of_ascii c - 48))) r
      else acc
  end.

Fixpoint skip_spaces (s : string) : string :=
  match s with
  | String c r => if is_space c then skip_spaces r else s
  | EmptyString => s
  end.

(** [parseInt(s, 10)], [None] for [NaN]; [s] itself is [None] when the
    destructured array element is [undefined]. *)
Definition parseInt10 (s : option string) : option Z :=
  match s with
  | None => None
  | Some s =>
      match skip_spaces s with
      | String "-" r => Z.opp <$> digits_prefix None r
      | String "+" r => digits_prefix None r
      | r => digits_prefix None r
      end
  end.

(** JavaScript truthiness of a [string | null] value. *)
Definition truthy (s : option string) : bool :=
  match s with
  | Some EmptyString | None => false
  | Some _ => true
  end.

(** [a || b] on strings *)
Definition or_else (a : option string) (b : string) : string :=
  match a with
  | Some (String c r) => String c r
  | _ => b
  end.

(** *** Types *)

Record LockerSensorState := mkSensors {
  doorClosed : bool; doorOpen : bool; irBeamClear : bool; occupied : bool;
  tempOk : bool; safetyOk : bool; motorFault : bool
}.

(** An entry of [columnRegistry]: [LockerColumn & { sensors }]. *)
Record LockerColumn := mkColumn {
  col_id : string;
  ip : string;
  port : Z;
  lockerCount : nat;
  firmwareVersion : string;
  lastSeen : Z;
  isOnline : bool;
  sensors : list LockerSensorState
}.

(** A row of table [LockerColumn]. *)
Record ColumnRow := mkColumnRow {
  row_ip : string;
  row_port : Z;
  row_lockerCount : nat;
  row_firmwareVersion : string;
  row_lastSeen : Z;
  row_isOnline : Z
}.

(** A row of table [Compartment]. *)
Record Compartment := mkCompartment {
  columnId : string;
  lockerIndex : Z;
  size : string;
  status : string;
  currentOrderId : option string;
  lastStatusChange : Z
}.

(** The columns of table ["Order"] the service reads or writes. *)
Record Order := mkOrder {
  orderNumber : option string;
  compartmentId : option string;
  pickupCode : option string;
  fulfillmentType : option string;
  pickedUpAt : option Z
}.

(** [eventTimestamp]: a number is converted with [toISOString], a string is
    stored as it comes. *)
Inductive Timestamp :=
| IsoOfMillis (ms : Z)
| IsoText (s : string).

Record LockerEvent := mkEvent {
  ev_id : string;
  ev_compartmentId : string;
  ev_event : string;
  ev_data : string;
  ev_timestamp : Timestamp
}.

(** The JSON bodies the service posts to a column. *)
Inductive Body :=
| BodyRequestId (requestId : string)
| BodyDisplay (screen orderNo message : string)
| BodyOutput (output : string) (state : bool).

Record Request := mkRequest {
  url_ip : string;
  url_port : Z;
  url_endpoint : string;
  body : Body
}.

(** What a [fetch] meets: how long it takes and, unless the request or
    the decoding of the answer throws, the [success] member of the JSON
    answer. *)
Record Reply := mkReply {
  took : Z;
  answer : option bool
}.

(** The state of the service and of its surroundings: the wall clock read
    by [Date.now()], the in-memory registry, the four tables, the requests
    sent so far (oldest first) and the replies the network still holds. *)
Record World := mkWorld {
  clock : Z;
  columnRegistry : gmap string LockerColumn;
  tbl_LockerColumn : gmap string ColumnRow;
  tbl_Compartment : gmap string Compartment;
  tbl_Order : gmap string Order;
  tbl_LockerEvent : list LockerEvent;
  sent : list Request;
  inbox : list Reply
}.

Definition with_registry (r : gmap string LockerColumn) (w : World) : World :=
  {| clock := clock w; columnRegistry := r;
     tbl_LockerColumn := tbl_LockerColumn w;
     tbl_Compartment := tbl_Compartment w; tbl_Order := tbl_Order w;
     tbl_LockerEvent := tbl_LockerEvent w; sent := sent w; inbox := inbox w |}.

Definition with_columns (t : gmap string ColumnRow) (w : World) : World :=
  {| clock := clock w; columnRegistry := columnRegistry w;
     tbl_LockerColumn := t;
     tbl_Compartment := tbl_Compartment w; tbl_Order := tbl_Order w;
     tbl_LockerEvent := tbl_LockerEvent w; sent := sent w; inbox := inbox w |}.

Definition with_compartments (t : gmap string Compartment) (w : World) : World :=
  {| clock := clock w; columnRegistry := columnRegistry w;
     tbl_LockerColumn := tbl_LockerColumn w;
     tbl_Compartment := t; tbl_Order := tbl_Order w;
     tbl_LockerEvent := tbl_LockerEvent w; sent := sent w; inbox := inbox w |}.

Definition with_orders (t : gmap string Order) (w : World) : World :=
  {| clock := clock w; columnRegistry := columnRegistry w;
     tbl_LockerColumn := tbl_LockerColumn w;
     tbl_Compartment := tbl_Compartment w; tbl_Order := t;
     tbl_LockerEvent := tbl_LockerEvent w; sent := sent w; inbox := inbox w |}.

Definition with_events (t : list LockerEvent) (w : World) : World :=
  {| clock := clock w; columnRegistry := columnRegistry w;
     tbl_LockerColumn := tbl_LockerColumn w;
     tbl_Compartment := tbl_Compartment w; tbl_Order := tbl_Order w;
     tbl_LockerEvent := t; sent := sent w; inbox := inbox w |}.

(** [await fetch(url, ...)] followed by [await response.json()], with
    [AbortSignal.timeout(5000)]: the request goes out, and the next reply
    of the network, if there is one within five seconds, comes back. *)
Definition fetch (rq : Request) (w : World) : option bool * World :=
  match inbox w with
  | r :: rest =>
      if took r <? 5000 then
        (answer r,
         {| clock := clock w + took r; columnRegistry := columnRegistry w;
            tbl_LockerColumn := tbl_LockerColumn w;
            tbl_Compartment := tbl_Compartment w; tbl_Order := tbl_Order w;
            tbl_LockerEvent := tbl_LockerEvent w;
            sent := sent w ++ [rq]; inbox := rest |})
      else
        (None,
         {| clock := clock w + 5000; columnRegistry := columnRegistry w;
            tbl_LockerColumn := tbl_LockerColumn w;
            tbl_Compartment := tbl_Compartment w; tbl_Order := tbl_Order w;
            tbl_LockerEvent := tbl_LockerEvent w;
            sent := sent w ++ [rq]; inbox := rest |})
  | [] =>
      (None,
       {| clock := clock w + 5000; columnRegistry := columnRegistry w;
          tbl_LockerColumn := tbl_LockerColumn w;
          tbl_Compartment := tbl_Compartment w; tbl_Order := tbl_Order w;
          tbl_LockerEvent := tbl_LockerEvent w;
          sent := sent w ++ [rq]; inbox := [] |})
  end.

(** *** Column registry *)

(** [isColumnOnline]: seen within the last 60 seconds. *)
Definition isColumnOnline (columnId : string) (w : World) : bool :=
  match columnRegistry w !! columnId with
  | None => false
  | Some column => clock w - lastSeen column <? 60000
  end.

(** The object [{ success, error }] returned by the relay functions. *)
Record RelayResult := mkRelay {
  success : bool;
  error : option string
}.

Definition relay_error (msg : string) : RelayResult :=
  {| success := false; error := Some msg |}.

(** [sendToColumn(columnId, endpoint, body)] *)
Definition sendToColumn (column_id endpoint : string) (b : Body) (w : World)
  : RelayResult * World :=
  match columnRegistry w !! column_id with
  | None => (relay_error "Column not found", w)
  | Some column =>
      if negb (isColumnOnline column_id w) then
        (relay_error "Column offline", w)
      else
        let '(data, w) :=
          fetch {| url_ip := ip column; url_port := port column;
                   url_endpoint := endpoint; body := b |} w in
        match data with
        | Some ok => ({| success := ok; error := None |}, w)
        | None => (relay_error "Communication failed", w)
        end
  end.

Definition default_sensors : LockerSensorState :=
  {| doorClosed := false; doorOpen := false; irBeamClear := true;
     occupied := false; tempOk := true; safetyOk := true;
     motorFault := false |}.

Record AnnounceData := mkAnnounce {
  an_columnId : string;
  an_ip : string;
  an_port : Z;
  an_lockerCount : nat;
  an_firmwareVersion : string
}.

(** [INSERT OR IGNORE INTO Compartment ...] for one index; [size] and
    [currentOrderId] take the defaults of the schema. *)
Definition ensure_compartment (column_id : string) (now : Z)
    (t : gmap string Compartment) (i : nat) : gmap string Compartment :=
  let cid := column_id +:+ "-" +:+ pretty i in
  match t !! cid with
  | Some _ => t
  | None =>
      <[cid := {| columnId := column_id; lockerIndex := Z.of_nat i;
                  size := "M"; status := "available";
                  currentOrderId := None; lastStatusChange := now |}]> t
  end.

(** [handleColumnAnnounce(data)] *)
Definition handleColumnAnnounce (data : AnnounceData) (w : World) : World :=
  let now := clock w in
  let w :=
    with_registry
      (<[an_columnId data :=
           {| col_id := an_columnId data; ip := an_ip data;
              port := an_port data; lockerCount := an_lockerCount data;
              firmwareVersion := an_firmwareVersion data;
              lastSeen := now; isOnline := true;
              sensors := replicate (an_lockerCount data) default_sensors |}]>
         (columnRegistry w)) w in
  let w :=
    with_columns
      (<[an_columnId data :=
           {| row_ip := an_ip data; row_port := an_port data;
              row_lockerCount := an_lockerCount data;
              row_firmwareVersion := an_firmwareVersion data;
              row_lastSeen := now; row_isOnline := 1 |}]>
         (tbl_LockerColumn w)) w in
  with_compartments
    (fold_left (ensure_compartment (an_columnId data) now)
       (seq 0 (an_lockerCount data)) (tbl_Compartment w)) w.

(** One element of [data.lockers] in a heartbeat. *)
Record HeartbeatLocker := mkHbLocker {
  hb_index : Z;
  hb_sensors : LockerSensorState
}.

(** [if (locker.index < column.sensors.length) column.sensors[locker.index] = ...];
    a negative index does not touch the elements of the array. *)
Definition store_sensors (l : list LockerSensorState) (k : HeartbeatLocker)
  : list LockerSensorState :=
  if (hb_index k <? Z.of_nat (length l)) && (0 <=? hb_index k)
  then <[Z.to_nat (hb_index k) := hb_sensors k]> l
  else l.

(** [handleHeartbeat(data)] *)
Definition handleHeartbeat (column_id : string) (lockers : list HeartbeatLocker)
    (w : World) : World :=
  match columnRegistry w !! column_id with
  | None => w
  | Some column =>
      let now := clock w in
      let column' :=
        {| col_id := col_id column; ip := ip column; port := port column;
           lockerCount := lockerCount column;
           firmwareVersion := firmwareVersion column;
           lastSeen := now; isOnline := true;
           sensors := fold_left store_sensors lockers (sensors column) |} in
      let w := with_registry (<[column_id := column']> (columnRegistry w)) w in
      with_columns
        (alter (fun r =>
                  {| row_ip := row_ip r; row_port := row_port r;
                     row_lockerCount := row_lockerCount r;
                     row_firmwareVersion := row_firmwareVersion r;
                     row_lastSeen := now; row_isOnline := 1 |})
           column_id (tbl_LockerColumn w)) w
  end.

(** *** Hardware events *)

Definition set_status (st : string) (now : Z) (c : Compartment) : Compartment :=
  {| columnId := columnId c; lockerIndex := lockerIndex c; size := size c;
     status := st; currentOrderId := currentOrderId c;
     lastStatusChange := now |}.

Definition set_status_order (st : string) (o : option string) (now : Z)
    (c : Compartment) : Compartment :=
  {| columnId := columnId c; lockerIndex := lockerIndex c; size := size c;
     status := st; currentOrderId := o; lastStatusChange := now |}.

Definition set_pickedUpAt (now : Z) (o : Order) : Order :=
  {| orderNumber := orderNumber o; compartmentId := compartmentId o;
     pickupCode := pickupCode o; fulfillmentType := fulfillmentType o;
     pickedUpAt := Some now |}.

(** [timestamp: string | number] *)
Definition eventTimestamp (t : Z + string) : Timestamp :=
  match t with
  | inl ms => IsoOfMillis ms
  | inr s => IsoText s
  end.

Record EventData := mkEventData {
  ed_columnId : string;
  ed_timestamp : Z + string;
  ed_event : string;
  ed_lockerIndex : Z;
  ed_data : string
}.

(** [handleLockerEvent(data)]: [nano] is the identifier [nanoid()] returns
    for the log record and [ed_data] the text [JSON.stringify(data.data || {})]. *)
Definition handleLockerEvent (nano : string) (data : EventData) (w : World)
  : World :=
  let cid := ed_columnId data +:+ "-" +:+ pretty (ed_lockerIndex data) in
  let now := clock w in
  let w :=
    with_events
      (tbl_LockerEvent w ++
         [ {| ev_id := nano; ev_compartmentId := cid;
              ev_event := ed_event data; ev_data := ed_data data;
              ev_timestamp := eventTimestamp (ed_timestamp data) |} ]) w in
  let ev := ed_event data in
  if String.eqb ev "DOOR_OPENED" then
    with_compartments (alter (set_status "open" now) cid (tbl_Compartment w)) w
  else if String.eqb ev "DOOR_CLOSED" then
    let compartment := tbl_Compartment w !! cid in
    let newStatus :=
      if truthy (compartment ≫= currentOrderId)
      then "occupied" else "available" in
    with_compartments
      (alter (set_status newStatus now) cid (tbl_Compartment w)) w
  else if String.eqb ev "ITEM_REMOVED" then
    let comp := tbl_Compartment w !! cid in
    match comp ≫= currentOrderId with
    | Some (String c r) =>
        let w :=
          with_orders
            (alter (set_pickedUpAt now) (String c r) (tbl_Order w)) w in
        with_compartments
          (alter (set_status_order "available" None now) cid
             (tbl_Compartment w)) w
    | _ => w
    end
  else if String.eqb ev "MOTOR_FAULT" || String.eqb ev "SAFETY_TRIPPED" then
    with_compartments (alter (set_status "fault" now) cid (tbl_Compartment w)) w
  else if String.eqb ev "MOTOR_FAULT_CLEARED" || String.eqb ev "SAFETY_CLEARED"
  then
    with_compartments
      (alter (set_status "available" now) cid (tbl_Compartment w)) w
  else w.

(** *** Locker operations *)

(** [const [columnId, indexStr] = compartmentId.split('-')] followed by
    [parseInt(indexStr, 10)] and the relay to [/api/locker/<n>/<action>]. *)
Definition relay_to_compartment (compartment_id action : string) (b : Body)
    (w : World) : RelayResult * World :=
  let parts := split_dash compartment_id in
  let column_id := nth 0 parts EmptyString in
  match parseInt10 (parts !! 1%nat) with
  | None => (relay_error "Invalid compartment ID", w)
  | Some idx =>
      sendToColumn column_id
        ("/api/locker/" +:+ pretty idx +:+ "/" +:+ action) b w
  end.

(** [unlockLocker(compartmentId, requestId?)]; [nano] stands for [nanoid()]. *)
Definition unlockLocker (nano compartment_id : string)
    (requestId : option string) (w : World) : RelayResult * World :=
  relay_to_compartment compartment_id "unlock"
    (BodyRequestId (or_else requestId nano)) w.

Definition lockLocker (nano compartment_id : string)
    (requestId : option string) (w : World) : RelayResult * World :=
  relay_to_compartment compartment_id "lock"
    (BodyRequestId (or_else requestId nano)) w.

Definition updateLockerDisplay (compartment_id screen orderNo message : string)
    (w : World) : RelayResult * World :=
  relay_to_compartment compartment_id "display"
    (BodyDisplay screen orderNo message) w.

Definition setLockerLED (compartment_id : string) (on : bool) (w : World)
  : RelayResult * World :=
  relay_to_compartment compartment_id "output" (BodyOutput "led" on) w.

(** *** Pickup codes and reservations *)

Definition pickup_alphabet : string := "23456789ABCDEFGHJKLMNPQRSTUVWXYZ".

(** [generatePickupCode()]: [draw i] is the value of
    [Math.floor(Math.random() * chars.length)] in iteration [i], an index
    into the alphabet. *)
Definition generatePickupCode (draw : nat -> nat) : string :=
  fold_left
    (fun code i =>
       match String.get (draw i) pickup_alphabet with
       | Some c => code +:+ String c EmptyString
       | None => code
       end)
    (seq 0 6) EmptyString.

Inductive AssignResult :=
| AssignOk (code : string)
| AssignErr (msg : string).

Definition assign_order (compartment_id code : string) (o : Order) : Order :=
  {| orderNumber := orderNumber o; compartmentId := Some compartment_id;
     pickupCode := Some code; fulfillmentType := Some "locker";
     pickedUpAt := pickedUpAt o |}.

(** [assignOrderToLocker(orderId, compartmentId)]; [code] is the value
    [generatePickupCode()] returns in this call. *)
Definition assignOrderToLocker (orderId compartment_id code : string)
    (w : World) : AssignResult * World :=
  let now := clock w in
  match tbl_Compartment w !! compartment_id with
  | None => (AssignErr "Compartment not found", w)
  | Some compartment =>
      if negb (String.eqb (status compartment) "available") then
        (AssignErr ("Compartment is " +:+ status compartment), w)
      else
        let w :=
          with_orders
            (alter (assign_order compartment_id code) orderId (tbl_Order w))
            w in
        let w :=
          with_compartments
            (alter (set_status_order "reserved" (Some orderId) now)
               compartment_id (tbl_Compartment w)) w in
        let '(_, w) :=
          updateLockerDisplay compartment_id "RESERVED"
            (toUpperCase (slice_last4 orderId)) "Preparing..." w in
        (AssignOk code, w)
  end.

(** [markOrderLoaded(orderId)] *)
Definition markOrderLoaded (orderId : string) (w : World)
  : RelayResult * World :=
  let now := clock w in
  match tbl_Order w !! orderId ≫= compartmentId with
  | Some (String c r) =>
      let cid := String c r in
      let w :=
        with_compartments
          (alter (set_status "occupied" now) cid (tbl_Compartment w)) w in
      let '(_, w) :=
        updateLockerDisplay cid "ORDER_READY"
          (toUpperCase (slice_last4 orderId)) "Ready for pickup!" w in
      let '(_, w) := setLockerLED cid true w in
      ({| success := true; error := None |}, w)
  | _ => (relay_error "Order not assigned to locker", w)
  end.

(** The [WHERE] clause of the lookup in [validateAndUnlock], on a row of
    ["Order"] joined with its compartment. *)
Definition code_matches (w : World) (code : string) (row : string * Order)
  : bool :=
  match pickupCode row.2, pickedUpAt row.2, compartmentId row.2 with
  | Some pc, None, Some cid =>
      String.eqb pc code
      && match tbl_Compartment w !! cid with
         | Some c => String.eqb (status c) "occupied"
         | None => false
         end
  | _, _, _ => false
  end.

(** [.get(pickupCode)]: the first row of the result, rows taken in key
    order. *)
Definition find_order_by_code (w : World) (code : string)
  : option (string * Order) :=
  find (code_matches w code) (map_to_list (tbl_Order w)).

Inductive PickupResult :=
| PickupOk (compartment_id orderNo : string)
| PickupErr (msg : string).

(** [validateAndUnlock(pickupCode)]; [nano] stands for [nanoid()]. *)
Definition validateAndUnlock (nano code : string) (w : World)
  : PickupResult * World :=
  match find_order_by_code w code with
  | None => (PickupErr "Invalid or expired pickup code", w)
  | Some (oid, order) =>
      let cid := default EmptyString (compartmentId order) in
      let orderNo :=
        or_else (orderNumber order) (toUpperCase (slice_last4 oid)) in
      let '(_, w) :=
        updateLockerDisplay cid "PICKUP_ALERT" orderNo "Opening..." w in
      let '(result, w) :=
        unlockLocker nano cid (Some ("pickup-" +:+ code)) w in
      if negb (success result) then
        (PickupErr (or_else (error result) "Failed to unlock"), w)
      else (PickupOk cid orderNo, w)
  end.

(** *** Maintenance *)

Definition stale (now : Z) (column : LockerColumn) : bool :=
  (60000 <? now - lastSeen column) && isOnline column.

Definition mark_offline (now : Z) (column : LockerColumn) : LockerColumn :=
  if stale now column then
    {| col_id := col_id column; ip := ip column; port := port column;
       lockerCount := lockerCount column;
       firmwareVersion := firmwareVersion column;
       lastSeen := lastSeen column; isOnline := false;
       sensors := sensors column |}
  else column.

Definition row_offline (r : ColumnRow) : ColumnRow :=
  {| row_ip := row_ip r; row_port := row_port r;
     row_lockerCount := row_lockerCount r;
     row_firmwareVersion := row_firmwareVersion r;
     row_lastSeen := row_lastSeen r; row_isOnline := 0 |}.

(** [checkColumnHealth()]: every stale entry of the registry that is still
    flagged online is flagged offline, in memory and in [LockerColumn]. *)
Definition checkColumnHealth (w : World) : World :=
  let now := clock w in
  let reg := columnRegistry w in
  let w := with_registry (mark_offline now <$> reg) w in
  with_columns
    (map_imap
       (fun id r =>
          match reg !! id with
          | Some column =>
              if stale now column then Some (row_offline r) else Some r
          | None => Some r
          end)
       (tbl_LockerColumn w)) w.

(** *** [POST /api/lockers/pickup] ([app/api/lockers/pickup/route.ts])

    [body.code] is a JavaScript string: a list of UTF-16 code units. *)

(** The class [\s] of a JavaScript regular expression: the white space
    and line terminator code points, all of them single code units. *)
Definition js_is_space (u : Z) : bool :=
  ((9 <=? u) && (u <=? 13)) || (u =? 32) || (u =? 160) || (u =? 5760)
  || ((8192 <=? u) && (u <=? 8202)) || (u =? 8232) || (u =? 8233)
  || (u =? 8239) || (u =? 8287) || (u =? 12288) || (u =? 65279).

(** [toUpperCase()] on one code unit, for the units this embedding
    covers: the ASCII characters, where the letters a to z go to A to Z,
    and the white space characters, which have no case. [None] for every
    other unit: the Unicode case tables are not part of the embedding. *)
Definition js_upper_unit (u : Z) : option Z :=
  if (97 <=? u) && (u <=? 122) then Some (u - 32)
  else if (0 <=? u) && (u <? 128) then Some u
  else if js_is_space u then Some u
  else None.

(** [s.toUpperCase()] *)
Fixpoint js_toUpperCase (s : list Z) : option (list Z) :=
  match s with
  | [] => Some []
  | u :: r =>
      match js_upper_unit u, js_toUpperCase r with
      | Some u', Some r' => Some (u' :: r')
      | _, _ => None
      end
  end.

(** [s.replace(/\s/g, '')] *)
Definition js_strip_whitespace (s : list Z) : list Z :=
  List.filter (fun u => negb (js_is_space u)) s.

(** The text bound to the [?] of the query, for a string of ASCII
    characters: each code unit is one byte of the text. *)
Fixpoint text_of_units (s : list Z) : option string :=
  match s with
  | [] => Some EmptyString
  | u :: r =>
      if (0 <=? u) && (u <? 128)
      then String (ascii_of_nat (Z.to_nat u)) <$> text_of_units r
      else None
  end.

(** [body.code.toString().toUpperCase().replace(/\s/g, '')], as the text
    handed to [validateAndUnlock]; [None] when [body.code] holds a
    character outside the table of [js_upper_unit]. *)
Definition route_code (raw : list Z) : option string :=
  js_toUpperCase raw ≫= fun up => text_of_units (js_strip_whitespace up).

(** Whether a text holds ASCII characters only. *)
Fixpoint ascii_text (s : string) : bool :=
  match s with
  | EmptyString => true
  | String c r => (nat_of_ascii c <? 128)%nat && ascii_text r
  end.

(** The code units of a text of ASCII characters. *)
Fixpoint units_of_string (s : string) : list Z :=
  match s with
  | EmptyString => []
  | String c r => Z.of_nat (nat_of_ascii c) :: units_of_string r
  end.

(** The normal form of a text of ASCII characters: what [route_code]
    gives on its code units (lemma [route_code_ascii]). *)
Definition normalize_code (code : string) : string :=
  strip_whitespace (toUpperCase code).

Record PickupResponse := mkPickupResponse {
  http_status : Z;
  pickup_result : PickupResult
}.

(** [code] is [body.code], [None] when the member is missing. The result
    is [None] when the code holds a character outside the table of
    [js_upper_unit]: the embedding says nothing about such a request. *)
Definition pickup_POST (nano : string) (code : option (list Z)) (w : World)
  : option (PickupResponse * World) :=
  match code with
  | Some (u :: r) =>
      match route_code (u :: r) with
      | None => None
      | Some code =>
          let '(result, w) := validateAndUnlock nano code w in
          match result with
          | PickupErr msg =>
              Some ({| http_status := 400; pickup_result := PickupErr msg |},
                    w)
          | PickupOk cid orderNo =>
              Some ({| http_status := 200;
                       pickup_result := PickupOk cid orderNo |}, w)
          end
      end
  | _ =>
      Some ({| http_status := 400;
               pickup_result := PickupErr "Missing pickup code" |}, w)
  end.

(** *** Runs of the service

    A hardware event or a pickup request; the request is given by the
    text its route hands to [validateAndUnlock]. *)
Inductive ServiceCall :=
| CallEvent (nano : string) (data : EventData)
| CallPickup (nano code : string).

Definition serve (w : World) (c : ServiceCall) : World :=
  match c with
  | CallEvent nano data => handleLockerEvent nano data w
  | CallPickup nano code => snd (validateAndUnlock nano code w)
  end.

Definition serve_all (calls : list ServiceCall) (w : World) : World :=
  fold_left serve calls w.

Definition is_pickup (c : ServiceCall) : bool :=
  match c with
  | CallPickup _ _ => true
  | CallEvent _ _ => false
  end.

(** The compartment id an event names. *)
Definition event_compartment (data : EventData) : string :=
  ed_columnId data +:+ "-" +:+ pretty (ed_lockerIndex data).

(** *** Comparing worlds *)

(** The registry and the tables of two worlds agree. *)
Definition same_data (w w' : World) : Prop :=
  columnRegistry w' = columnRegistry w
  /\ tbl_LockerColumn w' = tbl_LockerColumn w
  /\ tbl_Compartment w' = tbl_Compartment w
  /\ tbl_Order w' = tbl_Order w
  /\ tbl_LockerEvent w' = tbl_LockerEvent w.

(** The error texts a relay can produce. *)
Definition relay_errors : list string :=
  [ "Column not found"; "Column offline"; "Communication failed";
    "Invalid compartment ID" ]%string.

(** *** A run of the service

    Column "C1" with one compartment announces itself at time 0; order
    "O1" is assigned to compartment "C1-0" with the code "ABC123" and then
    loaded; the column answers every request within 10 ms. *)

Definition empty_world (replies : list Reply) : World :=
  {| clock := 0; columnRegistry := ∅; tbl_LockerColumn := ∅;
     tbl_Compartment := ∅; tbl_Order := ∅; tbl_LockerEvent := [];
     sent := []; inbox := replies |}.

(** The wall clock moves on between two calls of the service. *)
Definition at_time (t : Z) (w : World) : World :=
  {| clock := t; columnRegistry := columnRegistry w;
     tbl_LockerColumn := tbl_LockerColumn w;
     tbl_Compartment := tbl_Compartment w; tbl_Order := tbl_Order w;
     tbl_LockerEvent := tbl_LockerEvent w; sent := sent w; inbox := inbox w |}.

Definition ok_reply : Reply := {| took := 10; answer := Some true |}.

Definition announce_C1 : AnnounceData :=
  {| an_columnId := "C1"; an_ip := "192.168.150.3"; an_port := 80;
     an_lockerCount := 1; an_firmwareVersion := "1.0.1" |}.

(** The registry entry the announce creates. *)
Definition column_C1 : LockerColumn :=
  {| col_id := "C1"; ip := "192.168.150.3"; port := 80; lockerCount := 1;
     firmwareVersion := "1.0.1"; lastSeen := 0; isOnline := true;
     sensors := [default_sensors] |}.

Definition announced_world : World :=
  handleColumnAnnounce announce_C1 (empty_world (replicate 8 ok_reply)).

(** The row of order "O1" before and after the assignment. *)
Definition order_O1 : Order :=
  {| orderNumber := Some "A042"%string; compartmentId := None;
     pickupCode := None; fulfillmentType := None; pickedUpAt := None |}.
Definition loaded_O1 : Order :=
  {| orderNumber := Some "A042"%string; compartmentId := Some "C1-0"%string;
     pickupCode := Some "ABC123"%string;
     fulfillmentType := Some "locker"%string; pickedUpAt := None |}.

Definition reserved_world : World :=
  snd (assignOrderToLocker "O1" "C1-0" "ABC123"
         (with_orders {[ "O1"%string := order_O1 ]} announced_world)).

Definition loaded_world : World := snd (markOrderLoaded "O1" reserved_world).

(** Two events of compartment "C1-0". *)
Definition door_closed_C1_0 : EventData :=
  {| ed_columnId := "C1"; ed_timestamp := inl 5000;
     ed_event := "DOOR_CLOSED"; ed_lockerIndex := 0; ed_data := "{}" |}.
Definition item_removed_C1_0 : EventData :=
  {| ed_columnId := "C1"; ed_timestamp := inl 9000;
     ed_event := "ITEM_REMOVED"; ed_lockerIndex := 0; ed_data := "{}" |}.
Definition door_opened_C1_0 : EventData :=
  {| ed_columnId := "C1"; ed_timestamp := inl 7000;
     ed_event := "DOOR_OPENED"; ed_lockerIndex := 0; ed_data := "{}" |}.

(** The code of order "O1" as a customer may type it: lower case, with a
    space; and with a no-break space (U+00A0). *)
Definition typed_code : list Z := units_of_string "abc 123".
Definition typed_code_nbsp : list Z := [97; 98; 99; 160; 49; 50; 51].

End Coordinator.

(** ** Part II, continued: status queries and the assign route *)

Module CoordinatorApi.

Import Coordinator.
Local Open Scope Z_scope.

(** [getColumns()] and [getColumn(columnId)] *)
Definition getColumns (w : World) : list LockerColumn :=
  snd <$> map_to_list (columnRegistry w).
Definition getColumn (column_id : string) (w : World) : option LockerColumn :=
  columnRegistry w !! column_id.

(** [ORDER BY columnId, lockerIndex], text compared byte by byte. *)
Definition row_leb (a b : string * Compartment) : bool :=
  match String.compare (columnId a.2) (columnId b.2) with
  | Lt => true
  | Gt => false
  | Eq => lockerIndex a.2 <=? lockerIndex b.2
  end.

Definition row_le (a b : string * Compartment) : Prop := row_leb a b = true.

#[global] Instance row_le_dec : RelDecision row_le :=
  fun a b => decide (row_leb a b = true).

(** [getAllCompartments()]: the rows with their keys. *)
Definition getAllCompartments (w : World) : list (string * Compartment) :=
  merge_sort row_le (map_to_list (tbl_Compartment w)).

(** The [WHERE] clause of [getAvailableCompartments(size?)]; an absent or
    empty [size] selects the query without the size test. *)
Definition is_available (sz : option string) (r : string * Compartment)
  : bool :=
  String.eqb (status r.2) "available"
  && match sz with
     | Some (String c s) => String.eqb (size r.2) (String c s)
     | _ => true
     end.

Definition getAvailableCompartments (sz : option string) (w : World)
  : list (string * Compartment) :=
  merge_sort row_le
    (List.filter (is_available sz) (map_to_list (tbl_Compartment w))).

(** The object [getCompartmentStatus] returns. *)
Record CompartmentStatus := mkCompartmentStatus {
  cs_compartment : option Compartment;
  cs_sensors : option LockerSensorState;
  cs_online : bool
}.

(** [column.sensors[i]] for a number [i] *)
Definition sensors_at (l : list LockerSensorState) (i : Z)
  : option LockerSensorState :=
  if 0 <=? i then l !! Z.to_nat i else None.

(** [getCompartmentStatus(compartmentId)] *)
Definition getCompartmentStatus (compartment_id : string) (w : World)
  : CompartmentStatus :=
  match tbl_Compartment w !! compartment_id with
  | None =>
      {| cs_compartment := None; cs_sensors := None; cs_online := false |}
  | Some compartment =>
      {| cs_compartment := Some compartment;
         cs_sensors :=
           columnRegistry w !! columnId compartment
             ≫= (fun column => sensors_at (sensors column)
                                  (lockerIndex compartment));
         cs_online := isColumnOnline (columnId compartment) w |}
  end.

(** *** [POST /api/lockers/assign] ([app/api/lockers/assign/route.ts]) *)

Inductive AssignReply :=
| AssignReplyOk (compartment_id code : string)
| AssignReplyErr (msg : string).

Record AssignResponse := mkAssignResponse {
  assign_status : Z;
  assign_reply : AssignReply
}.

(** The members [orderId], [compartmentId] and [size] of the body are
    [None] when missing; [code] is what [generatePickupCode()] returns if
    the assignment gets that far. *)
Definition assign_POST (orderId compartment_id sz : option string)
    (code : string) (w : World) : AssignResponse * World :=
  match orderId with
  | Some (String c r) =>
      let oid := String c r in
      let chosen :=
        match compartment_id with
        | Some (String c' r') => Some (String c' r')
        | _ =>
            match getAvailableCompartments sz w with
            | [] => None
            | first :: _ => Some first.1
            end
        end in
      match chosen with
      | None =>
          ({| assign_status := 400;
              assign_reply := AssignReplyErr "No available compartments" |},
           w)
      | Some cid =>
          let '(result, w) := assignOrderToLocker oid cid code w in
          match result with
          | AssignErr msg =>
              ({| assign_status := 400;
                  assign_reply := AssignReplyErr msg |}, w)
          | AssignOk pc =>
              ({| assign_status := 200;
                  assign_reply := AssignReplyOk cid pc |}, w)
          end
      end
  | _ =>
      ({| assign_status := 400;
          assign_reply := AssignReplyErr "Missing orderId" |}, w)
  end.

(** Whether a column id contains the separator of compartment ids. *)
Fixpoint has_dash (s : string) : bool :=
  match s with
  | EmptyString => false
  | String c r => Ascii.eqb c "-" || has_dash r
  end.

(** A draw of [generatePickupCode] is an index into the alphabet. *)
Definition draw_ok (draw : nat -> nat) : Prop :=
  forall i, (draw i < String.length pickup_alphabet)%nat.

Fixpoint chars_of (s : string) : list ascii :=
  match s with
  | EmptyString => []
  | String c r => c :: chars_of r
  end.

End CoordinatorApi.

(** ** Part III: properties of the firmware *)

Module FirmwareSpec.

Import Firmware.
Local Open Scope Z_scope.

(** *** Bit-level facts *)

Lemma bit_set_testbit (w b : Z) : 0 <= b -> bit_set w b = Z.testbit w b.
Proof.
  intros Hb. unfold bit_set. rewrite Z.shiftl_1_l.
  destruct (Z.testbit w b) eqn:Hw.
  - destruct (Z.eqb_spec (Z.land w (2 ^ b)) 0) as [E | _]; [| reflexivity].
    exfalso.
    assert (Hl : Z.testbit (Z.land w (2 ^ b)) b = true).
    { rewrite Z.land_spec, Hw, Z.pow2_bits_true by assumption. reflexivity. }
    rewrite E, Z.bits_0 in Hl. discriminate.
  - assert (E : Z.land w (2 ^ b) = 0).
    { apply Z.bits_inj'. intros n _.
      rewrite Z.land_spec, Z.bits_0, Z.pow2_bits_eqb by assumption.
      destruct (Z.eqb_spec b n) as [<- | _].
      - rewrite Hw. reflexivity.
      - apply andb_false_r. }
    rewrite E. reflexivity.
Qed.

Lemma bit_set_zero (b : Z) : bit_set 0 b = false.
Proof. unfold bit_set. rewrite Z.land_0_l. reflexivity. Qed.

(** [_outputState |= (1 << b)] sets bit [b] and keeps the others. *)
Lemma bit_set_after_set (o b b' : Z) :
  0 <= b -> 0 <= b' < 8 ->
  bit_set (u8 (Z.lor o (Z.shiftl 1 b))) b' = bit_set o b' || (b =? b').
Proof.
  intros Hb Hb'. rewrite !bit_set_testbit by lia. unfold u8.
  change 256 with (2 ^ 8).
  rewrite Z.mod_pow2_bits_low by lia.
  rewrite Z.lor_spec, Z.shiftl_1_l, Z.pow2_bits_eqb by lia. reflexivity.
Qed.

(** [_outputState &= ~(1 << b)] clears bit [b] and keeps the others. *)
Lemma bit_set_after_clear (o b b' : Z) :
  0 <= b -> 0 <= b' < 8 ->
  bit_set (u8 (Z.land o (Z.lnot (Z.shiftl 1 b)))) b'
  = bit_set o b' && negb (b =? b').
Proof.
  intros Hb Hb'. rewrite !bit_set_testbit by lia. unfold u8.
  change 256 with (2 ^ 8).
  rewrite Z.mod_pow2_bits_low by lia.
  rewrite Z.land_spec, Z.lnot_spec, Z.shiftl_1_l, Z.pow2_bits_eqb by lia.
  reflexivity.
Qed.

(** The word assembled by [readInputs] has bit [b] set exactly when MISO
    was high in the iteration for bit [b]. *)
Lemma read_word_bit (miso : Z -> bool) (b : Z) :
  In b bits_msb_first -> bit_set (read_word miso) b = miso b.
Proof.
  intros Hin. unfold read_word, bits_msb_first in *. simpl fold_left.
  simpl in Hin.
  destruct (miso 7) eqn:M7, (miso 6) eqn:M6, (miso 5) eqn:M5,
    (miso 4) eqn:M4, (miso 3) eqn:M3, (miso 2) eqn:M2, (miso 1) eqn:M1,
    (miso 0) eqn:M0;
    repeat (destruct Hin as [<- | Hin];
            [ first [ rewrite M7 | rewrite M6 | rewrite M5 | rewrite M4
                    | rewrite M3 | rewrite M2 | rewrite M1 | rewrite M0 ];
              vm_compute; reflexivity | ]);
    contradiction.
Qed.

Lemma read_word_range (miso : Z -> bool) : 0 <= read_word miso < 256.
Proof.
  unfold read_word, bits_msb_first. simpl fold_left.
  destruct (miso 7), (miso 6), (miso 5), (miso 4), (miso 3), (miso 2),
    (miso 1), (miso 0); vm_compute; split; congruence.
Qed.

(** *** The driver *)

Lemma writeOutputs_state (d : Z) (sr : ShiftRegister) :
  getOutputState (writeOutputs d sr) = d
  /\ getInputState (writeOutputs d sr) = getInputState sr
  /\ _csPin (writeOutputs d sr) = _csPin sr
  /\ _misoPin (writeOutputs d sr) = _misoPin sr
  /\ wire (writeOutputs d sr) = wire sr ++ write_sequence (_csPin sr) d.
Proof. repeat split. Qed.

Lemma refresh_state (miso : Z -> bool) (sr : ShiftRegister) :
  getOutputState (refresh miso sr) = getOutputState sr
  /\ getInputState (refresh miso sr) = read_word miso
  /\ _csPin (refresh miso sr) = _csPin sr
  /\ _misoPin (refresh miso sr) = _misoPin sr.
Proof. repeat split. Qed.

Lemma shifted_bit (d i : Z) :
  0 <= i -> negb (Z.land (Z.shiftr d i) 1 =? 0) = bit_set d i.
Proof.
  intros Hi. change (bit_set (Z.shiftr d i) 0 = bit_set d i).
  rewrite !bit_set_testbit by lia.
  rewrite Z.shiftr_spec by lia. reflexivity.
Qed.

Lemma write_sequence_mosi (cs d : Z) :
  cs <> SR_MOSI ->
  mosi_levels (write_sequence cs d) = map (bit_set d) bits_msb_first.
Proof.
  intros Hcs. unfold write_sequence, mosi_levels.
  rewrite !flat_map_app. simpl.
  destruct (Z.eqb_spec cs SR_MOSI) as [E | _]; [contradiction |].
  simpl. rewrite !shifted_bit by lia. reflexivity.
Qed.

(** *** The sensor sample seen by one [update()] *)

Lemma getSensors_refresh (miso : Z -> bool) (lc : LockerControl) :
  getSensors (with_sr (refresh miso (_sr lc)) lc) = sample miso.
Proof.
  unfold getSensors, sample. simpl.
  rewrite !read_word_bit by (vm_compute; tauto). reflexivity.
Qed.

(** Opens [update] on its first two lines: the refresh and the decoding
    of the sample. *)
Ltac open_update :=
  unfold update; cbv zeta; rewrite getSensors_refresh; unfold sample;
  cbn [motorFault doorOpen doorClosed irBeamClear _state with_sr].

(** *** C1: motor fault *)

(** C1. Whatever the state (other than Fault) and whatever the rest of the
    sample, an [update()] that samples the motor-fault input asserted
    writes the output word 0 (all eight output bits low, through
    [emergencyStop]), records "Motor fault" and leaves the machine in
    Fault; no per-state rule is consulted. *)
Theorem C1_motor_fault_forces_fault :
  forall (now : Z) (miso : Z -> bool) (lc : LockerControl),
    miso IN_TMC_DIAG = true ->
    _state lc <> FAULT ->
    let lc' := update now miso lc in
    _state lc' = FAULT
    /\ getOutputState (_sr lc') = 0
    /\ (forall b, bit_set (getOutputState (_sr lc')) b = false)
    /\ getLastError lc' = Some "Motor fault"%string
    /\ (exists earlier,
          wire (_sr lc') = earlier ++ write_sequence (_csPin (_sr lc)) 0)
    /\ lc' = with_state FAULT
               (emergencyStop
                  (with_lastError "Motor fault"
                     (with_sr (refresh miso (_sr lc)) lc))).
Proof.
  intros now miso lc Hfault Hstate lc'.
  assert (E : lc' = with_state FAULT
                      (emergencyStop
                         (with_lastError "Motor fault"
                            (with_sr (refresh miso (_sr lc)) lc)))).
  { subst lc'. open_update. rewrite Hfault.
    destruct (_state lc); try reflexivity. contradiction. }
  rewrite E.
  split; [reflexivity |]. split; [reflexivity |].
  split; [intros b; apply bit_set_zero |]. split; [reflexivity |].
  split; [| reflexivity].
  eexists. cbn. reflexivity.
Qed.

Lemma C1_witness :
  let lc' := update 5 all_high booted_locker in
  _state lc' = FAULT
  /\ getOutputState (_sr lc') = 0
  /\ (forall b, bit_set (getOutputState (_sr lc')) b = false)
  /\ getLastError lc' = Some "Motor fault"%string
  /\ (exists earlier,
        wire (_sr lc')
        = earlier ++ write_sequence (_csPin (_sr booted_locker)) 0)
  /\ lc' = with_state FAULT
             (emergencyStop
                (with_lastError "Motor fault"
                   (with_sr (refresh all_high (_sr booted_locker))
                      booted_locker))).
Proof.
  apply (C1_motor_fault_forces_fault 5 all_high booted_locker).
  - reflexivity.
  - vm_compute. discriminate.
Defined.

(** *** The register behind the pins *)

Lemma testbit_shift_in (s : Z) (b : bool) (n : Z) :
  Z.testbit (shift_in s b) n
  = if n =? 0 then b else (n <? 8) && Z.testbit s (n - 1).
Proof.
  destruct (Z.ltb_spec n 0) as [Hneg | Hn].
  { rewrite Z.testbit_neg_r by lia.
    destruct (Z.eqb_spec n 0); [lia |].
    rewrite (Z.testbit_neg_r s (n - 1)) by lia. apply eq_sym, andb_false_r. }
  unfold shift_in, u8. change 256 with (2 ^ 8).
  destruct (Z.ltb_spec n 8) as [Hlt | Hge].
  - rewrite Z.mod_pow2_bits_low by lia. rewrite Z.lor_spec.
    destruct (Z.eqb_spec n 0) as [-> | Hne].
    + rewrite Z.shiftl_spec_low by lia. destruct b; reflexivity.
    + rewrite Z.shiftl_spec by lia.
      replace (Z.testbit (if b then 1 else 0) n) with false.
      * cbn [andb]. apply orb_false_r.
      * destruct b; [| rewrite Z.bits_0; reflexivity].
        apply eq_sym, Z.bits_above_log2; cbn; lia.
  - rewrite Z.mod_pow2_bits_high by lia.
    destruct (Z.eqb_spec n 0); [lia | reflexivity].
Qed.

(** Eight bits shifted in, most significant first, make up the word,
    whatever the register held. *)
Lemma shift_in_word (s w : Z) :
  0 <= w < 256 ->
  fold_left shift_in (map (bit_set w) bits_msb_first) s = w.
Proof.
  intros Hw. unfold bits_msb_first. cbn [map fold_left].
  apply Z.bits_inj'. intros n Hn.
  rewrite !testbit_shift_in, !bit_set_testbit by lia.
  destruct (Z.ltb_spec n 8) as [Hlt | Hge].
  - assert (C : n = 0 \/ n = 1 \/ n = 2 \/ n = 3 \/ n = 4 \/ n = 5 \/ n = 6
                \/ n = 7) by lia.
    repeat (destruct C as [-> | C]; [reflexivity |]). subst n. reflexivity.
  - destruct (Z.eqb_spec n 0); [lia |]. cbn [andb].
    rewrite <- (Z.mod_small w (2 ^ 8)) by (change (2 ^ 8) with 256; lia).
    apply eq_sym, Z.mod_pow2_bits_high. lia.
Qed.

Lemma hc595_run_app (gated : bool) (cs : Z) (l1 l2 : list io_event)
    (d : HC595) :
  hc595_run gated cs (l1 ++ l2) d
  = hc595_run gated cs l2 (hc595_run gated cs l1 d).
Proof. apply fold_left_app. Qed.

(** One iteration of the loop of [writeOutputs] on a selected register
    whose clock is low: the bit is shifted in, the clock is low again. *)
Lemma hc595_clock_out (gated : bool) (cs w i : Z) (d : HC595) :
  0 <= i ->
  hc_clk d = false -> hc_sel d = true ->
  hc595_run gated cs (clock_out w i) d
  = {| hc_shift := shift_in (hc_shift d) (bit_set w i);
       hc_latch := hc_latch d; hc_ser := bit_set w i; hc_clk := false;
       hc_rclk := hc_rclk d; hc_sel := true |}.
Proof.
  intros Hi Hclk Hsel. unfold clock_out, hc595_run.
  cbn [fold_left hc595_step].
  change (SR_MOSI =? SR_MOSI) with true.
  change (SR_CLK =? SR_MOSI) with false.
  change (SR_CLK =? SR_CLK) with true.
  cbn [hc_shift hc_latch hc_ser hc_clk hc_rclk hc_sel].
  rewrite Hclk, Hsel, shifted_bit by exact Hi. reflexivity.
Qed.

Lemma hc595_clock_out_all (gated : bool) (cs w : Z) (bits : list Z)
    (d : HC595) :
  Forall (fun i => 0 <= i) bits ->
  hc_clk d = false -> hc_sel d = true ->
  let d' := hc595_run gated cs (flat_map (clock_out w) bits) d in
  hc_shift d' = fold_left shift_in (map (bit_set w) bits) (hc_shift d)
  /\ hc_latch d' = hc_latch d /\ hc_clk d' = false /\ hc_sel d' = true.
Proof.
  intros Hbits. revert d.
  induction Hbits as [| i bits Hi _ IH]; intros d Hclk Hsel.
  - cbn. auto.
  - cbn [flat_map map fold_left]. cbv zeta. rewrite hc595_run_app.
    rewrite (hc595_clock_out gated cs w i d Hi Hclk Hsel).
    exact (IH {| hc_shift := shift_in (hc_shift d) (bit_set w i);
                 hc_latch := hc_latch d; hc_ser := bit_set w i;
                 hc_clk := false; hc_rclk := hc_rclk d; hc_sel := true |}
              eq_refl eq_refl).
Qed.

(** The pin sequence of [writeOutputs(w)], met by a register whose clock
    is low: the register is selected, the word is clocked in and latched. *)
Lemma hc595_write (gated : bool) (cs w : Z) (d : HC595) :
  cs <> SR_MOSI -> cs <> SR_CLK -> cs <> SR_LATCH ->
  0 <= w < 256 ->
  hc_clk d = false ->
  let d' := hc595_run gated cs (write_sequence cs w) d in
  hc_latch d' = w /\ hc_shift d' = w /\ hc_clk d' = false.
Proof.
  intros H1 H2 H3 Hw Hclk. cbv zeta. unfold write_sequence.
  rewrite !hc595_run_app.
  set (d1 := hc595_run gated cs [DigitalWrite cs true; DelayMicroseconds 1]
               d).
  assert (E1 : hc_clk d1 = false /\ hc_sel d1 = true).
  { subst d1. unfold hc595_run. cbn [fold_left hc595_step].
    destruct (Z.eqb_spec cs SR_MOSI); [contradiction |].
    destruct (Z.eqb_spec cs SR_CLK); [contradiction |].
    destruct (Z.eqb_spec cs SR_LATCH); [contradiction |].
    rewrite Z.eqb_refl. split; [exact Hclk | reflexivity]. }
  destruct E1 as [Hclk1 Hsel1].
  destruct (hc595_clock_out_all gated cs w bits_msb_first d1)
    as (Hshift & _ & Hclk2 & Hsel2); [| exact Hclk1 | exact Hsel1 |].
  { unfold bits_msb_first. repeat constructor; lia. }
  rewrite shift_in_word in Hshift by exact Hw.
  set (d2 := hc595_run gated cs (flat_map (clock_out w) bits_msb_first) d1)
    in *.
  unfold hc595_run at 1 2 3. cbn [fold_left hc595_step].
  change (SR_LATCH =? SR_MOSI) with false.
  change (SR_LATCH =? SR_CLK) with false.
  change (SR_LATCH =? SR_LATCH) with true.
  destruct (Z.eqb_spec cs SR_MOSI); [contradiction |].
  destruct (Z.eqb_spec cs SR_CLK); [contradiction |].
  destruct (Z.eqb_spec cs SR_LATCH); [contradiction |].
  rewrite Z.eqb_refl.
  cbn [hc_shift hc_latch hc_ser hc_clk hc_rclk hc_sel andb negb orb].
  rewrite Hsel2, Hshift, Hclk2. auto.
Qed.

(** The read pulses leave the shift clock low, wherever it was. *)
Lemma hc595_read_clock (gated : bool) (cs m : Z) (miso : Z -> bool)
    (d : HC595) :
  hc_clk (hc595_run gated cs (read_sequence m miso) d) = false.
Proof.
  assert (E : read_sequence m miso
              = ([ DigitalWrite SR_LATCH false; DelayMicroseconds 1;
                   DigitalWrite SR_LATCH true; DelayMicroseconds 1 ]
                 ++ flat_map (fun i => clock_in m (miso i))
                      [7; 6; 5; 4; 3; 2; 1]
                 ++ [ DigitalRead m (miso 0); DigitalWrite SR_CLK true;
                      DelayMicroseconds 1 ])
                ++ [ DigitalWrite SR_CLK false; DelayMicroseconds 1 ])
    by reflexivity.
  rewrite E, hc595_run_app. unfold hc595_run at 1.
  cbn [fold_left hc595_step].
  change (SR_CLK =? SR_MOSI) with false.
  change (SR_CLK =? SR_CLK) with true.
  reflexivity.
Qed.

(** *** C2: a read re-asserts the outputs *)

(** C2. For every output word held by the driver, [readInputs()] leaves
    that word unchanged, and what it does on the pins is the read pulse
    train followed by the complete write sequence of that same word, which
    clocks the eight bits of the word out on MOSI. Seen from the output
    register of the compartment, whatever it held and whatever the pins
    did before: after the call the register has been selected, clocked
    and latched with the word, so its outputs show the word the driver
    held before the call; a register that showed that word before the
    call shows the same word after it, and so it does after a read that
    follows [writeOutputs] of any byte. *)
Theorem C2_readInputs_keeps_outputs :
  forall (miso : Z -> bool) (sr : ShiftRegister),
    getOutputState (snd (readInputs miso sr)) = getOutputState sr
    /\ wire (snd (readInputs miso sr))
       = wire sr ++ read_sequence (_misoPin sr) miso
           ++ write_sequence (_csPin sr) (getOutputState sr)
    /\ snd (readInputs miso sr)
       = writeOutputs (getOutputState sr)
           (set_inputState (read_word miso)
              (emit (read_sequence (_misoPin sr) miso) sr))
    /\ (_csPin sr <> SR_MOSI ->
        mosi_levels (write_sequence (_csPin sr) (getOutputState sr))
        = map (bit_set (getOutputState sr)) bits_msb_first)
    /\ (_csPin sr <> SR_MOSI -> _csPin sr <> SR_CLK ->
        _csPin sr <> SR_LATCH ->
        forall (gated : bool) (dev : HC595),
          let before := hc595_run gated (_csPin sr) (wire sr) dev in
          let after :=
            hc595_run gated (_csPin sr) (wire (snd (readInputs miso sr)))
              dev in
          (0 <= getOutputState sr < 256 ->
           hc_latch after = getOutputState sr
           /\ (hc_latch before = getOutputState sr ->
               hc_latch after = hc_latch before))
          /\ (forall d,
                0 <= d < 256 ->
                hc_latch
                  (hc595_run gated (_csPin sr)
                     (wire (snd (readInputs miso (writeOutputs d sr))))
                     dev)
                = d)).
Proof.
  intros miso sr.
  assert (W : forall sr0,
             wire (snd (readInputs miso sr0))
             = wire sr0 ++ read_sequence (_misoPin sr0) miso
                 ++ write_sequence (_csPin sr0) (getOutputState sr0)).
  { intros sr0. unfold readInputs, writeOutputs, emit. cbn.
    rewrite <- app_assoc. reflexivity. }
  assert (L : forall sr0 gated dev,
             _csPin sr0 <> SR_MOSI -> _csPin sr0 <> SR_CLK ->
             _csPin sr0 <> SR_LATCH ->
             0 <= getOutputState sr0 < 256 ->
             hc_latch
               (hc595_run gated (_csPin sr0)
                  (wire (snd (readInputs miso sr0))) dev)
             = getOutputState sr0).
  { intros sr0 gated dev H1 H2 H3 Hw.
    rewrite W, !hc595_run_app.
    apply hc595_write; try assumption. apply hc595_read_clock. }
  split; [reflexivity |]. split; [apply W |]. split; [reflexivity |].
  split; [apply write_sequence_mosi |].
  intros H1 H2 H3 gated dev before after. split.
  - intros Hw.
    assert (Ha : hc_latch after = getOutputState sr)
      by (apply L; assumption).
    split; [exact Ha |]. intros Hb. rewrite Ha, Hb. reflexivity.
  - intros d Hd.
    exact (L (writeOutputs d sr) gated dev H1 H2 H3 Hd).
Qed.

(** The register of compartment 0 after [setup()], the LED switched on
    and the inputs read: from any state of the part, its outputs show the
    word 2. *)
Lemma C2_witness :
  let sr := setOutput OUT_LED true (_sr booted_locker) in
  getOutputState sr = 2
  /\ forall (gated : bool) (dev : HC595),
       hc_latch
         (hc595_run gated (_csPin sr)
            (wire (snd (readInputs door_open_sample sr))) dev)
       = 2.
Proof.
  cbv zeta. split; [reflexivity |]. intros gated dev.
  destruct (C2_readInputs_keeps_outputs door_open_sample
              (setOutput OUT_LED true (_sr booted_locker)))
    as (_ & _ & _ & _ & H).
  assert (P : forall pin, 32 <> pin -> _csPin (setOutput OUT_LED true
                                                  (_sr booted_locker)) <> pin)
    by (intros pin Hp; exact Hp).
  assert (Q : 32 <> SR_MOSI /\ 32 <> SR_CLK /\ 32 <> SR_LATCH)
    by (repeat split; intros E; vm_compute in E; discriminate E).
  destruct Q as (Q1 & Q2 & Q3).
  destruct (H (P _ Q1) (P _ Q2) (P _ Q3) gated dev) as [Hr _].
  destruct Hr as [Ha _]; [vm_compute; split; [discriminate | reflexivity] |].
  exact Ha.
Defined.

(** The word written back is the one last passed to [writeOutputs]. *)
Lemma read_after_write (d : Z) (miso : Z -> bool) (sr : ShiftRegister) :
  getOutputState (snd (readInputs miso (writeOutputs d sr))) = d.
Proof. reflexivity. Qed.

(** *** C3: [unlock()] and Busy *)

Lemma isBusy_states (lc : LockerControl) :
  isBusy lc = true
  <-> _state lc = UNLOCKING \/ _state lc = CLOSING \/ _state lc = SANITIZING.
Proof.
  unfold isBusy. destruct (_state lc); cbn;
    intuition (try discriminate; try reflexivity).
Qed.

Lemma checkSafety_keeps (tm : bool) (lc : LockerControl) :
  _state (snd (checkSafety tm lc)) = _state lc
  /\ _sr (snd (checkSafety tm lc)) = _sr lc
  /\ _opStart (snd (checkSafety tm lc)) = _opStart lc
  /\ _sanitizeEnd (snd (checkSafety tm lc)) = _sanitizeEnd lc.
Proof.
  unfold checkSafety.
  destruct tm, (safetyOk (getSensors lc)), (motorFault (getSensors lc));
    cbn; repeat split.
Qed.

Lemma checkSafety_error (tm : bool) (lc : LockerControl) :
  fst (checkSafety tm lc) = false ->
  getLastError (snd (checkSafety tm lc)) = Some "Safety tripped"%string
  \/ getLastError (snd (checkSafety tm lc)) = Some "Motor fault"%string.
Proof.
  unfold checkSafety.
  destruct tm, (safetyOk (getSensors lc)), (motorFault (getSensors lc));
    cbn; intros H; try discriminate H;
    first [left; reflexivity | right; reflexivity].
Qed.

(** C3. [unlock()] fails with the error "Busy" exactly in the states
    Unlocking, Closing and Sanitizing, and a failing [unlock()], whatever
    made it fail, changes neither the state nor the outputs. This holds
    for either value of [TEST_MODE]. *)
Theorem C3_unlock_busy :
  forall (test_mode : bool) (now : Z) (lc : LockerControl),
    let r := unlock test_mode now lc in
    ((fst r = false /\ getLastError (snd r) = Some "Busy"%string)
     <-> (_state lc = UNLOCKING \/ _state lc = CLOSING
          \/ _state lc = SANITIZING))
    /\ (fst r = false ->
        _state (snd r) = _state lc /\ _sr (snd r) = _sr lc).
Proof.
  intros tm now lc r. subst r. rewrite <- isBusy_states.
  unfold unlock. destruct (isBusy lc) eqn:Hbusy.
  - cbn. split; [split; auto | auto].
  - pose proof (checkSafety_keeps tm lc) as (Hs & Hr & _).
    pose proof (checkSafety_error tm lc) as He.
    destruct (checkSafety tm lc) as [ok lc1]. cbn [fst snd] in *.
    destruct ok; cbn.
    + split; [split; [intros [? _] |]; discriminate | discriminate].
    + split; [| auto].
      split; [| discriminate].
      intros [_ Hb]. destruct (He eq_refl) as [E | E];
        rewrite E in Hb; discriminate.
Qed.

Lemma C3_witness :
  _state booted_locker = IDLE
  /\ fst (unlock TEST_MODE 0 booted_locker) = true
  /\ _state unlocking_locker = UNLOCKING
  /\ fst (unlock TEST_MODE 100 unlocking_locker) = false
  /\ getLastError (snd (unlock TEST_MODE 100 unlocking_locker))
     = Some "Busy"%string
  /\ _state (snd (unlock TEST_MODE 100 unlocking_locker)) = UNLOCKING
  /\ _sr (snd (unlock TEST_MODE 100 unlocking_locker)) = _sr unlocking_locker.
Proof.
  destruct (C3_unlock_busy TEST_MODE 100 unlocking_locker) as [[_ Hb] Hs].
  destruct (Hb (or_introl eq_refl)) as [Hf He].
  destruct (Hs Hf) as [H1 H2].
  repeat split; assumption.
Defined.

(** *** C4: the safety interlock *)

(** C4, as stated, fails on the firmware as built: [TEST_MODE] is [true],
    so with the safety input not asserted [unlock()] pulses the solenoid,
    switches the LED on and enters Unlocking, and [lock()] enters
    Closing. *)
Lemma C4_counterexample :
  TEST_MODE = true
  /\ _state unsafe_locker = LOCKED
  /\ safetyOk (getSensors unsafe_locker) = false
  /\ fst (unlock TEST_MODE 1000 unsafe_locker) = true
  /\ _state (snd (unlock TEST_MODE 1000 unsafe_locker)) = UNLOCKING
  /\ led (getOutputs (snd (unlock TEST_MODE 1000 unsafe_locker))) = true
  /\ In (Delay SOLENOID_PULSE_MS)
        (wire (_sr (snd (unlock TEST_MODE 1000 unsafe_locker))))
  /\ fst (lock TEST_MODE 1000 unsafe_locker) = true
  /\ _state (snd (lock TEST_MODE 1000 unsafe_locker)) = CLOSING.
Proof.
  repeat split; try (vm_compute; reflexivity).
  vm_compute. tauto.
Qed.

(** C4, amended. When the firmware is compiled with [TEST_MODE] false,
    every [unlock()] and [lock()] made while the safety input is not
    asserted or the motor-fault input is asserted returns failure and
    changes neither the state nor the outputs. The check is switched off
    by the compile-time macro [TEST_MODE]; with the value [true] the
    firmware sets, [checkSafety()] accepts every call. *)
Theorem C4_safety_gate :
  forall (now : Z) (lc : LockerControl),
    safetyOk (getSensors lc) = false \/ motorFault (getSensors lc) = true ->
    (fst (unlock false now lc) = false
     /\ _state (snd (unlock false now lc)) = _state lc
     /\ _sr (snd (unlock false now lc)) = _sr lc)
    /\ (fst (lock false now lc) = false
        /\ _state (snd (lock false now lc)) = _state lc
        /\ _sr (snd (lock false now lc)) = _sr lc)
    /\ fst (checkSafety false lc) = false
    /\ checkSafety TEST_MODE lc = (true, lc).
Proof.
  intros now lc Hunsafe.
  assert (Hc : fst (checkSafety false lc) = false).
  { unfold checkSafety.
    destruct (safetyOk (getSensors lc)) eqn:Hsafe,
      (motorFault (getSensors lc)) eqn:Hmotor; try reflexivity.
    destruct Hunsafe; discriminate. }
  pose proof (checkSafety_keeps false lc) as (Hs & Hr & _).
  split; [| split; [| split; [exact Hc | reflexivity]]].
  - unfold unlock. destruct (isBusy lc); [repeat split |].
    destruct (checkSafety false lc) as [ok lc1]. cbn [fst snd] in *.
    subst ok. cbn. auto.
  - unfold lock. destruct (irBeamClear (getSensors lc)); [| repeat split].
    cbn [negb]. destruct (checkSafety false lc) as [ok lc1].
    cbn [fst snd] in *. subst ok. cbn. auto.
Qed.

Lemma C4_witness :
  (fst (unlock false 1000 unsafe_locker) = false
   /\ _state (snd (unlock false 1000 unsafe_locker)) = _state unsafe_locker
   /\ _sr (snd (unlock false 1000 unsafe_locker)) = _sr unsafe_locker)
  /\ (fst (lock false 1000 unsafe_locker) = false
      /\ _state (snd (lock false 1000 unsafe_locker)) = _state unsafe_locker
      /\ _sr (snd (lock false 1000 unsafe_locker)) = _sr unsafe_locker)
  /\ fst (checkSafety false unsafe_locker) = false
  /\ checkSafety TEST_MODE unsafe_locker = (true, unsafe_locker).
Proof.
  apply (C4_safety_gate 1000 unsafe_locker).
  left. vm_compute. reflexivity.
Defined.

(** *** Output bits after [setOutput] *)

Lemma setOutput_bit (b b' : Z) (on : bool) (sr : ShiftRegister) :
  0 <= b <= 7 -> 0 <= b' < 8 ->
  bit_set (getOutputState (setOutput b on sr)) b'
  = if b =? b' then on else bit_set (getOutputState sr) b'.
Proof.
  intros Hb Hb'. unfold setOutput.
  destruct (Z.ltb_spec 7 b) as [Hlt | _]; [lia |].
  destruct on; cbn -[u8 Z.shiftl Z.lor Z.land Z.lnot bit_set].
  - rewrite bit_set_after_set by lia.
    destruct (b =? b'); [apply orb_true_r | apply orb_false_r].
  - rewrite bit_set_after_clear by lia.
    destruct (b =? b'); [apply andb_false_r | apply andb_true_r].
Qed.

Lemma setOutput_input (b : Z) (on : bool) (sr : ShiftRegister) :
  getInputState (setOutput b on sr) = getInputState sr.
Proof. unfold setOutput. destruct (7 <? b); reflexivity. Qed.

(** *** C5: obstruction while closing *)

Lemma update_unlocking_door_open (now : Z) (miso : Z -> bool)
    (lc : LockerControl) :
  _state lc = UNLOCKING ->
  miso IN_HALL_OPEN = false ->
  miso IN_TMC_DIAG = false ->
  _state (update now miso lc) = OPEN.
Proof.
  intros Hst Hopen Hdiag. open_update.
  rewrite Hopen, Hdiag, Hst. reflexivity.
Qed.

(** C5. The rules of the states stand under the motor-fault test, which
    [update()] makes first (C1); so they are stated for samples without a
    motor fault. In Closing, an [update()] that samples the IR beam
    blocked sets the direction output, restarts the operation timer at
    the current time, records "Obstruction" and enters Unlocking, not
    Fault; the LED output (and every output other than the direction bit)
    keeps its value, so an LED that was on remains on. A following
    [update()] that samples the door-open input asserted enters Open. *)
Theorem C5_obstruction_reopens :
  forall (now : Z) (miso : Z -> bool) (lc : LockerControl),
    _state lc = CLOSING ->
    miso IN_IR_BEAM = false ->
    miso IN_TMC_DIAG = false ->
    let lc1 := update now miso lc in
    _state lc1 = UNLOCKING
    /\ bit_set (getOutputState (_sr lc1)) OUT_DIR = true
    /\ _opStart lc1 = now
    /\ getLastError lc1 = Some "Obstruction"%string
    /\ led (getOutputs lc1) = led (getOutputs lc)
    /\ (forall b, 0 < b < 8 ->
          bit_set (getOutputState (_sr lc1)) b
          = bit_set (getOutputState (_sr lc)) b)
    /\ (forall (now2 : Z) (miso2 : Z -> bool),
          miso2 IN_HALL_OPEN = false ->
          miso2 IN_TMC_DIAG = false ->
          _state (update now2 miso2 lc1) = OPEN).
Proof.
  intros now miso lc Hst Hir Hdiag lc1.
  assert (E : lc1 = with_opStart now
                      (with_state UNLOCKING
                         (sr_setOutput OUT_DIR true
                            (with_lastError "Obstruction"
                               (with_sr (refresh miso (_sr lc)) lc))))).
  { subst lc1. open_update. rewrite Hir, Hdiag, Hst. reflexivity. }
  assert (Hbits : forall b, 0 <= b < 8 ->
            bit_set (getOutputState (_sr lc1)) b
            = if OUT_DIR =? b then true
              else bit_set (getOutputState (_sr lc)) b).
  { intros b Hb. rewrite E.
    cbn [_sr with_opStart with_state sr_setOutput with_sr with_lastError].
    rewrite setOutput_bit by (unfold OUT_DIR; lia). reflexivity. }
  split; [rewrite E; reflexivity |].
  split; [rewrite Hbits by (unfold OUT_DIR; lia); reflexivity |].
  split; [rewrite E; reflexivity |].
  split; [rewrite E; reflexivity |].
  split; [unfold getOutputs; cbn [led];
          rewrite Hbits by (unfold OUT_LED; lia); reflexivity |].
  split.
  - intros b Hb. rewrite Hbits by lia.
    destruct (Z.eqb_spec OUT_DIR b) as [Eb | _]; [| reflexivity].
    unfold OUT_DIR in Eb. lia.
  - intros now2 miso2 Hopen Hdiag2.
    apply update_unlocking_door_open; [rewrite E; reflexivity | assumption ..].
Qed.

Lemma C5_witness :
  let lc1 := update 3000 blocked_sample closing_locker in
  _state lc1 = UNLOCKING
  /\ bit_set (getOutputState (_sr lc1)) OUT_DIR = true
  /\ _opStart lc1 = 3000
  /\ getLastError lc1 = Some "Obstruction"%string
  /\ led (getOutputs lc1) = led (getOutputs closing_locker)
  /\ (forall b, 0 < b < 8 ->
        bit_set (getOutputState (_sr lc1)) b
        = bit_set (getOutputState (_sr closing_locker)) b)
  /\ (forall (now2 : Z) (miso2 : Z -> bool),
        miso2 IN_HALL_OPEN = false ->
        miso2 IN_TMC_DIAG = false ->
        _state (update now2 miso2 lc1) = OPEN).
Proof.
  apply (C5_obstruction_reopens 3000 blocked_sample closing_locker);
    vm_compute; reflexivity.
Defined.

(** The scenario of the specification on the concrete compartment:
    obstruction at 3000 ms, door open sensed at 4000 ms. *)
Example obstruction_scenario :
  led (getOutputs (update 3000 blocked_sample closing_locker)) = true
  /\ _state (update 4000 door_open_sample
               (update 3000 blocked_sample closing_locker)) = OPEN.
Proof. split; vm_compute; reflexivity. Qed.

(** *** C6: sanitizing *)

Lemma update_sanitizing_waits (now : Z) (miso : Z -> bool)
    (lc : LockerControl) :
  _state lc = SANITIZING ->
  now < _sanitizeEnd lc ->
  miso IN_TMC_DIAG = false ->
  update now miso lc = with_sr (refresh miso (_sr lc)) lc.
Proof.
  intros Hst Hend Hdiag. open_update. rewrite Hdiag, Hst.
  cbn [andb _sanitizeEnd with_sr].
  destruct (Z.leb_spec (_sanitizeEnd lc) now) as [Hle | _]; [lia |].
  reflexivity.
Qed.

Lemma update_sanitizing_done (now : Z) (miso : Z -> bool)
    (lc : LockerControl) :
  _state lc = SANITIZING ->
  _sanitizeEnd lc <= now ->
  miso IN_TMC_DIAG = false ->
  _state (update now miso lc) = LOCKED
  /\ uvc (getOutputs (update now miso lc)) = false.
Proof.
  intros Hst Hend Hdiag.
  assert (E : update now miso lc
              = with_state LOCKED
                  (sr_setOutput OUT_UVC false
                     (with_sr (refresh miso (_sr lc)) lc))).
  { open_update. rewrite Hdiag, Hst. cbn [andb _sanitizeEnd with_sr].
    destruct (Z.leb_spec (_sanitizeEnd lc) now) as [_ | Hlt]; [| lia].
    reflexivity. }
  rewrite E. split; [reflexivity |].
  unfold getOutputs. cbn [uvc _sr with_state sr_setOutput with_sr].
  rewrite setOutput_bit by (unfold OUT_UVC; lia). reflexivity.
Qed.

(** The cycles of [loop()] before the recorded end time: the compartment
    stays in Sanitizing with its outputs, the UV output among them, and
    its end time as they are. *)
Lemma sanitizing_holds (cycles : list (Z * (Z -> bool)))
    (lc : LockerControl) :
  _state lc = SANITIZING ->
  Forall (fun c => fst c < _sanitizeEnd lc /\ snd c IN_TMC_DIAG = false)
    cycles ->
  let lc' := FirmwareLoop.run_updates cycles lc in
  _state lc' = SANITIZING
  /\ getOutputState (_sr lc') = getOutputState (_sr lc)
  /\ _sanitizeEnd lc' = _sanitizeEnd lc.
Proof.
  unfold FirmwareLoop.run_updates. revert lc.
  induction cycles as [| [now miso] rest IH]; intros lc Hst Hall.
  - cbn. auto.
  - inversion Hall as [| c cs [Hnow Hdiag] Hrest]; subst.
    cbn [fst snd] in Hnow, Hdiag. cbn [fold_left fst snd].
    rewrite (update_sanitizing_waits now miso lc Hst Hnow Hdiag).
    exact (IH (with_sr (refresh miso (_sr lc)) lc) Hst Hrest).
Qed.

(** Within the range of the millisecond counter the sanitize cycle is as
    the specification has it. [startSanitize(ms)] succeeds exactly when
    the door-closed input is asserted and the state is not busy; a
    failing call leaves the state, the outputs and the recorded end time
    as they were. A successful call switches the UV output on, records
    the end time [now + ms], when that sum fits the 32-bit counter, and
    enters Sanitizing. Through every run of cycles of [loop()] that read
    the clock before the recorded end time the compartment stays in
    Sanitizing with the UV output on, and the first [update()] at or
    after the recorded end time switches the UV output off and enters
    Locked (the samples being without motor fault, which has priority
    over the rules of the states). *)
Lemma sanitize_cycle :
  forall (now ms : Z) (lc : LockerControl),
    let r := startSanitize now ms lc in
    (fst r = true
     <-> doorClosed (getSensors lc) = true /\ isBusy lc = false)
    /\ (fst r = false ->
        _state (snd r) = _state lc
        /\ _sr (snd r) = _sr lc
        /\ _sanitizeEnd (snd r) = _sanitizeEnd lc)
    /\ (fst r = true ->
        uvc (getOutputs (snd r)) = true
        /\ (0 <= now + ms < 4294967296 -> _sanitizeEnd (snd r) = now + ms)
        /\ _state (snd r) = SANITIZING
        /\ (forall (cycles : list (Z * (Z -> bool))) (now' : Z)
                   (miso : Z -> bool),
              Forall (fun c => fst c < _sanitizeEnd (snd r)
                               /\ snd c IN_TMC_DIAG = false) cycles ->
              _sanitizeEnd (snd r) <= now' ->
              miso IN_TMC_DIAG = false ->
              let lc1 := FirmwareLoop.run_updates cycles (snd r) in
              _state lc1 = SANITIZING
              /\ uvc (getOutputs lc1) = true
              /\ _state (update now' miso lc1) = LOCKED
              /\ uvc (getOutputs (update now' miso lc1)) = false)).
Proof.
  intros now ms lc r. subst r. unfold startSanitize. cbv zeta.
  destruct (doorClosed (getSensors lc)) eqn:Hdoor; cbn [negb].
  2: { cbn. split; [split; [discriminate | intros [? _]; discriminate] |].
       split; [auto | discriminate]. }
  destruct (isBusy lc) eqn:Hbusy.
  { cbn. split; [split; [discriminate | intros [_ ?]; discriminate] |].
    split; [auto | discriminate]. }
  cbn [fst snd]. split; [split; auto |]. split; [discriminate |].
  intros _.
  assert (Huv : uvc (getOutputs
                       (with_state SANITIZING
                          (with_sanitizeEnd (u32 (now + ms))
                             (sr_setOutput OUT_UVC true lc)))) = true).
  { unfold getOutputs.
    cbn [uvc _sr with_state with_sanitizeEnd sr_setOutput with_sr].
    rewrite setOutput_bit by (unfold OUT_UVC; lia). reflexivity. }
  split; [exact Huv |].
  split.
  { intros Hfit. cbn [_sanitizeEnd with_state with_sanitizeEnd].
    unfold u32. apply Z.mod_small. exact Hfit. }
  split; [reflexivity |].
  intros cycles now' miso Hall Hend Hdiag.
  destruct (sanitizing_holds cycles
              (with_state SANITIZING
                 (with_sanitizeEnd (u32 (now + ms))
                    (sr_setOutput OUT_UVC true lc))) eq_refl Hall)
    as (Hst & Hout & Hse).
  split; [exact Hst |]. split.
  { unfold getOutputs in *. cbn [uvc] in *. rewrite Hout. exact Huv. }
  apply update_sanitizing_done; [exact Hst | | exact Hdiag].
  rewrite Hse. exact Hend.
Qed.

(** The scenario of the specification: [startSanitize(5000)] at 0 ms on
    the locked compartment, cycles at 1000 ms and 4999 ms, the end at
    5000 ms. *)
Example sanitize_scenario :
  let lc1 := FirmwareLoop.run_updates
               [(1000, closed_sample); (4999, closed_sample)]
               sanitizing_locker in
  fst (startSanitize 0 5000 locked_locker) = true
  /\ fst (startSanitize 0 5000 unlocking_locker) = false
  /\ _sanitizeEnd sanitizing_locker = 5000
  /\ _state lc1 = SANITIZING /\ uvc (getOutputs lc1) = true
  /\ _state (update 5000 closed_sample lc1) = LOCKED
  /\ uvc (getOutputs (update 5000 closed_sample lc1)) = false.
Proof.
  cbv zeta.
  destruct (sanitize_cycle 0 5000 locked_locker) as (Hiff & _ & Hok).
  assert (Hs : fst (startSanitize 0 5000 locked_locker) = true).
  { apply Hiff. split; vm_compute; reflexivity. }
  destruct (Hok Hs) as (_ & Hend & _ & Hrun).
  destruct (Hrun [(1000, closed_sample); (4999, closed_sample)] 5000
              closed_sample) as (H1 & H2 & H3 & H4).
  { repeat constructor. }
  { vm_compute. discriminate. }
  { reflexivity. }
  split; [exact Hs |]. split; [reflexivity |].
  split; [apply Hend; vm_compute; split; [discriminate | reflexivity] |].
  repeat split; assumption.
Qed.

(** C6. The end time is recorded as [millis() + ms] in 32 bits and tested
    with [millis() >= _sanitizeEnd], where the motion timers test
    [millis() - _opStart > MOTOR_TIMEOUT_MS]. [startSanitize(5000)] on
    the locked compartment 296 ms before the counter rolls over succeeds
    and switches the UV output on, but records the end time 4704, not
    [now + 5000]; the [update()] of the next millisecond finds the end
    time reached, switches the UV output off and enters Locked. The
    motion timer started at the same instant is right: the compartment
    is still Unlocking 5000 ms later, across the roll-over, and times out
    after 10000 ms. *)
Theorem C6_sanitize_end_wraps :
  let now := 4294967000 in
  let r := startSanitize now 5000 locked_locker in
  let lc1 := snd r in
  let lc2 := update (now + 1) closed_sample lc1 in
  let opening := snd (unlock TEST_MODE now booted_locker) in
  (_state locked_locker = LOCKED
   /\ doorClosed (getSensors locked_locker) = true
   /\ fst r = true
   /\ _state lc1 = SANITIZING
   /\ uvc (getOutputs lc1) = true)
  /\ (now + 5000 = 4294972000 /\ _sanitizeEnd lc1 = 4704)
  /\ (_state lc2 = LOCKED /\ uvc (getOutputs lc2) = false)
  /\ (_state opening = UNLOCKING
      /\ _state (update (u32 (now + 5000)) idle_sample opening) = UNLOCKING
      /\ _state (update (u32 (now + 10001)) idle_sample opening) = FAULT).
Proof. cbv zeta. repeat split; vm_compute; reflexivity. Qed.

End FirmwareSpec.

(** ** Part IV: properties of the coordinator *)

Module CoordinatorSpec.

Import Coordinator.
Local Open Scope Z_scope.

(** *** What a relay can change *)

Lemma same_data_refl (w : World) : same_data w w.
Proof. repeat split. Qed.

Lemma same_data_trans (w1 w2 w3 : World) :
  same_data w1 w2 -> same_data w2 w3 -> same_data w1 w3.
Proof.
  unfold same_data. intros (-> & -> & -> & -> & ->) (-> & -> & -> & -> & ->).
  repeat split.
Qed.

Lemma fetch_same_data (rq : Request) (w : World) :
  same_data w (snd (fetch rq w)).
Proof.
  unfold fetch. destruct (inbox w) as [| r rest]; [repeat split |].
  destruct (took r <? 5000); repeat split.
Qed.

Lemma sendToColumn_spec (column_id endpoint : string) (b : Body) (w : World) :
  same_data w (snd (sendToColumn column_id endpoint b w))
  /\ (error (fst (sendToColumn column_id endpoint b w)) = None
      \/ exists e, error (fst (sendToColumn column_id endpoint b w)) = Some e
                   /\ In e relay_errors).
Proof.
  unfold sendToColumn.
  destruct (columnRegistry w !! column_id) as [column |].
  2: { split; [apply same_data_refl |]. right. eexists.
       split; [reflexivity | cbn; tauto]. }
  destruct (isColumnOnline column_id w); cbn [negb].
  2: { split; [apply same_data_refl |]. right. eexists.
       split; [reflexivity | cbn; tauto]. }
  match goal with |- context [fetch ?rq w] =>
    pose proof (fetch_same_data rq w) as Hf; destruct (fetch rq w) as [d w1]
  end.
  cbn [snd] in Hf. destruct d as [ok |]; cbn [fst snd].
  - split; [exact Hf | left; reflexivity].
  - split; [exact Hf |]. right. eexists. split; [reflexivity | cbn; tauto].
Qed.

Lemma relay_spec (cid action : string) (b : Body) (w : World) :
  same_data w (snd (relay_to_compartment cid action b w))
  /\ (error (fst (relay_to_compartment cid action b w)) = None
      \/ exists e, error (fst (relay_to_compartment cid action b w)) = Some e
                   /\ In e relay_errors).
Proof.
  unfold relay_to_compartment.
  destruct (parseInt10 (split_dash cid !! 1%nat)) as [idx |].
  - apply sendToColumn_spec.
  - split; [apply same_data_refl |]. right. eexists.
    split; [reflexivity | cbn; tauto].
Qed.

(** *** C7: stale columns *)

(** C7. A registered column last seen more than 60 seconds ago is reported
    offline by [isColumnOnline]; [sendToColumn] answers "Column offline"
    and leaves the world as it was, so no request is sent; and the sweep
    [checkColumnHealth] flags the entry offline while keeping it, with its
    address, its last-seen time and its cached sensor list, and without
    touching the compartment table. *)
Theorem C7_stale_column_offline :
  forall (w : World) (column_id : string) (column : LockerColumn)
         (endpoint : string) (b : Body),
    columnRegistry w !! column_id = Some column ->
    60000 < clock w - lastSeen column ->
    isColumnOnline column_id w = false
    /\ sendToColumn column_id endpoint b w = (relay_error "Column offline", w)
    /\ sent (snd (sendToColumn column_id endpoint b w)) = sent w
    /\ (let w' := checkColumnHealth w in
        columnRegistry w' !! column_id
        = Some {| col_id := col_id column; ip := ip column;
                  port := port column; lockerCount := lockerCount column;
                  firmwareVersion := firmwareVersion column;
                  lastSeen := lastSeen column; isOnline := false;
                  sensors := sensors column |}
        /\ dom (columnRegistry w') = dom (columnRegistry w)
        /\ (forall id, is_Some (tbl_LockerColumn w !! id) ->
                       is_Some (tbl_LockerColumn w' !! id))
        /\ tbl_Compartment w' = tbl_Compartment w
        /\ isColumnOnline column_id w' = false).
Proof.
  intros w column_id column endpoint b Hreg Hstale.
  assert (Hoff : isColumnOnline column_id w = false).
  { unfold isColumnOnline. rewrite Hreg. apply Z.ltb_ge. lia. }
  assert (Hsend : sendToColumn column_id endpoint b w
                  = (relay_error "Column offline", w)).
  { unfold sendToColumn. rewrite Hreg, Hoff. reflexivity. }
  split; [exact Hoff |]. split; [exact Hsend |].
  split; [rewrite Hsend; reflexivity |].
  cbv zeta.
  assert (Hnew : columnRegistry (checkColumnHealth w) !! column_id
                 = Some (mark_offline (clock w) column)).
  { unfold checkColumnHealth. cbn. rewrite lookup_fmap, Hreg. reflexivity. }
  split.
  { rewrite Hnew. f_equal. unfold mark_offline, stale.
    destruct (Z.ltb_spec 60000 (clock w - lastSeen column)) as [_ | ?];
      [| lia].
    cbn [andb]. destruct column as [i a p n f l o s]. cbn.
    destruct o; reflexivity. }
  split.
  { unfold checkColumnHealth. cbn. apply dom_fmap_L. }
  split.
  { intros id [r Hr]. unfold checkColumnHealth. cbn.
    rewrite map_lookup_imap, Hr. cbn.
    destruct (columnRegistry w !! id) as [c |]; [| eauto].
    destruct (stale (clock w) c); eauto. }
  split; [reflexivity |].
  unfold isColumnOnline. rewrite Hnew.
  replace (clock (checkColumnHealth w)) with (clock w) by reflexivity.
  replace (lastSeen (mark_offline (clock w) column)) with (lastSeen column)
    by (unfold mark_offline; destruct (stale (clock w) column); reflexivity).
  apply Z.ltb_ge. lia.
Qed.

Lemma C7_witness :
  let w := at_time 60001 announced_world in
  isColumnOnline "C1" w = false
  /\ sendToColumn "C1" "/api/locker/0/unlock" (BodyRequestId "r1") w
     = (relay_error "Column offline", w)
  /\ sent (snd (sendToColumn "C1" "/api/locker/0/unlock"
                  (BodyRequestId "r1") w)) = sent w
  /\ (let w' := checkColumnHealth w in
      columnRegistry w' !! "C1"
      = Some {| col_id := col_id column_C1; ip := ip column_C1;
                port := port column_C1; lockerCount := lockerCount column_C1;
                firmwareVersion := firmwareVersion column_C1;
                lastSeen := lastSeen column_C1; isOnline := false;
                sensors := sensors column_C1 |}
      /\ dom (columnRegistry w') = dom (columnRegistry w)
      /\ (forall id, is_Some (tbl_LockerColumn w !! id) ->
                     is_Some (tbl_LockerColumn w' !! id))
      /\ tbl_Compartment w' = tbl_Compartment w
      /\ isColumnOnline "C1" w' = false).
Proof.
  apply (C7_stale_column_offline (at_time 60001 announced_world) "C1"
           column_C1 "/api/locker/0/unlock" (BodyRequestId "r1")).
  - vm_compute. reflexivity.
  - vm_compute. reflexivity.
Defined.

(** *** What an event changes *)

Lemma event_frame (nano : string) (data : EventData) (w : World) :
  let cid := ed_columnId data +:+ "-" +:+ pretty (ed_lockerIndex data) in
  let w' := handleLockerEvent nano data w in
  tbl_LockerEvent w'
  = tbl_LockerEvent w
    ++ [ {| ev_id := nano; ev_compartmentId := cid;
            ev_event := ed_event data; ev_data := ed_data data;
            ev_timestamp := eventTimestamp (ed_timestamp data) |} ]
  /\ sent w' = sent w /\ inbox w' = inbox w
  /\ columnRegistry w' = columnRegistry w
  /\ tbl_LockerColumn w' = tbl_LockerColumn w
  /\ clock w' = clock w.
Proof.
  cbv zeta. unfold handleLockerEvent. cbv zeta.
  destruct (String.eqb (ed_event data) "DOOR_OPENED"); [repeat split |].
  destruct (String.eqb (ed_event data) "DOOR_CLOSED"); [repeat split |].
  destruct (String.eqb (ed_event data) "ITEM_REMOVED").
  { cbn [tbl_Compartment with_events].
    destruct (tbl_Compartment w
                !! (ed_columnId data +:+ "-" +:+ pretty (ed_lockerIndex data))
                ≫= currentOrderId) as [[| a r] |]; repeat split. }
  destruct (String.eqb (ed_event data) "MOTOR_FAULT"
            || String.eqb (ed_event data) "SAFETY_TRIPPED"); [repeat split |].
  destruct (String.eqb (ed_event data) "MOTOR_FAULT_CLEARED"
            || String.eqb (ed_event data) "SAFETY_CLEARED"); repeat split.
Qed.

(** The compartment table after an event: the row of the compartment goes
    through one of the updates of the handler, or the table is as it was. *)
Lemma event_compartments (nano : string) (data : EventData) (w : World) :
  let cid := ed_columnId data +:+ "-" +:+ pretty (ed_lockerIndex data) in
  let w' := handleLockerEvent nano data w in
  let ev := ed_event data in
  let bound := tbl_Compartment w !! cid ≫= currentOrderId in
  tbl_Compartment w'
  = if String.eqb ev "DOOR_OPENED" then
      alter (set_status "open" (clock w)) cid (tbl_Compartment w)
    else if String.eqb ev "DOOR_CLOSED" then
      alter (set_status (if truthy bound then "occupied" else "available")
               (clock w)) cid (tbl_Compartment w)
    else if String.eqb ev "ITEM_REMOVED" then
      if truthy bound
      then alter (set_status_order "available" None (clock w)) cid
             (tbl_Compartment w)
      else tbl_Compartment w
    else if String.eqb ev "MOTOR_FAULT" || String.eqb ev "SAFETY_TRIPPED" then
      alter (set_status "fault" (clock w)) cid (tbl_Compartment w)
    else if String.eqb ev "MOTOR_FAULT_CLEARED"
            || String.eqb ev "SAFETY_CLEARED" then
      alter (set_status "available" (clock w)) cid (tbl_Compartment w)
    else tbl_Compartment w.
Proof.
  cbv zeta. unfold handleLockerEvent. cbv zeta.
  destruct (String.eqb (ed_event data) "DOOR_OPENED"); [reflexivity |].
  destruct (String.eqb (ed_event data) "DOOR_CLOSED"); [reflexivity |].
  destruct (String.eqb (ed_event data) "ITEM_REMOVED").
  { cbn [tbl_Compartment with_events].
    destruct (tbl_Compartment w
                !! (ed_columnId data +:+ "-" +:+ pretty (ed_lockerIndex data))
                ≫= currentOrderId) as [[| a r] |]; reflexivity. }
  destruct (String.eqb (ed_event data) "MOTOR_FAULT"
            || String.eqb (ed_event data) "SAFETY_TRIPPED"); [reflexivity |].
  destruct (String.eqb (ed_event data) "MOTOR_FAULT_CLEARED"
            || String.eqb (ed_event data) "SAFETY_CLEARED"); reflexivity.
Qed.

(** The order table after an event: only ITEM_REMOVED on a bound
    compartment writes it. *)
Lemma event_orders (nano : string) (data : EventData) (w : World) :
  let cid := ed_columnId data +:+ "-" +:+ pretty (ed_lockerIndex data) in
  let w' := handleLockerEvent nano data w in
  let bound := tbl_Compartment w !! cid ≫= currentOrderId in
  tbl_Order w'
  = if String.eqb (ed_event data) "ITEM_REMOVED" && truthy bound
    then alter (set_pickedUpAt (clock w)) (default EmptyString bound)
           (tbl_Order w)
    else tbl_Order w.
Proof.
  cbv zeta. unfold handleLockerEvent. cbv zeta.
  destruct (String.eqb_spec (ed_event data) "DOOR_OPENED") as [E |];
    [rewrite E; reflexivity |].
  destruct (String.eqb_spec (ed_event data) "DOOR_CLOSED") as [E |];
    [rewrite E; reflexivity |].
  destruct (String.eqb (ed_event data) "ITEM_REMOVED").
  { cbn [tbl_Compartment with_events andb].
    destruct (tbl_Compartment w
                !! (ed_columnId data +:+ "-" +:+ pretty (ed_lockerIndex data))
                ≫= currentOrderId) as [[| a r] |]; reflexivity. }
  cbn [andb].
  destruct (String.eqb (ed_event data) "MOTOR_FAULT"
            || String.eqb (ed_event data) "SAFETY_TRIPPED"); [reflexivity |].
  destruct (String.eqb (ed_event data) "MOTOR_FAULT_CLEARED"
            || String.eqb (ed_event data) "SAFETY_CLEARED"); reflexivity.
Qed.

(** The lookup of a pickup code only finds orders whose compartment is
    'occupied'. *)
Lemma no_pickup_unless_occupied (w : World) (code oid cid : string)
    (o : Order) (c : Compartment) :
  find_order_by_code w code = Some (oid, o) ->
  tbl_Compartment w !! cid = Some c ->
  status c <> "occupied"%string ->
  compartmentId o <> Some cid.
Proof.
  intros Hfind Hc Hst Hbound. unfold find_order_by_code in Hfind.
  apply find_some in Hfind. destruct Hfind as [_ Hm].
  unfold code_matches in Hm. cbn [snd] in Hm. rewrite Hbound in Hm.
  destruct (pickupCode o); [| discriminate].
  destruct (pickedUpAt o); [discriminate |].
  rewrite Hc in Hm. apply andb_true_iff in Hm. destruct Hm as [_ Hm].
  apply String.eqb_eq in Hm. contradiction.
Qed.

(** *** C8: pickup codes *)

Lemma upper_char_idem (c : ascii) : upper_char (upper_char c) = upper_char c.
Proof. destruct c as [[] [] [] [] [] [] [] []]; reflexivity. Qed.

Lemma is_space_upper (c : ascii) : is_space (upper_char c) = is_space c.
Proof. destruct c as [[] [] [] [] [] [] [] []]; reflexivity. Qed.

Lemma is_lower_upper (c : ascii) : is_lower (upper_char c) = false.
Proof. destruct c as [[] [] [] [] [] [] [] []]; reflexivity. Qed.

Lemma toUpperCase_idem (s : string) : toUpperCase (toUpperCase s) = toUpperCase s.
Proof.
  induction s as [| c r IH]; [reflexivity |].
  cbn. rewrite upper_char_idem, IH. reflexivity.
Qed.

Lemma strip_upper_commute (s : string) :
  strip_whitespace (toUpperCase s) = toUpperCase (strip_whitespace s).
Proof.
  induction s as [| c r IH]; [reflexivity |].
  cbn. rewrite is_space_upper. destruct (is_space c); cbn; rewrite IH;
    reflexivity.
Qed.

Lemma strip_idem (s : string) :
  strip_whitespace (strip_whitespace s) = strip_whitespace s.
Proof.
  induction s as [| c r IH]; [reflexivity |].
  cbn. destruct (is_space c) eqn:E; [exact IH |].
  cbn. rewrite E, IH. reflexivity.
Qed.

(** Normalizing is idempotent and blind to case and to white space. *)
Lemma normalize_code_idem (s : string) :
  normalize_code (normalize_code s) = normalize_code s.
Proof.
  unfold normalize_code.
  rewrite <- (strip_upper_commute (toUpperCase s)), toUpperCase_idem.
  apply strip_idem.
Qed.

Lemma normalize_code_upper (s : string) :
  normalize_code (toUpperCase s) = normalize_code s.
Proof. unfold normalize_code. rewrite toUpperCase_idem. reflexivity. Qed.

Lemma normalize_code_strip (s : string) :
  normalize_code (strip_whitespace s) = normalize_code s.
Proof.
  unfold normalize_code. rewrite <- strip_upper_commute, strip_idem.
  reflexivity.
Qed.

Example normalize_example : normalize_code "abc 123" = "ABC123"%string.
Proof. reflexivity. Qed.

Lemma find_none_intro {A : Type} (f : A -> bool) (l : list A) :
  (forall x, In x l -> f x = false) -> find f l = None.
Proof.
  induction l as [| a l IH]; intros H; [reflexivity |].
  cbn. rewrite (H a (or_introl eq_refl)). apply IH.
  intros x Hx. apply H. right. exact Hx.
Qed.

Lemma find_pointwise {A : Type} (f g : A -> bool) (l : list A) :
  (forall x, f x = g x) -> find f l = find g l.
Proof.
  intros H. induction l as [| a l IH]; [reflexivity |].
  cbn. rewrite H, IH. reflexivity.
Qed.

(** The lookup reads the two tables only. *)
Lemma find_order_by_code_same (w w' : World) (code : string) :
  same_data w w' -> find_order_by_code w' code = find_order_by_code w code.
Proof.
  intros (_ & _ & Hc & Ho & _). unfold find_order_by_code. rewrite Ho.
  apply find_pointwise. intros row. unfold code_matches. rewrite Hc. reflexivity.
Qed.

Lemma validateAndUnlock_same_data (nano code : string) (w : World) :
  same_data w (snd (validateAndUnlock nano code w)).
Proof.
  unfold validateAndUnlock.
  destruct (find_order_by_code w code) as [[oid order] |];
    [| apply same_data_refl].
  unfold updateLockerDisplay, unlockLocker.
  match goal with |- context [relay_to_compartment ?c ?a ?b w] =>
    pose proof (relay_spec c a b w) as [H1 _];
    destruct (relay_to_compartment c a b w) as [r1 w1]
  end.
  cbn [snd] in H1.
  match goal with |- context [relay_to_compartment ?c ?a ?b w1] =>
    pose proof (relay_spec c a b w1) as [H2 _];
    destruct (relay_to_compartment c a b w1) as [r2 w2]
  end.
  cbn [snd] in H2.
  pose proof (same_data_trans _ _ _ H1 H2) as H.
  destruct (success r2); exact H.
Qed.

(** Once the lookup finds an order, the call ends in success or in a relay
    error, never in "Invalid or expired pickup code". *)
Lemma validateAndUnlock_found (nano code : string) (w : World)
    (oid : string) (order : Order) :
  find_order_by_code w code = Some (oid, order) ->
  fst (validateAndUnlock nano code w)
  <> PickupErr "Invalid or expired pickup code".
Proof.
  intros Hfind. unfold validateAndUnlock. rewrite Hfind.
  unfold updateLockerDisplay, unlockLocker.
  match goal with |- context [relay_to_compartment ?c ?a ?b w] =>
    destruct (relay_to_compartment c a b w) as [r1 w1]
  end.
  match goal with |- context [relay_to_compartment ?c ?a ?b w1] =>
    pose proof (relay_spec c a b w1) as [_ He];
    destruct (relay_to_compartment c a b w1) as [r2 w2]
  end.
  cbn [fst] in He.
  destruct (success r2); cbn [negb fst]; [discriminate |].
  destruct He as [-> | (e & -> & Hin)]; [cbn; discriminate |].
  cbn in Hin.
  destruct Hin as [<- | [<- | [<- | [<- | []]]]]; cbn; discriminate.
Qed.

(** *** The normal form of a submitted code *)

(** [js_is_space] below 128 is the ASCII white space. *)
Lemma js_is_space_low (u : Z) :
  0 <= u < 128 ->
  js_is_space u = ((9 <=? u) && (u <=? 13)) || (u =? 32).
Proof.
  intros Hu. unfold js_is_space.
  destruct (Z.eqb_spec u 160); [lia |].
  destruct (Z.eqb_spec u 5760); [lia |].
  destruct (Z.leb_spec 8192 u); [lia |].
  destruct (Z.eqb_spec u 8232); [lia |].
  destruct (Z.eqb_spec u 8233); [lia |].
  destruct (Z.eqb_spec u 8239); [lia |].
  destruct (Z.eqb_spec u 8287); [lia |].
  destruct (Z.eqb_spec u 12288); [lia |].
  destruct (Z.eqb_spec u 65279); [lia |].
  cbn [andb]. rewrite !orb_false_r. reflexivity.
Qed.

(** An upper-cased code unit is no lower-case letter, and it is white
    space exactly when the unit was. *)
Lemma js_upper_unit_spec (u u' : Z) :
  js_upper_unit u = Some u' ->
  js_is_space u' = js_is_space u
  /\ ~ 97 <= u' <= 122
  /\ (0 <= u' < 128 <-> 0 <= u < 128).
Proof.
  unfold js_upper_unit. intros H.
  assert (C : (u' = u - 32 /\ 97 <= u <= 122)
              \/ (u' = u /\ ~ 97 <= u <= 122)).
  { destruct (Z.leb_spec 97 u) as [H1 | H1];
      destruct (Z.leb_spec u 122) as [H2 | H2]; cbn [andb] in H.
    - left. injection H as <-. lia.
    - right. split; [| lia].
      destruct ((0 <=? u) && (u <? 128)); [congruence |].
      destruct (js_is_space u); congruence.
    - right. split; [| lia].
      destruct ((0 <=? u) && (u <? 128)); [congruence |].
      destruct (js_is_space u); congruence.
    - lia. }
  destruct C as [[-> Hu] | [-> Hu]].
  - split; [| split; lia].
    rewrite !js_is_space_low by lia.
    destruct (Z.leb_spec 9 (u - 32)), (Z.leb_spec (u - 32) 13),
      (Z.eqb_spec (u - 32) 32), (Z.leb_spec 9 u), (Z.leb_spec u 13),
      (Z.eqb_spec u 32); cbn; try reflexivity; lia.
  - split; [reflexivity |]. split; [exact Hu | reflexivity].
Qed.

(** The code of a request, unit by unit. *)
Lemma route_code_cons (u : Z) (r : list Z) :
  route_code (u :: r)
  = match js_upper_unit u with
    | None => None
    | Some u' =>
        if js_is_space u' then route_code r
        else if (0 <=? u') && (u' <? 128)
             then String (ascii_of_nat (Z.to_nat u')) <$> route_code r
             else match js_toUpperCase r with
                  | Some _ => None
                  | None => None
                  end
    end.
Proof.
  unfold route_code. cbn [js_toUpperCase].
  destruct (js_upper_unit u) as [u' |]; [| reflexivity].
  destruct (js_toUpperCase r) as [r' |];
    cbn [mbind option_bind js_strip_whitespace List.filter].
  - destruct (js_is_space u'); cbn [negb]; [reflexivity |].
    cbn [text_of_units]. reflexivity.
  - destruct (js_is_space u'); [reflexivity |].
    destruct ((0 <=? u') && (u' <? 128)); reflexivity.
Qed.

Lemma route_code_app (l1 l2 : list Z) :
  route_code (l1 ++ l2)
  = match route_code l1, route_code l2 with
    | Some a, Some b => Some (a +:+ b)
    | _, _ => None
    end.
Proof.
  induction l1 as [| u r IH].
  - cbn [app]. change (route_code []) with (Some EmptyString).
    destruct (route_code l2); reflexivity.
  - cbn [app]. rewrite !route_code_cons.
    destruct (js_upper_unit u) as [u' |]; [| reflexivity].
    destruct (js_is_space u'); [exact IH |].
    destruct ((0 <=? u') && (u' <? 128)).
    + rewrite IH. destruct (route_code r), (route_code l2); reflexivity.
    + destruct (js_toUpperCase (r ++ l2)), (js_toUpperCase r);
        try reflexivity; destruct (route_code l2); reflexivity.
Qed.

(** White space anywhere in the submitted code is ignored. *)
Lemma route_code_space (l1 l2 : list Z) (ws : Z) :
  js_is_space ws = true ->
  route_code (l1 ++ ws :: l2) = route_code (l1 ++ l2).
Proof.
  intros Hws. rewrite !route_code_app, route_code_cons.
  assert (E : js_upper_unit ws = Some ws).
  { unfold js_upper_unit. rewrite Hws.
    destruct ((97 <=? ws) && (ws <=? 122)) eqn:E1.
    - apply andb_true_iff in E1. destruct E1 as [E1 E2].
      apply Z.leb_le in E1, E2. rewrite js_is_space_low in Hws by lia.
      destruct (Z.leb_spec ws 13), (Z.eqb_spec ws 32); cbn in Hws;
        try lia; rewrite ?andb_false_r in Hws; discriminate.
    - destruct ((0 <=? ws) && (ws <? 128)); reflexivity. }
  rewrite E, Hws. reflexivity.
Qed.

(** The case of a letter of the submitted code is ignored. *)
Lemma route_code_case (l1 l2 : list Z) (u : Z) :
  97 <= u <= 122 ->
  route_code (l1 ++ u :: l2) = route_code (l1 ++ (u - 32) :: l2).
Proof.
  intros Hu. rewrite !route_code_app, !route_code_cons.
  assert (E1 : js_upper_unit u = Some (u - 32)).
  { unfold js_upper_unit.
    destruct (Z.leb_spec 97 u), (Z.leb_spec u 122); try lia. reflexivity. }
  assert (E2 : js_upper_unit (u - 32) = Some (u - 32)).
  { unfold js_upper_unit.
    destruct (Z.leb_spec 97 (u - 32)); [lia |]. cbn [andb].
    destruct (Z.leb_spec 0 (u - 32)), (Z.ltb_spec (u - 32) 128); try lia.
    reflexivity. }
  rewrite E1, E2. reflexivity.
Qed.

Lemma ascii_unit (c : ascii) :
  (nat_of_ascii c <? 128)%nat = true ->
  js_upper_unit (Z.of_nat (nat_of_ascii c))
  = Some (Z.of_nat (nat_of_ascii (upper_char c)))
  /\ js_is_space (Z.of_nat (nat_of_ascii (upper_char c))) = is_space c
  /\ (0 <=? Z.of_nat (nat_of_ascii (upper_char c)))
     && (Z.of_nat (nat_of_ascii (upper_char c)) <? 128) = true
  /\ ascii_of_nat (Z.to_nat (Z.of_nat (nat_of_ascii (upper_char c))))
     = upper_char c.
Proof.
  destruct c as [[] [] [] [] [] [] [] []]; intros H;
    first [discriminate H | repeat split; reflexivity].
Qed.

(** On a text of ASCII characters the code of the request is the normal
    form of the text. *)
Lemma route_code_ascii (s : string) :
  ascii_text s = true ->
  route_code (units_of_string s) = Some (normalize_code s).
Proof.
  induction s as [| c r IH]; [reflexivity |].
  cbn [ascii_text units_of_string]. intros H.
  apply andb_true_iff in H. destruct H as [Hc Hr].
  destruct (ascii_unit c Hc) as (E1 & E2 & E3 & E4).
  rewrite route_code_cons, E1, E2, E3, E4, (IH Hr).
  unfold normalize_code. cbn [toUpperCase strip_whitespace].
  rewrite is_space_upper. destruct (is_space c); reflexivity.
Qed.

(** The code of a request is a text of ASCII characters in normal form:
    upper case, without white space. *)
Lemma route_code_normal (raw : list Z) :
  forall code,
    route_code raw = Some code ->
    ascii_text code = true
    /\ normalize_code code = code
    /\ route_code (units_of_string code) = Some code.
Proof.
  induction raw as [| u r IH]; intros code.
  { intros [= <-]. repeat split. }
  rewrite route_code_cons.
  destruct (js_upper_unit u) as [u' |] eqn:Hu; [| discriminate].
  destruct (js_upper_unit_spec u u' Hu) as (_ & Hlow & _).
  destruct (js_is_space u') eqn:Hsp; [apply IH |].
  destruct ((0 <=? u') && (u' <? 128)) eqn:Hr.
  2: { destruct (js_toUpperCase r); discriminate. }
  destruct (route_code r) as [code' |]; [| discriminate].
  intros [= <-]. destruct (IH code' eq_refl) as (A & N & R).
  apply andb_true_iff in Hr. destruct Hr as [H0 H128].
  apply Z.leb_le in H0. apply Z.ltb_lt in H128.
  set (c := ascii_of_nat (Z.to_nat u')).
  assert (Hc : nat_of_ascii c = Z.to_nat u').
  { subst c. apply nat_ascii_embedding. lia. }
  assert (Hlt : (nat_of_ascii c <? 128)%nat = true)
    by (apply Nat.ltb_lt; lia).
  assert (Hup : upper_char c = c).
  { unfold upper_char, is_lower. rewrite Hc.
    destruct (Nat.leb_spec 97 (Z.to_nat u')),
      (Nat.leb_spec (Z.to_nat u') 122); cbn [andb]; try reflexivity.
    exfalso. apply Hlow. lia. }
  assert (Hns : is_space c = false).
  { destruct (ascii_unit c Hlt) as (_ & E2 & _). rewrite Hup in E2.
    rewrite <- E2, Hc, Z2Nat.id by lia. exact Hsp. }
  assert (Ha : ascii_text (String c code') = true)
    by (cbn [ascii_text]; rewrite Hlt, A; reflexivity).
  assert (Hn : normalize_code (String c code') = String c code').
  { unfold normalize_code in *. cbn [toUpperCase strip_whitespace].
    rewrite Hup, Hns, N. reflexivity. }
  split; [exact Ha |]. split; [exact Hn |].
  rewrite (route_code_ascii _ Ha), Hn. reflexivity.
Qed.

(** The route hands the code of the request to [validateAndUnlock]. *)
Lemma pickup_POST_normalizes (nano : string) (raw : list Z) (code : string)
    (w : World) :
  raw <> [] ->
  route_code raw = Some code ->
  exists resp,
    pickup_POST nano (Some raw) w
    = Some (resp, snd (validateAndUnlock nano code w))
    /\ pickup_result resp = fst (validateAndUnlock nano code w)
    /\ (http_status resp = 200
        <-> exists cid orderNo,
              fst (validateAndUnlock nano code w) = PickupOk cid orderNo).
Proof.
  intros Hraw Hcode. destruct raw as [| u r]; [contradiction |].
  unfold pickup_POST. rewrite Hcode.
  destruct (validateAndUnlock nano code w) as [[cid no | msg] w1];
    eexists; (split; [reflexivity |]); (split; [reflexivity |]); cbn.
  - split; [eauto | reflexivity].
  - split; [discriminate | intros (c' & n' & H); discriminate].
Qed.

(** C8, as stated, fails: [validateAndUnlock] writes nothing, so the code
    "ABC123" of the loaded order validates, and opens the locker, a second
    time. *)
Lemma C8_counterexample :
  let r1 := pickup_POST "n1" (Some typed_code) loaded_world in
  let r2 :=
    r1 ≫= fun r => pickup_POST "n2" (Some (units_of_string "ABC123"))
                     (snd r) in
  (pickup_result <$> (fst <$> r1)) = Some (PickupOk "C1-0" "A042")
  /\ (http_status <$> (fst <$> r2)) = Some 200
  /\ (pickup_result <$> (fst <$> r2)) = Some (PickupOk "C1-0" "A042")
  /\ (length <$> (sent <$> (snd <$> r2)))
     = (fun n => (n + 2)%nat) <$> (length <$> (sent <$> (snd <$> r1))).
Proof. repeat split; vm_compute; reflexivity. Qed.

(** After the ITEM_REMOVED event of a compartment, no order that was bound
    to it, and no order whose code differs, matches a lookup. *)
Lemma item_removed_spends_code (nano code : string) (data : EventData)
    (w : World) (oid : string) :
  ed_event data = "ITEM_REMOVED"%string ->
  tbl_Compartment w
    !! (ed_columnId data +:+ "-" +:+ pretty (ed_lockerIndex data))
    ≫= currentOrderId = Some oid ->
  oid <> ""%string ->
  (forall oid' o',
      tbl_Order w !! oid' = Some o' -> pickupCode o' = Some code ->
      oid' = oid) ->
  find_order_by_code (handleLockerEvent nano data w) code = None.
Proof.
  intros Hev Hbound Hne Huniq.
  set (cid := ed_columnId data +:+ "-" +:+ pretty (ed_lockerIndex data)) in *.
  assert (Ho : tbl_Order (handleLockerEvent nano data w)
               = alter (set_pickedUpAt (clock w)) oid (tbl_Order w)).
  { unfold handleLockerEvent. cbv zeta. rewrite Hev.
    cbn [String.eqb Ascii.eqb Bool.eqb].
    cbn [tbl_Compartment with_events with_compartments clock].
    fold cid. rewrite Hbound.
    destruct oid as [| c r]; [contradiction | reflexivity]. }
  unfold find_order_by_code. apply find_none_intro.
  intros [k v] Hin. rewrite Ho in Hin.
  apply list_elem_of_In, elem_of_map_to_list in Hin.
  unfold code_matches. cbn [snd].
  destruct (decide (k = oid)) as [-> | Hk].
  - rewrite lookup_alter_eq in Hin.
    destruct (tbl_Order w !! oid) as [o0 |]; [| discriminate].
    cbn in Hin. injection Hin as <-. cbn.
    destruct (pickupCode o0); reflexivity.
  - rewrite lookup_alter_ne in Hin by congruence.
    destruct (pickupCode v) as [pc |] eqn:Hpc; [| reflexivity].
    destruct (pickedUpAt v); [reflexivity |].
    destruct (compartmentId v); [| reflexivity].
    destruct (String.eqb_spec pc code) as [-> | _]; [| reflexivity].
    exfalso. apply Hk. exact (Huniq k v Hin Hpc).
Qed.

(** *** The lookup and the calls that change its answer *)

Lemma code_matches_true (w : World) (code oid : string) (o : Order) :
  code_matches w code (oid, o) = true
  <-> exists cid c,
        pickupCode o = Some code /\ pickedUpAt o = None
        /\ compartmentId o = Some cid
        /\ tbl_Compartment w !! cid = Some c
        /\ status c = "occupied"%string.
Proof.
  unfold code_matches. cbn [snd]. split.
  - destruct (pickupCode o) as [pc |]; [| discriminate].
    destruct (pickedUpAt o); [discriminate |].
    destruct (compartmentId o) as [cid |]; [| discriminate].
    intros H. apply andb_true_iff in H. destruct H as [H1 H2].
    apply String.eqb_eq in H1. subst pc.
    destruct (tbl_Compartment w !! cid) as [c |] eqn:Hc; [| discriminate].
    apply String.eqb_eq in H2. exists cid, c. auto.
  - intros (cid & c & H1 & H2 & H3 & Hc & Hs).
    rewrite H1, H2, H3, String.eqb_refl, Hc, Hs. reflexivity.
Qed.

(** The lookup finds nothing exactly when no order carries the code, is
    not picked up and sits in an 'occupied' compartment. *)
Lemma lookup_none_iff (w : World) (code : string) :
  find_order_by_code w code = None
  <-> ~ exists oid o cid c,
          tbl_Order w !! oid = Some o
          /\ pickupCode o = Some code /\ pickedUpAt o = None
          /\ compartmentId o = Some cid
          /\ tbl_Compartment w !! cid = Some c
          /\ status c = "occupied"%string.
Proof.
  unfold find_order_by_code. split.
  - intros Hnone (oid & o & cid & c & Ho & H).
    assert (Hin : In (oid, o) (map_to_list (tbl_Order w)))
      by (apply list_elem_of_In, elem_of_map_to_list; exact Ho).
    pose proof (find_none _ _ Hnone (oid, o) Hin) as Hf.
    rewrite (proj2 (code_matches_true w code oid o)) in Hf by eauto.
    discriminate.
  - intros Hno. apply find_none_intro. intros [oid o] Hin.
    destruct (code_matches w code (oid, o)) eqn:E; [| reflexivity].
    exfalso. apply Hno. apply code_matches_true in E.
    destruct E as (cid & c & E). exists oid, o, cid, c.
    split; [| exact E].
    apply list_elem_of_In, elem_of_map_to_list in Hin. exact Hin.
Qed.

Lemma invalid_iff (nano code : string) (w : World) :
  fst (validateAndUnlock nano code w)
  = PickupErr "Invalid or expired pickup code"
  <-> find_order_by_code w code = None.
Proof.
  split.
  - intros H.
    destruct (find_order_by_code w code) as [[oid o] |] eqn:E;
      [| reflexivity].
    exfalso. exact (validateAndUnlock_found nano code w oid o E H).
  - intros E. unfold validateAndUnlock. rewrite E. reflexivity.
Qed.

Lemma invalid_unchanged (nano code : string) (w : World) :
  find_order_by_code w code = None ->
  validateAndUnlock nano code w
  = (PickupErr "Invalid or expired pickup code", w).
Proof. intros E. unfold validateAndUnlock. rewrite E. reflexivity. Qed.

(** Pickup requests alone change no table. *)
Lemma pickups_same_data (calls : list ServiceCall) (w : World) :
  Forall (fun c => is_pickup c = true) calls ->
  same_data w (serve_all calls w).
Proof.
  unfold serve_all. revert w.
  induction calls as [| c rest IH]; intros w Hall; [apply same_data_refl |].
  inversion Hall as [| c' rest' Hc Hrest]; subst.
  cbn [fold_left]. destruct c as [n d | n code]; [discriminate |].
  cbn [serve].
  apply (same_data_trans _ _ _ (validateAndUnlock_same_data n code w)).
  apply IH, Hrest.
Qed.

(** Once every order that carries the code is marked picked up, this
    stays so through every event and every pickup request, and the code
    resolves to nothing. *)
Lemma spent_serve (code : string) (c : ServiceCall) (w : World) :
  (forall oid o, tbl_Order w !! oid = Some o ->
                 pickupCode o = Some code -> pickedUpAt o <> None) ->
  forall oid o, tbl_Order (serve w c) !! oid = Some o ->
                pickupCode o = Some code -> pickedUpAt o <> None.
Proof.
  intros Hsp oid o. destruct c as [n d | n code']; cbn [serve].
  - pose proof (event_orders n d w) as Ho. cbv zeta in Ho. rewrite Ho.
    match goal with |- context [if ?b then _ else _] => destruct b end;
      [| apply Hsp].
    match goal with |- context [alter _ ?k _] =>
      destruct (decide (k = oid)) as [<- | Hne]
    end.
    + rewrite lookup_alter_eq.
      match goal with |- context [tbl_Order w !! ?k] =>
        destruct (tbl_Order w !! k) as [o0 |]
      end; [| discriminate].
      cbn. intros [= <-] _. cbn. discriminate.
    + rewrite lookup_alter_ne by exact Hne. apply Hsp.
  - destruct (validateAndUnlock_same_data n code' w) as (_ & _ & _ & -> & _).
    apply Hsp.
Qed.

Lemma spent_serve_all (code : string) (calls : list ServiceCall)
    (w : World) :
  (forall oid o, tbl_Order w !! oid = Some o ->
                 pickupCode o = Some code -> pickedUpAt o <> None) ->
  find_order_by_code (serve_all calls w) code = None.
Proof.
  unfold serve_all. revert w.
  induction calls as [| c rest IH]; intros w Hsp.
  - cbn. apply lookup_none_iff.
    intros (oid & o & cid & c & Ho & Hc & Hp & _).
    exact (Hsp oid o Ho Hc Hp).
  - cbn [fold_left]. apply IH, spent_serve, Hsp.
Qed.

(** A status event of a compartment keeps its row, with the order bound,
    and the orders. *)
Lemma status_event_row (nano : string) (data : EventData) (w : World)
    (c : Compartment) :
  tbl_Compartment w !! event_compartment data = Some c ->
  In (ed_event data)
     [ "DOOR_OPENED"; "DOOR_CLOSED"; "MOTOR_FAULT"; "SAFETY_TRIPPED";
       "MOTOR_FAULT_CLEARED"; "SAFETY_CLEARED" ]%string ->
  let w' := handleLockerEvent nano data w in
  tbl_Order w' = tbl_Order w
  /\ (forall k, k <> event_compartment data ->
        tbl_Compartment w' !! k = tbl_Compartment w !! k)
  /\ exists c',
       tbl_Compartment w' !! event_compartment data = Some c'
       /\ currentOrderId c' = currentOrderId c
       /\ (status c' = "occupied"%string
           <-> ed_event data = "DOOR_CLOSED"%string
               /\ truthy (currentOrderId c) = true).
Proof.
  intros Hc Hev. unfold event_compartment in *.
  pose proof (event_compartments nano data w) as Hcomp.
  pose proof (event_orders nano data w) as Hord.
  cbv zeta in Hcomp, Hord |- *. rewrite Hc in Hcomp, Hord.
  cbn [mbind option_bind] in Hcomp, Hord. rewrite Hcomp, Hord.
  cbn [In] in Hev.
  destruct Hev as [<- | [<- | [<- | [<- | [<- | [<- | []]]]]]];
    cbn [String.eqb Ascii.eqb Bool.eqb orb andb];
    (split; [reflexivity |]);
    (split; [intros k Hk; apply lookup_alter_ne; congruence |]);
    rewrite lookup_alter_eq, Hc; eexists; (split; [reflexivity |]);
    (split; [reflexivity |]); cbn [status set_status].
  - split; [discriminate | intros [E _]; discriminate].
  - destruct (truthy (currentOrderId c)); split; auto;
      try discriminate. intros [_ E]. discriminate.
  - split; [discriminate | intros [E _]; discriminate].
  - split; [discriminate | intros [E _]; discriminate].
  - split; [discriminate | intros [E _]; discriminate].
  - split; [discriminate | intros [E _]; discriminate].
Qed.

(** C8, amended. The pickup route hands to the lookup the submitted code
    in upper case with white space removed: the text is a fixed point of
    the normalisation, and inserting white space or changing the case of
    a letter of the submitted code gives the same text. A call fails with
    "Invalid or expired pickup code" exactly when no order carries the
    code, is not marked picked up and sits in a compartment of status
    'occupied'; such a call changes nothing, and no call writes a table.
    So a successful validation does not use the code up: after any number
    of pickup requests the code of a loaded order still resolves. What
    ends this are hardware events of the compartment. A DOOR_OPENED or a
    fault event makes every call with the code fail, the order still not
    marked picked up, until a DOOR_CLOSED of the compartment makes the
    code resolve again. The ITEM_REMOVED event marks the order picked up:
    from then on, through whatever events and pickup requests follow,
    every call with the code fails and changes nothing (no other order
    carrying the code). *)
Theorem C8_code_valid_until_item_removed :
  forall (nano code : string) (w : World),
    let invalid := PickupErr "Invalid or expired pickup code" in
    (fst (validateAndUnlock nano code w) = invalid
     <-> ~ exists oid o cid c,
             tbl_Order w !! oid = Some o
             /\ pickupCode o = Some code /\ pickedUpAt o = None
             /\ compartmentId o = Some cid
             /\ tbl_Compartment w !! cid = Some c
             /\ status c = "occupied"%string)
    /\ (fst (validateAndUnlock nano code w) = invalid ->
        snd (validateAndUnlock nano code w) = w)
    /\ same_data w (snd (validateAndUnlock nano code w))
    /\ (forall raw,
          route_code raw = Some code ->
          normalize_code code = code
          /\ (forall l1 l2 ws,
                raw = l1 ++ l2 -> js_is_space ws = true ->
                route_code (l1 ++ ws :: l2) = Some code)
          /\ (forall l1 l2 u,
                raw = l1 ++ u :: l2 -> 97 <= u <= 122 ->
                route_code (l1 ++ (u - 32) :: l2) = Some code)
          /\ (forall l1 l2 u,
                raw = l1 ++ u :: l2 -> 65 <= u <= 90 ->
                route_code (l1 ++ (u + 32) :: l2) = Some code)
          /\ (raw <> [] ->
              exists resp,
                pickup_POST nano (Some raw) w
                = Some (resp, snd (validateAndUnlock nano code w))
                /\ pickup_result resp = fst (validateAndUnlock nano code w)))
    /\ (forall (oid : string) (order : Order) (cid : string)
               (c : Compartment),
          tbl_Order w !! oid = Some order ->
          pickupCode order = Some code -> pickedUpAt order = None ->
          compartmentId order = Some cid ->
          tbl_Compartment w !! cid = Some c ->
          status c = "occupied"%string ->
          currentOrderId c = Some oid -> oid <> ""%string ->
          (forall oid' o',
              tbl_Order w !! oid' = Some o' -> pickupCode o' = Some code ->
              oid' = oid) ->
          (forall calls n,
              Forall (fun call => is_pickup call = true) calls ->
              fst (validateAndUnlock n code (serve_all calls w)) <> invalid)
          /\ (forall n data,
                event_compartment data = cid ->
                In (ed_event data)
                   [ "DOOR_OPENED"; "MOTOR_FAULT"; "SAFETY_TRIPPED";
                     "MOTOR_FAULT_CLEARED"; "SAFETY_CLEARED" ]%string ->
                let w1 := handleLockerEvent n data w in
                pickedUpAt <$> tbl_Order w1 !! oid = Some None
                /\ (forall n', validateAndUnlock n' code w1 = (invalid, w1))
                /\ (forall n2 data2 n3,
                      event_compartment data2 = cid ->
                      ed_event data2 = "DOOR_CLOSED"%string ->
                      fst (validateAndUnlock n3 code
                             (handleLockerEvent n2 data2 w1)) <> invalid))
          /\ (forall n data,
                event_compartment data = cid ->
                ed_event data = "ITEM_REMOVED"%string ->
                forall calls n',
                  let w2 := serve_all calls (handleLockerEvent n data w) in
                  validateAndUnlock n' code w2 = (invalid, w2))).
Proof.
  intros nano code w invalid. subst invalid.
  split.
  { rewrite invalid_iff. apply lookup_none_iff. }
  split.
  { intros H. apply invalid_iff in H.
    rewrite (invalid_unchanged nano code w H). reflexivity. }
  split; [apply validateAndUnlock_same_data |].
  split.
  { intros raw Hraw.
    destruct (route_code_normal raw code Hraw) as (_ & Hn & _).
    split; [exact Hn |]. split.
    { intros l1 l2 ws -> Hws. rewrite route_code_space by exact Hws.
      exact Hraw. }
    split.
    { intros l1 l2 u -> Hu. rewrite <- route_code_case by exact Hu.
      exact Hraw. }
    split.
    { intros l1 l2 u -> Hu.
      rewrite (route_code_case l1 l2 (u + 32)) by lia.
      replace (u + 32 - 32) with u by lia. exact Hraw. }
    intros Hne.
    destruct (pickup_POST_normalizes nano raw code w Hne Hraw)
      as (resp & H1 & H2 & _).
    exists resp. split; assumption. }
  intros oid order cid c Ho Hcode Hpick Hcid Hc Hst Hbound Hoid Huniq.
  assert (Htruthy : truthy (Some oid) = true)
    by (destruct oid; [contradiction | reflexivity]).
  assert (Hresolves :
            forall w',
              tbl_Order w' = tbl_Order w ->
              (exists c', tbl_Compartment w' !! cid = Some c'
                          /\ status c' = "occupied"%string) ->
              forall n,
                fst (validateAndUnlock n code w')
                <> PickupErr "Invalid or expired pickup code").
  { intros w' Hord (c' & Hc' & Hst') n H.
    apply invalid_iff, lookup_none_iff in H. apply H.
    exists oid, order, cid, c'. rewrite Hord. auto 10. }
  assert (Hblocked :
            forall w',
              tbl_Order w' = tbl_Order w ->
              (forall c', tbl_Compartment w' !! cid = Some c' ->
                          status c' <> "occupied"%string) ->
              find_order_by_code w' code = None).
  { intros w' Hord Hrow. apply lookup_none_iff.
    intros (oid' & o' & cid' & c' & Ho' & Hc1 & _ & Hcid' & Hc' & Hst').
    rewrite Hord in Ho'.
    pose proof (Huniq oid' o' Ho' Hc1) as ->.
    rewrite Ho in Ho'. injection Ho' as <-.
    rewrite Hcid in Hcid'. injection Hcid' as <-.
    exact (Hrow c' Hc' Hst'). }
  split.
  { intros calls n Hall.
    destruct (pickups_same_data calls w Hall) as (_ & _ & Hcomp & Hord & _).
    apply Hresolves; [exact Hord |].
    exists c. rewrite Hcomp. auto. }
  split.
  { intros n data Hdata Hev w1.
    destruct (status_event_row n data w c) as (Hord & _ & c1 & Hc1 & Hb1 & Hs1).
    { rewrite Hdata. exact Hc. }
    { cbn [In] in *. tauto. }
    fold w1 in Hord, Hc1. rewrite Hdata in Hc1.
    assert (Hnot : status c1 <> "occupied"%string).
    { intros E. apply Hs1 in E. destruct E as [E _]. rewrite E in Hev.
      cbn [In] in Hev.
      destruct Hev as [E' | [E' | [E' | [E' | [E' | []]]]]]; discriminate. }
    split; [rewrite Hord, Ho; cbn; rewrite Hpick; reflexivity |].
    split.
    { intros n'. apply invalid_unchanged, Hblocked; [exact Hord |].
      intros c' Hc'. rewrite Hc1 in Hc'. injection Hc' as <-. exact Hnot. }
    intros n2 data2 n3 Hdata2 Hev2.
    destruct (status_event_row n2 data2 w1 c1)
      as (Hord2 & _ & c2 & Hc2 & _ & Hs2).
    { rewrite Hdata2. exact Hc1. }
    { rewrite Hev2. cbn. tauto. }
    rewrite Hdata2 in Hc2.
    apply Hresolves; [rewrite Hord2; exact Hord |].
    exists c2. split; [exact Hc2 |]. apply Hs2.
    split; [exact Hev2 |]. rewrite Hb1, Hbound. exact Htruthy. }
  intros n data Hdata Hev calls n' w2.
  apply invalid_unchanged. subst w2. apply spent_serve_all.
  intros oid' o' Ho' Hc'.
  pose proof (event_orders n data w) as Hord. cbv zeta in Hord.
  fold (event_compartment data) in Hord.
  rewrite Hdata, Hc, Hev in Hord. cbn [mbind option_bind] in Hord.
  rewrite Hbound, Htruthy in Hord.
  cbn [String.eqb Ascii.eqb Bool.eqb andb default] in Hord.
  unfold id in Hord. rewrite Hord in Ho'.
  destruct (decide (oid = oid')) as [<- | Hne].
  - rewrite lookup_alter_eq, Ho in Ho'. cbn in Ho'.
    injection Ho' as <-. cbn. discriminate.
  - rewrite lookup_alter_ne in Ho' by exact Hne.
    exfalso. apply Hne. symmetry. exact (Huniq oid' o' Ho' Hc').
Qed.

(** Order "O1" is loaded in compartment "C1-0" with the code "ABC123".
    The code as typed, also with a no-break space, is looked up as
    "ABC123"; it resolves again after a first pickup request, fails once
    the door has been reported open, and fails for good after the
    ITEM_REMOVED event, a DOOR_CLOSED and a further request
    notwithstanding. *)
Lemma C8_witness :
  let invalid := PickupErr "Invalid or expired pickup code" in
  let w := loaded_world in
  let w1 := handleLockerEvent "e1" door_opened_C1_0 w in
  let w2 := serve_all [ CallEvent "e3" door_closed_C1_0;
                        CallPickup "n4" "ABC123" ]
              (handleLockerEvent "e2" item_removed_C1_0 w) in
  (route_code typed_code = Some "ABC123"%string
   /\ route_code typed_code_nbsp = Some "ABC123"%string)
  /\ fst (validateAndUnlock "n2" "ABC123"
            (serve_all [CallPickup "n1" "ABC123"] w)) <> invalid
  /\ validateAndUnlock "n3" "ABC123" w1 = (invalid, w1)
  /\ validateAndUnlock "n5" "ABC123" w2 = (invalid, w2).
Proof.
  cbv zeta.
  destruct (C8_code_valid_until_item_removed "n0" "ABC123" loaded_world)
    as (_ & _ & _ & _ & Hwin).
  destruct (Hwin "O1"%string loaded_O1 "C1-0"%string
              {| columnId := "C1"; lockerIndex := 0; size := "M";
                 status := "occupied"; currentOrderId := Some "O1"%string;
                 lastStatusChange := 10 |})
    as (Hagain & Hopen & Hgone).
  - vm_compute. reflexivity.
  - reflexivity.
  - reflexivity.
  - reflexivity.
  - vm_compute. reflexivity.
  - reflexivity.
  - reflexivity.
  - discriminate.
  - intros oid' o' Hlook _.
    assert (E : tbl_Order loaded_world = {[ "O1"%string := loaded_O1 ]})
      by (vm_compute; reflexivity).
    rewrite E in Hlook. apply lookup_singleton_Some in Hlook as [<- _].
    reflexivity.
  - split; [split; vm_compute; reflexivity |].
    split; [apply Hagain; repeat constructor |].
    split.
    + destruct (Hopen "e1" door_opened_C1_0) as (_ & Hfail & _).
      * reflexivity.
      * cbn. tauto.
      * apply Hfail.
    + apply (Hgone "e2" item_removed_C1_0); reflexivity.
Defined.

(** [unlockLocker] takes the first two pieces of the compartment id: for
    the id of a compartment of column "COL-001" the relay is addressed to
    a column "COL", which is not registered. *)
Example split_compartment_id :
  split_dash "COL-001-1" = ["COL"; "001"; "1"]%string
  /\ fst (unlockLocker "n" "COL-001-1" None
            (handleColumnAnnounce
               {| an_columnId := "COL-001"; an_ip := "192.168.150.3";
                  an_port := 80; an_lockerCount := 3;
                  an_firmwareVersion := "1.0.1" |}
               (empty_world [ok_reply])))
     = relay_error "Column not found".
Proof. split; vm_compute; reflexivity. Qed.

(** *** C9: assigning to a compartment that is not available *)

(** C9. When the compartment exists and its status is not 'available',
    [assignOrderToLocker] fails with "Compartment is <status>" and returns
    the world it was given: no table, hence neither the compartment's
    status and [currentOrderId] nor any order's binding and pickup code,
    is written, and nothing is sent. *)
Theorem C9_assign_rejects_unavailable :
  forall (w : World) (orderId compartment_id code : string)
         (compartment : Compartment),
    tbl_Compartment w !! compartment_id = Some compartment ->
    status compartment <> "available"%string ->
    assignOrderToLocker orderId compartment_id code w
    = (AssignErr ("Compartment is " +:+ status compartment), w).
Proof.
  intros w orderId cid code compartment Hc Hst.
  unfold assignOrderToLocker. rewrite Hc.
  destruct (String.eqb_spec (status compartment) "available") as [E | _];
    [contradiction | reflexivity].
Qed.

Lemma C9_witness :
  assignOrderToLocker "O2" "C1-0" "XYZ789" reserved_world
  = (AssignErr "Compartment is reserved", reserved_world).
Proof.
  apply (C9_assign_rejects_unavailable reserved_world "O2" "C1-0" "XYZ789"
           {| columnId := "C1"; lockerIndex := 0; size := "M";
              status := "reserved"; currentOrderId := Some "O1"%string;
              lastStatusChange := 0 |}).
  - vm_compute. reflexivity.
  - cbn. discriminate.
Defined.

(** *** C10: the door-closed event *)

(** C10. On a DOOR_CLOSED event the row of the compartment gets the status
    'occupied' when its [currentOrderId] is set (not NULL and not the empty
    string) and 'available' otherwise, whatever its status was; the
    binding itself, the other compartments and the orders are untouched.
    In particular a 'reserved' compartment with an order bound becomes
    'occupied' although [markOrderLoaded] never ran. *)
Theorem C10_door_closed_status :
  forall (nano : string) (data : EventData) (w : World)
         (compartment : Compartment),
    ed_event data = "DOOR_CLOSED"%string ->
    let cid := ed_columnId data +:+ "-" +:+ pretty (ed_lockerIndex data) in
    tbl_Compartment w !! cid = Some compartment ->
    let w' := handleLockerEvent nano data w in
    tbl_Compartment w' !! cid
    = Some (set_status
              (if truthy (currentOrderId compartment)
               then "occupied" else "available")
              (clock w) compartment)
    /\ (forall c', tbl_Compartment w' !! cid = Some c' ->
          (status c' = "occupied"%string
           <-> truthy (currentOrderId compartment) = true)
          /\ (status c' = "available"%string
              <-> truthy (currentOrderId compartment) = false)
          /\ currentOrderId c' = currentOrderId compartment)
    /\ (forall other, other <> cid ->
          tbl_Compartment w' !! other = tbl_Compartment w !! other)
    /\ tbl_Order w' = tbl_Order w.
Proof.
  intros nano data w compartment Hev cid Hc w'.
  assert (E : tbl_Compartment w'
              = alter (set_status
                         (if truthy (currentOrderId compartment)
                          then "occupied" else "available") (clock w))
                  cid (tbl_Compartment w)).
  { subst w'. unfold handleLockerEvent. cbv zeta. rewrite Hev.
    cbn [String.eqb Ascii.eqb Bool.eqb].
    cbn [tbl_Compartment with_events with_compartments clock].
    fold cid. rewrite Hc. reflexivity. }
  assert (L : tbl_Compartment w' !! cid
              = Some (set_status
                        (if truthy (currentOrderId compartment)
                         then "occupied" else "available")
                        (clock w) compartment)).
  { rewrite E, lookup_alter_eq, Hc. reflexivity. }
  split; [exact L |]. split.
  - intros c' Hc'. rewrite L in Hc'. injection Hc' as <-.
    cbn [status currentOrderId set_status].
    destruct (truthy (currentOrderId compartment));
      repeat split; intros; try reflexivity; discriminate.
  - split.
    + intros other Hne. rewrite E. apply lookup_alter_ne. congruence.
    + subst w'. unfold handleLockerEvent. cbv zeta. rewrite Hev.
      reflexivity.
Qed.

(** The reserved compartment of [reserved_world] closes its door. *)
Lemma C10_witness :
  status <$> tbl_Compartment reserved_world !! "C1-0" = Some "reserved"%string
  /\ status <$> tbl_Compartment
                  (handleLockerEvent "ev1" door_closed_C1_0 reserved_world)
                  !! "C1-0"
     = Some "occupied"%string.
Proof.
  split; [vm_compute; reflexivity |].
  destruct (C10_door_closed_status "ev1" door_closed_C1_0 reserved_world
              {| columnId := "C1"; lockerIndex := 0; size := "M";
                 status := "reserved"; currentOrderId := Some "O1"%string;
                 lastStatusChange := 0 |}) as [H _].
  - reflexivity.
  - vm_compute. reflexivity.
  - etransitivity; [apply (f_equal (fmap status)); exact H | reflexivity].
Defined.

End CoordinatorSpec.

(** ** Part V: further properties of the firmware *)

Module FirmwareExtra.

Import Firmware FirmwareLoop FirmwareSpec.
Local Open Scope Z_scope.

(** *** Boot *)

Lemma begin_facts (miso : Z -> bool) (lc : LockerControl) :
  _state (LockerControl_begin miso lc)
  = (if negb (miso IN_HALL_CLOSED) then LOCKED
     else if negb (miso IN_HALL_OPEN) then OPEN else IDLE)
  /\ getOutputState (_sr (LockerControl_begin miso lc)) = 0
  /\ getSensors (LockerControl_begin miso lc) = sample miso.
Proof.
  assert (Hs : getSensors (with_sr (refresh miso (writeOutputs 0 (_sr lc))) lc)
               = sample miso).
  { unfold getSensors, sample. simpl.
    rewrite !read_word_bit by (vm_compute; tauto). reflexivity. }
  unfold LockerControl_begin. cbv zeta. rewrite Hs.
  change (doorClosed (sample miso)) with (negb (miso IN_HALL_CLOSED)).
  change (doorOpen (sample miso)) with (negb (miso IN_HALL_OPEN)).
  destruct (miso IN_HALL_CLOSED), (miso IN_HALL_OPEN); cbn [negb];
    (split; [reflexivity |]; split; [reflexivity | exact Hs]).
Qed.

(** X1. [LockerControl::begin()] clears the outputs and derives the state
    from the first sample alone: door-closed asserted gives Locked (also
    when door-open is asserted too), otherwise door-open gives Open,
    otherwise Idle; the state and error the object held before play no
    part. *)
Theorem X1_boot_state :
  forall (miso : Z -> bool) (lc : LockerControl),
    let lc' := LockerControl_begin miso lc in
    _state lc'
    = (if negb (miso IN_HALL_CLOSED) then LOCKED
       else if negb (miso IN_HALL_OPEN) then OPEN else IDLE)
    /\ getOutputState (_sr lc') = 0
    /\ getSensors lc' = sample miso
    /\ getLastError lc' = getLastError lc.
Proof.
  intros miso lc lc'. subst lc'.
  destruct (begin_facts miso lc) as (H1 & H2 & H3).
  split; [exact H1 |]. split; [exact H2 |]. split; [exact H3 |].
  unfold LockerControl_begin. cbv zeta.
  repeat match goal with
  | |- context [if ?c then _ else _] => destruct c
  end; reflexivity.
Qed.

(** *** [lock()] *)

(** X2. [lock()] looks at the IR beam of the last sample and at nothing
    else of the state machine: with the beam blocked it fails with
    "IR blocked" and changes neither state nor outputs; with the beam
    clear, in the firmware as built, it succeeds from every state, busy
    ones and Fault included, enters Closing, restarts the timer, clears
    the direction output and leaves all other outputs (the UV lamp of a
    running sanitize cycle too) as they are. *)
Theorem X2_lock_checks_only_the_beam :
  forall (test_mode : bool) (now : Z) (lc : LockerControl),
    (irBeamClear (getSensors lc) = false ->
     fst (lock test_mode now lc) = false
     /\ getLastError (snd (lock test_mode now lc)) = Some "IR blocked"%string
     /\ _state (snd (lock test_mode now lc)) = _state lc
     /\ _sr (snd (lock test_mode now lc)) = _sr lc)
    /\ (irBeamClear (getSensors lc) = true ->
        let lc' := snd (lock TEST_MODE now lc) in
        fst (lock TEST_MODE now lc) = true
        /\ _state lc' = CLOSING
        /\ _opStart lc' = now
        /\ bit_set (getOutputState (_sr lc')) OUT_DIR = false
        /\ (forall b, 0 < b < 8 ->
              bit_set (getOutputState (_sr lc')) b
              = bit_set (getOutputState (_sr lc)) b)).
Proof.
  intros tm now lc. split; intros Hir.
  - unfold lock. rewrite Hir. cbn. repeat split.
  - cbv zeta. unfold lock. rewrite Hir. cbn [negb TEST_MODE checkSafety fst snd].
    cbn [_state _opStart _sr with_opStart with_state sr_setOutput with_sr].
    split; [reflexivity |]. split; [reflexivity |]. split; [reflexivity |].
    split.
    + rewrite setOutput_bit by (unfold OUT_DIR; lia). reflexivity.
    + intros b Hb. rewrite setOutput_bit by (unfold OUT_DIR; lia).
      destruct (Z.eqb_spec OUT_DIR b) as [E | _]; [| reflexivity].
      unfold OUT_DIR in E. lia.
Qed.

Lemma X2_witness :
  _state sanitizing_locker = SANITIZING
  /\ fst (lock TEST_MODE 100 sanitizing_locker) = true
  /\ _state (snd (lock TEST_MODE 100 sanitizing_locker)) = CLOSING
  /\ uvc (getOutputs (snd (lock TEST_MODE 100 sanitizing_locker))) = true.
Proof.
  destruct (X2_lock_checks_only_the_beam TEST_MODE 100 sanitizing_locker)
    as [_ H].
  destruct H as (H1 & H2 & _ & _ & H5); [vm_compute; reflexivity |].
  split; [reflexivity |]. split; [exact H1 |]. split; [exact H2 |].
  unfold getOutputs. cbn [uvc].
  rewrite H5 by (unfold OUT_UVC; lia). vm_compute. reflexivity.
Defined.

(** *** States [update()] does not leave *)

Lemma update_stays (now : Z) (miso : Z -> bool) (lc : LockerControl) :
  _state lc = FAULT
  \/ (miso IN_TMC_DIAG = false /\ (_state lc = IDLE \/ _state lc = LOCKED)) ->
  update now miso lc = with_sr (refresh miso (_sr lc)) lc.
Proof.
  intros H. open_update.
  destruct H as [Hf | [Hd [Hs | Hs]]].
  - rewrite Hf. cbn. rewrite andb_false_r. reflexivity.
  - rewrite Hd, Hs. reflexivity.
  - rewrite Hd, Hs. reflexivity.
Qed.

(** X3. No sequence of [update()] calls leaves Fault: whatever the samples
    and the clock readings of the cycles, the state stays Fault, and the
    output word, the error text and the timers stay as they were. *)
Theorem X3_fault_is_absorbing_for_update :
  forall (cycles : list (Z * (Z -> bool))) (lc : LockerControl),
    _state lc = FAULT ->
    let lc' := run_updates cycles lc in
    _state lc' = FAULT
    /\ getOutputState (_sr lc') = getOutputState (_sr lc)
    /\ getLastError lc' = getLastError lc
    /\ _opStart lc' = _opStart lc
    /\ _sanitizeEnd lc' = _sanitizeEnd lc.
Proof.
  intros cycles. unfold run_updates.
  induction cycles as [| [now miso] rest IH]; intros lc Hf.
  - cbn. repeat split. exact Hf.
  - cbn [fold_left fst snd].
    rewrite (update_stays now miso lc (or_introl Hf)).
    specialize (IH (with_sr (refresh miso (_sr lc)) lc) Hf).
    cbv zeta in IH. destruct IH as (H1 & H2 & H3 & H4 & H5).
    repeat split; assumption.
Qed.

Lemma X3_witness :
  let lc := update 5 all_high booted_locker in
  let lc' := run_updates [(100, idle_sample); (200, door_open_sample);
                          (300, closed_sample)] lc in
  _state lc' = FAULT
  /\ getOutputState (_sr lc') = getOutputState (_sr lc)
  /\ getLastError lc' = getLastError lc
  /\ _opStart lc' = _opStart lc
  /\ _sanitizeEnd lc' = _sanitizeEnd lc.
Proof.
  apply (X3_fault_is_absorbing_for_update
           [(100, idle_sample); (200, door_open_sample); (300, closed_sample)]
           (update 5 all_high booted_locker)).
  vm_compute. reflexivity.
Defined.

(** X4. Without a motor fault reported, [update()] does nothing to a
    compartment in Idle or in Locked, over any number of cycles: the
    state, the output word, the error and the two timers [_opStart] and
    [_sanitizeEnd] are kept, whatever the doors and the other sensors say
    and whatever the clock reads; only the cached sensor sample follows
    the inputs, holding the sample of the last cycle. *)
Theorem X4_idle_and_locked_are_stable :
  forall (cycles : list (Z * (Z -> bool))) (lc : LockerControl),
    Forall (fun c => snd c IN_TMC_DIAG = false) cycles ->
    _state lc = IDLE \/ _state lc = LOCKED ->
    let lc' := run_updates cycles lc in
    _state lc' = _state lc
    /\ getOutputState (_sr lc') = getOutputState (_sr lc)
    /\ getLastError lc' = getLastError lc
    /\ _opStart lc' = _opStart lc
    /\ _sanitizeEnd lc' = _sanitizeEnd lc
    /\ (forall pre now miso,
          cycles = pre ++ [(now, miso)] -> getSensors lc' = sample miso).
Proof.
  intros cycles. unfold run_updates.
  induction cycles as [| [now miso] rest IH]; intros lc Hall Hs.
  - cbn. repeat split. intros [| x pre] now miso H; discriminate.
  - inversion Hall as [| c cs Hd Hrest]; subst. cbn [snd] in Hd.
    cbn [fold_left fst snd].
    rewrite (update_stays now miso lc (or_intror (conj Hd Hs))).
    specialize (IH (with_sr (refresh miso (_sr lc)) lc) Hrest Hs).
    cbv zeta in IH. destruct IH as (H1 & H2 & H3 & H4 & H5 & H6).
    repeat split; try assumption.
    intros pre now' miso' Hcycles.
    destruct rest as [| r rest'].
    + destruct pre as [| x [| y pre]]; try discriminate.
      injection Hcycles as _ <-. cbn [fold_left].
      apply getSensors_refresh.
    + destruct pre as [| x pre]; [discriminate |].
      injection Hcycles as _ Hrest'. exact (H6 pre now' miso' Hrest').
Qed.

Lemma X4_witness :
  let lc' := run_updates [(700, door_open_sample); (20000, idle_sample)]
               locked_locker in
  _state lc' = _state locked_locker
  /\ getOutputState (_sr lc') = getOutputState (_sr locked_locker)
  /\ getLastError lc' = getLastError locked_locker
  /\ _opStart lc' = _opStart locked_locker
  /\ _sanitizeEnd lc' = _sanitizeEnd locked_locker
  /\ (forall pre now miso,
        [(700, door_open_sample); (20000, idle_sample)]
        = pre ++ [(now, miso)] ->
        getSensors lc' = sample miso).
Proof.
  apply (X4_idle_and_locked_are_stable
           [(700, door_open_sample); (20000, idle_sample)] locked_locker).
  - repeat constructor.
  - right. vm_compute. reflexivity.
Defined.

(** *** Timeouts *)

Lemma elapsed_wraps (start e : Z) :
  0 <= start < 4294967296 -> 0 <= e < 4294967296 ->
  u32 (u32 (start + e) - start) = e.
Proof.
  intros Hs He. unfold u32. rewrite Zminus_mod_idemp_l.
  replace (start + e - start) with e by lia. apply Z.mod_small. lia.
Qed.

(** X5. The motion timeout counts elapsed time modulo 2^32, so it is right
    across the roll-over of [millis()]: a compartment in Unlocking whose
    door-open input stays unasserted, or in Closing with the beam clear
    and the door-closed input unasserted, keeps its state and outputs as
    long as at most 10000 ms have passed since the operation started, and
    goes to Fault with all outputs off and the error "Open timeout"
    (resp. "Close timeout") once more than 10000 ms have passed. *)
Theorem X5_motion_timeout :
  forall (elapsed : Z) (miso : Z -> bool) (lc : LockerControl),
    0 <= _opStart lc < 4294967296 ->
    0 <= elapsed < 4294967296 ->
    miso IN_TMC_DIAG = false ->
    (_state lc = UNLOCKING /\ miso IN_HALL_OPEN = true)
    \/ (_state lc = CLOSING /\ miso IN_IR_BEAM = true
        /\ miso IN_HALL_CLOSED = true) ->
    let now := u32 (_opStart lc + elapsed) in
    let lc' := update now miso lc in
    (elapsed <= 10000 ->
     _state lc' = _state lc
     /\ getOutputState (_sr lc') = getOutputState (_sr lc)
     /\ getLastError lc' = getLastError lc)
    /\ (10000 < elapsed ->
        _state lc' = FAULT
        /\ getOutputState (_sr lc') = 0
        /\ getLastError lc'
           = Some (if LockerState_eqb (_state lc) UNLOCKING
                   then "Open timeout" else "Close timeout")%string).
Proof.
  intros elapsed miso lc Hstart He Hdiag Hcase now lc'.
  subst lc' now. open_update. rewrite Hdiag.
  cbn [andb _opStart with_sr].
  rewrite (elapsed_wraps (_opStart lc) elapsed Hstart He).
  unfold MOTOR_TIMEOUT_MS.
  destruct Hcase as [[Hst Hopen] | (Hst & Hir & Hclosed)]; rewrite Hst.
  - rewrite Hopen. cbn [negb LockerState_eqb].
    destruct (Z.ltb_spec 10000 elapsed) as [Hlt | Hge]; split; intros H;
      try lia; repeat split; cbn [_state with_sr]; assumption.
  - rewrite Hir, Hclosed. cbn [negb LockerState_eqb].
    destruct (Z.ltb_spec 10000 elapsed) as [Hlt | Hge]; split; intros H;
      try lia; repeat split; cbn [_state with_sr]; assumption.
Qed.

(** The timer was started 296 ms before the roll-over; 10001 ms later the
    clock reads 9705. *)
Lemma X5_witness :
  let lc := snd (unlock TEST_MODE 4294967000 booted_locker) in
  let lc' := update 9705 idle_sample lc in
  _state lc' = FAULT
  /\ getOutputState (_sr lc') = 0
  /\ getLastError lc' = Some "Open timeout"%string.
Proof.
  destruct (X5_motion_timeout 10001 idle_sample
              (snd (unlock TEST_MODE 4294967000 booted_locker)))
    as [_ H].
  - vm_compute. split; [discriminate | reflexivity].
  - lia.
  - reflexivity.
  - left. split; vm_compute; reflexivity.
  - apply H. lia.
Defined.

(** *** Door closed *)

(** X6. When an [update()] without motor fault samples the door-closed
    input asserted, a compartment in Open, or in Closing with the beam
    clear, becomes Locked with the LED off; from Closing the step output
    is cleared as well, and no other output changes. *)
Theorem X6_door_closed_locks :
  forall (now : Z) (miso : Z -> bool) (lc : LockerControl),
    miso IN_TMC_DIAG = false ->
    miso IN_HALL_CLOSED = false ->
    _state lc = OPEN \/ (_state lc = CLOSING /\ miso IN_IR_BEAM = true) ->
    let lc' := update now miso lc in
    _state lc' = LOCKED
    /\ led (getOutputs lc') = false
    /\ (_state lc = CLOSING ->
        bit_set (getOutputState (_sr lc')) OUT_STEP = false)
    /\ (forall b, 0 <= b < 8 -> b <> OUT_LED ->
          b <> OUT_STEP \/ _state lc = OPEN ->
          bit_set (getOutputState (_sr lc')) b
          = bit_set (getOutputState (_sr lc)) b)
    /\ getLastError lc' = getLastError lc.
Proof.
  intros now miso lc Hdiag Hclosed Hcase lc'. subst lc'.
  destruct Hcase as [Hst | [Hst Hir]].
  - assert (E : update now miso lc
                = with_state LOCKED
                    (sr_setOutput OUT_LED false
                       (with_sr (refresh miso (_sr lc)) lc))).
    { open_update. rewrite Hdiag, Hclosed, Hst. reflexivity. }
    rewrite E. unfold getOutputs.
    cbn [led _sr _state _lastError getLastError with_state sr_setOutput
         with_sr].
    split; [reflexivity |].
    split; [rewrite setOutput_bit by (unfold OUT_LED; lia); reflexivity |].
    split; [rewrite Hst; discriminate |].
    split; [| reflexivity].
    intros b Hb Hled _. rewrite setOutput_bit by (unfold OUT_LED; lia).
    destruct (Z.eqb_spec OUT_LED b) as [Eb | _]; [congruence | reflexivity].
  - assert (E : update now miso lc
                = with_state LOCKED
                    (sr_setOutput OUT_LED false
                       (sr_setOutput OUT_STEP false
                          (with_sr (refresh miso (_sr lc)) lc)))).
    { open_update. rewrite Hdiag, Hclosed, Hir, Hst. reflexivity. }
    rewrite E. unfold getOutputs.
    cbn [led _sr _state _lastError getLastError with_state sr_setOutput
         with_sr].
    split; [reflexivity |].
    split; [rewrite setOutput_bit by (unfold OUT_LED; lia); reflexivity |].
    split.
    { intros _. rewrite !setOutput_bit by (unfold OUT_LED, OUT_STEP; lia).
      reflexivity. }
    split; [| reflexivity].
    intros b Hb Hled [Hstep | Hopen]; [| congruence].
    rewrite !setOutput_bit by (unfold OUT_LED, OUT_STEP; lia).
    destruct (Z.eqb_spec OUT_LED b) as [Eb | _]; [congruence |].
    destruct (Z.eqb_spec OUT_STEP b) as [Eb | _]; [congruence | reflexivity].
Qed.

Lemma X6_witness :
  let lc' := update 5000 closed_sample closing_locker in
  _state lc' = LOCKED
  /\ led (getOutputs lc') = false
  /\ (_state closing_locker = CLOSING ->
      bit_set (getOutputState (_sr lc')) OUT_STEP = false)
  /\ (forall b, 0 <= b < 8 -> b <> OUT_LED ->
        b <> OUT_STEP \/ _state closing_locker = OPEN ->
        bit_set (getOutputState (_sr lc')) b
        = bit_set (getOutputState (_sr closing_locker)) b)
  /\ getLastError lc' = getLastError closing_locker.
Proof.
  apply (X6_door_closed_locks 5000 closed_sample closing_locker).
  - reflexivity.
  - reflexivity.
  - right. split; vm_compute; reflexivity.
Defined.

(** *** Output bits through the operations *)

(** Output bit [b] of the compartment. *)
Abbreviation out_bit lc b := (bit_set (getOutputState (_sr lc)) b).

Lemma getOutputState_emit (evs : list io_event) (sr : ShiftRegister) :
  getOutputState (emit evs sr) = getOutputState sr.
Proof. reflexivity. Qed.

Lemma getInputState_emit (evs : list io_event) (sr : ShiftRegister) :
  getInputState (emit evs sr) = getInputState sr.
Proof. reflexivity. Qed.

Lemma getOutputState_refresh (miso : Z -> bool) (sr : ShiftRegister) :
  getOutputState (refresh miso sr) = getOutputState sr.
Proof. reflexivity. Qed.

Lemma getOutputState_writeOutputs (d : Z) (sr : ShiftRegister) :
  getOutputState (writeOutputs d sr) = d.
Proof. reflexivity. Qed.

Ltac out_consts :=
  cbv [OUT_DIR OUT_LED OUT_UVC OUT_HEAT OUT_STEP OUT_SOLENOID OUT_ACT_LED
       OUT_SPARE] in *.

(** Pushes a question about an output bit through the record updates and
    the [setOutput] calls of an operation. *)
Ltac push_bits :=
  cbn [_sr _state _opStart _sanitizeEnd _lastError with_state with_opStart
       with_sanitizeEnd with_lastError sr_setOutput with_sr emergencyStop
       pause_us setLED setUVC setHeater fst snd];
  repeat first
    [ rewrite setOutput_bit by (out_consts; lia)
    | rewrite getOutputState_emit
    | rewrite getOutputState_refresh
    | rewrite getOutputState_writeOutputs ].

Lemma out_bit_setOutput (b b' : Z) (on : bool) (lc : LockerControl) :
  0 <= b <= 7 -> 0 <= b' < 8 ->
  out_bit (sr_setOutput b on lc) b' = if b =? b' then on else out_bit lc b'.
Proof. intros Hb Hb'. cbn [sr_setOutput _sr with_sr]. apply setOutput_bit; lia. Qed.

Lemma out_bit_step_pulse (d b : Z) (lc : LockerControl) :
  0 <= b < 8 ->
  out_bit (step_pulse d lc) b = if OUT_STEP =? b then false else out_bit lc b.
Proof.
  intros Hb. unfold step_pulse. push_bits.
  destruct (OUT_STEP =? b); reflexivity.
Qed.

Lemma step_pulse_keeps (d : Z) (lc : LockerControl) :
  _state (step_pulse d lc) = _state lc
  /\ _opStart (step_pulse d lc) = _opStart lc
  /\ _sanitizeEnd (step_pulse d lc) = _sanitizeEnd lc
  /\ _lastError (step_pulse d lc) = _lastError lc
  /\ getInputState (_sr (step_pulse d lc)) = getInputState (_sr lc).
Proof.
  unfold step_pulse. push_bits.
  repeat first [rewrite setOutput_input | rewrite getInputState_emit].
  repeat split.
Qed.

Lemma iter_step_pulse (n : nat) (d : Z) (lc0 : LockerControl) :
  (_state (Nat.iter n (step_pulse d) lc0) = _state lc0
   /\ _opStart (Nat.iter n (step_pulse d) lc0) = _opStart lc0
   /\ _sanitizeEnd (Nat.iter n (step_pulse d) lc0) = _sanitizeEnd lc0
   /\ _lastError (Nat.iter n (step_pulse d) lc0) = _lastError lc0
   /\ getInputState (_sr (Nat.iter n (step_pulse d) lc0))
      = getInputState (_sr lc0))
  /\ (forall b, 0 <= b < 8 ->
        out_bit (Nat.iter n (step_pulse d) lc0) b
        = if (OUT_STEP =? b) && negb (Nat.eqb n 0) then false
          else out_bit lc0 b).
Proof.
  induction n as [| n [IHk IHb]].
  - cbn. split; [repeat split |]. intros b Hb. rewrite andb_false_r.
    reflexivity.
  - cbn [Nat.iter nat_rect].
    pose proof (step_pulse_keeps d (Nat.iter n (step_pulse d) lc0)) as K.
    unfold Nat.iter in *.
    destruct K as (K1 & K2 & K3 & K4 & K5).
    destruct IHk as (I1 & I2 & I3 & I4 & I5).
    split; [repeat split; congruence |].
    intros b Hb. rewrite out_bit_step_pulse by lia.
    cbn [Nat.eqb negb]. rewrite andb_true_r.
    destruct (OUT_STEP =? b) eqn:E; [reflexivity |].
    rewrite IHb by lia. rewrite E. reflexivity.
Qed.

Lemma stepMotor_out_bit (steps : Z) (fwd : bool) (delayUs : Z)
    (lc : LockerControl) (b : Z) :
  0 <= b < 8 ->
  out_bit (stepMotor steps fwd delayUs lc) b
  = if (OUT_STEP =? b) && (0 <? steps) then false
    else if OUT_DIR =? b then fwd else out_bit lc b.
Proof.
  intros Hb. unfold stepMotor. cbv zeta.
  destruct (iter_step_pulse (Z.to_nat steps) delayUs
              (pause_us 10 (sr_setOutput OUT_DIR fwd lc))) as [_ H].
  rewrite H by lia. push_bits.
  replace (negb (Nat.eqb (Z.to_nat steps) 0)) with (0 <? steps);
    [reflexivity |].
  destruct (Z.ltb_spec 0 steps) as [Hpos | Hle].
  - destruct (Z.to_nat steps) eqn:E; [lia | reflexivity].
  - replace (Z.to_nat steps) with 0%nat by lia. reflexivity.
Qed.

(** X7. [stepMotor(steps, fwd)] drives the motor whatever the state and the
    sensors: it reads no input and changes neither the state, the timers
    nor the error; when it returns the direction output equals [fwd], the
    step output is low if at least one step was asked for and untouched
    otherwise (a count of zero or less makes no pulse), and every other
    output is as before. *)
Theorem X7_stepMotor_effect :
  forall (steps : Z) (fwd : bool) (delayUs : Z) (lc : LockerControl),
    let lc' := stepMotor steps fwd delayUs lc in
    _state lc' = _state lc
    /\ _opStart lc' = _opStart lc
    /\ _sanitizeEnd lc' = _sanitizeEnd lc
    /\ getLastError lc' = getLastError lc
    /\ getInputState (_sr lc') = getInputState (_sr lc)
    /\ out_bit lc' OUT_DIR = fwd
    /\ out_bit lc' OUT_STEP
       = (if 0 <? steps then false else out_bit lc OUT_STEP)
    /\ (forall b, 0 <= b < 8 -> b <> OUT_DIR -> b <> OUT_STEP ->
          out_bit lc' b = out_bit lc b).
Proof.
  intros steps fwd delayUs lc lc'.
  assert (K : _state lc' = _state lc /\ _opStart lc' = _opStart lc
              /\ _sanitizeEnd lc' = _sanitizeEnd lc
              /\ _lastError lc' = _lastError lc
              /\ getInputState (_sr lc') = getInputState (_sr lc)).
  { subst lc'. unfold stepMotor. cbv zeta.
    destruct (iter_step_pulse (Z.to_nat steps) delayUs
                (pause_us 10 (sr_setOutput OUT_DIR fwd lc)))
      as [(K1 & K2 & K3 & K4 & K5) _].
    rewrite K1, K2, K3, K4, K5. push_bits.
    repeat first [rewrite setOutput_input | rewrite getInputState_emit].
    repeat split. }
  destruct K as (K1 & K2 & K3 & K4 & K5).
  split; [exact K1 |]. split; [exact K2 |]. split; [exact K3 |].
  split; [exact K4 |]. split; [exact K5 |]. subst lc'.
  split.
  { rewrite stepMotor_out_bit by (out_consts; lia).
    change (OUT_STEP =? OUT_DIR) with false.
    change (OUT_DIR =? OUT_DIR) with true. reflexivity. }
  split.
  { rewrite stepMotor_out_bit by (out_consts; lia).
    change (OUT_STEP =? OUT_STEP) with true.
    change (OUT_DIR =? OUT_STEP) with false. cbn [andb].
    destruct (0 <? steps); reflexivity. }
  intros b Hb Hd Hs. rewrite stepMotor_out_bit by lia.
  destruct (Z.eqb_spec OUT_STEP b) as [E | _]; [congruence |].
  destruct (Z.eqb_spec OUT_DIR b) as [E | _]; [congruence | reflexivity].
Qed.

(** *** The solenoid *)

(** Decides the comparisons of two output-bit numbers. *)
Ltac decide_consts :=
  repeat match goal with
  | |- context [?a =? ?b] =>
      let v := eval vm_compute in (a =? b) in
      match v with
      | true => change (a =? b) with true
      | false => change (a =? b) with false
      end
  end.

Lemma update_keeps_solenoid_off (now : Z) (miso : Z -> bool)
    (lc : LockerControl) :
  out_bit lc OUT_SOLENOID = false ->
  out_bit (update now miso lc) OUT_SOLENOID = false.
Proof.
  intros H. unfold update. cbv zeta.
  cbn [_state _opStart _sanitizeEnd with_sr].
  repeat match goal with
  | |- context [if ?c then _ else _] => destruct c
  | |- context [match _state lc with _ => _ end] => destruct (_state lc)
  end;
    push_bits; decide_consts; first [exact H | apply bit_set_zero].
Qed.

Lemma execute_keeps_solenoid_off (c : Command) (lc : LockerControl) :
  out_bit lc OUT_SOLENOID = false ->
  out_bit (execute c lc) OUT_SOLENOID = false.
Proof.
  intros H. destruct c as [now miso | now | now | now ms | on | on | on
                          | steps fwd]; cbn [execute].
  - apply update_keeps_solenoid_off. exact H.
  - unfold unlock. destruct (isBusy lc); [exact H |].
    cbn [TEST_MODE checkSafety negb]. push_bits. decide_consts. reflexivity.
  - unfold lock. destruct (irBeamClear (getSensors lc)); cbn [negb];
      [| exact H].
    cbn [TEST_MODE checkSafety negb]. push_bits. decide_consts. exact H.
  - unfold startSanitize.
    destruct (doorClosed (getSensors lc)); cbn [negb]; [| exact H].
    destruct (isBusy lc); [exact H |].
    push_bits. decide_consts. exact H.
  - push_bits. decide_consts. exact H.
  - push_bits. decide_consts. exact H.
  - push_bits. decide_consts. exact H.
  - rewrite stepMotor_out_bit by (out_consts; lia). decide_consts.
    cbn [andb]. exact H.
Qed.

(** X8. The solenoid is never left energised: after [setup()], whatever
    sequence of [update()] cycles, unlock, lock, sanitize, output and
    motor requests the compartment goes through, and whatever the sensors
    report, the solenoid output is off when the operation returns. *)
Theorem X8_solenoid_never_left_on :
  forall (miso0 : Z -> bool) (cs : list Command),
    solenoid (getOutputs (run cs (LockerControl_begin miso0 fresh_locker)))
    = false.
Proof.
  intros miso0 cs.
  assert (Hrun : forall cs lc,
             out_bit lc OUT_SOLENOID = false ->
             out_bit (run cs lc) OUT_SOLENOID = false).
  { clear. induction cs as [| c cs IH]; intros lc H; [exact H |].
    cbn [run fold_left]. apply IH. apply execute_keeps_solenoid_off.
    exact H. }
  unfold getOutputs. cbn [solenoid]. apply Hrun.
  destruct (begin_facts miso0 fresh_locker) as (_ & Hz & _).
  rewrite Hz. apply bit_set_zero.
Qed.

(** *** [unlock()] *)

Lemma setOutput_unfold (b : Z) (on : bool) (sr : ShiftRegister) :
  b <= 7 ->
  let w := if on then u8 (Z.lor (getOutputState sr) (Z.shiftl 1 b))
           else u8 (Z.land (getOutputState sr) (Z.lnot (Z.shiftl 1 b))) in
  getOutputState (setOutput b on sr) = w
  /\ _csPin (setOutput b on sr) = _csPin sr
  /\ wire (setOutput b on sr) = wire sr ++ write_sequence (_csPin sr) w.
Proof.
  intros Hb w. subst w. unfold setOutput.
  destruct (Z.ltb_spec 7 b) as [Hgt | _]; [lia |].
  destruct on; repeat split.
Qed.

(** X9. In the firmware as built [unlock()] succeeds from every state that
    is not busy, Fault included: it raises the solenoid output, waits
    50 ms, lowers it again, then sets the direction and LED outputs,
    enters Unlocking and starts the timer; the UV, heater, step and spare
    outputs and the error text are left as they were. *)
Theorem X9_unlock_from_any_idle_state :
  forall (now : Z) (lc : LockerControl),
    isBusy lc = false ->
    let cs := _csPin (_sr lc) in
    let o := getOutputState (_sr lc) in
    let w1 := u8 (Z.lor o (Z.shiftl 1 OUT_SOLENOID)) in
    let w2 := u8 (Z.land w1 (Z.lnot (Z.shiftl 1 OUT_SOLENOID))) in
    let w3 := u8 (Z.lor w2 (Z.shiftl 1 OUT_DIR)) in
    let w4 := u8 (Z.lor w3 (Z.shiftl 1 OUT_LED)) in
    let lc' := snd (unlock TEST_MODE now lc) in
    fst (unlock TEST_MODE now lc) = true
    /\ _state lc' = UNLOCKING
    /\ _opStart lc' = now
    /\ getLastError lc' = getLastError lc
    /\ wire (_sr lc')
       = wire (_sr lc) ++ write_sequence cs w1 ++ [Delay SOLENOID_PULSE_MS]
           ++ write_sequence cs w2 ++ write_sequence cs w3
           ++ write_sequence cs w4
    /\ bit_set w1 OUT_SOLENOID = true
    /\ out_bit lc' OUT_SOLENOID = false
    /\ out_bit lc' OUT_DIR = true
    /\ out_bit lc' OUT_LED = true
    /\ (forall b, 0 <= b < 8 -> b <> OUT_SOLENOID -> b <> OUT_DIR ->
          b <> OUT_LED -> out_bit lc' b = out_bit lc b).
Proof.
  intros now lc Hbusy cs o w1 w2 w3 w4 lc'. subst lc'.
  unfold unlock. rewrite Hbusy. cbn [TEST_MODE checkSafety negb fst snd].
  split; [reflexivity |]. split; [reflexivity |]. split; [reflexivity |].
  split; [reflexivity |].
  split.
  { cbn [_sr with_opStart with_state sr_setOutput with_sr].
    set (s1 := setOutput OUT_SOLENOID true (_sr lc)).
    set (s2 := setOutput OUT_SOLENOID false (emit [Delay SOLENOID_PULSE_MS] s1)).
    set (s3 := setOutput OUT_DIR true s2).
    destruct (setOutput_unfold OUT_SOLENOID true (_sr lc))
      as (A1 & A2 & A3); [out_consts; lia |].
    destruct (setOutput_unfold OUT_SOLENOID false
                (emit [Delay SOLENOID_PULSE_MS] s1))
      as (B1 & B2 & B3); [out_consts; lia |].
    destruct (setOutput_unfold OUT_DIR true s2)
      as (C1 & C2 & C3); [out_consts; lia |].
    destruct (setOutput_unfold OUT_LED true s3)
      as (D1 & D2 & D3); [out_consts; lia |].
    cbv zeta in A1, A3, B1, B3, C1, C3, D1, D3.
    fold s1 in A1, A2, A3. fold s2 in B1, B2, B3. fold s3 in C1, C2, C3.
    rewrite D3, C3, B3.
    rewrite C2, B2, C1, B1.
    rewrite getOutputState_emit.
    change (_csPin (emit [Delay SOLENOID_PULSE_MS] s1)) with (_csPin s1).
    change (wire (emit [Delay SOLENOID_PULSE_MS] s1))
      with (wire s1 ++ [Delay SOLENOID_PULSE_MS]).
    rewrite A3, A2, A1. subst w4 w3 w2 w1 o cs.
    rewrite <- !app_assoc. reflexivity. }
  split.
  { subst w1. rewrite bit_set_after_set by (out_consts; lia).
    rewrite Z.eqb_refl. apply orb_true_r. }
  split; [push_bits; decide_consts; reflexivity |].
  split; [push_bits; decide_consts; reflexivity |].
  split; [push_bits; decide_consts; reflexivity |].
  intros b Hb Hs Hd Hl. push_bits.
  destruct (Z.eqb_spec OUT_LED b) as [E | _]; [congruence |].
  destruct (Z.eqb_spec OUT_DIR b) as [E | _]; [congruence |].
  destruct (Z.eqb_spec OUT_SOLENOID b) as [E | _]; [congruence |].
  reflexivity.
Qed.

(** A compartment that went to Fault on a motor fault is unlocked. *)
Lemma X9_witness :
  let lc := update 5 all_high booted_locker in
  _state lc = FAULT
  /\ fst (unlock TEST_MODE 100 lc) = true
  /\ _state (snd (unlock TEST_MODE 100 lc)) = UNLOCKING.
Proof.
  cbv zeta.
  destruct (X9_unlock_from_any_idle_state 100
              (update 5 all_high booted_locker)) as (H1 & H2 & _).
  - vm_compute. reflexivity.
  - split; [vm_compute; reflexivity |]. split; [exact H1 | exact H2].
Defined.

(** *** Direct output toggles *)

(** X10. [setLED], [setUVC] and [setHeater] consult neither the state nor
    the sensors and cannot fail: the named output takes the requested
    value, every other output bit keeps its value, and the state, the
    timers, the error text and the cached sensor word are unchanged. *)
Theorem X10_output_toggles :
  forall (on : bool) (lc : LockerControl),
    let l1 := setLED on lc in
    let l2 := setUVC on lc in
    let l3 := setHeater on lc in
    (forall b, 0 <= b < 8 ->
        out_bit l1 b = (if OUT_LED =? b then on else out_bit lc b)
        /\ out_bit l2 b = (if OUT_UVC =? b then on else out_bit lc b)
        /\ out_bit l3 b = (if OUT_HEAT =? b then on else out_bit lc b))
    /\ (led (getOutputs l1) = on /\ uvc (getOutputs l2) = on
        /\ heater (getOutputs l3) = on)
    /\ (forall l, l = l1 \/ l = l2 \/ l = l3 ->
          _state l = _state lc
          /\ _opStart l = _opStart lc
          /\ _sanitizeEnd l = _sanitizeEnd lc
          /\ getLastError l = getLastError lc
          /\ getSensors l = getSensors lc).
Proof.
  intros on lc l1 l2 l3. subst l1 l2 l3. unfold setLED, setUVC, setHeater.
  split.
  { intros b Hb. rewrite !out_bit_setOutput by (out_consts; lia).
    repeat split. }
  split.
  { unfold getOutputs. cbn [led uvc heater].
    rewrite !out_bit_setOutput by (out_consts; lia).
    rewrite !Z.eqb_refl. repeat split. }
  intros l [-> | [-> | ->]];
    (split; [reflexivity |]; split; [reflexivity |]; split; [reflexivity |];
     split; [reflexivity |];
     unfold getSensors; cbn [_sr sr_setOutput with_sr];
     rewrite setOutput_input; reflexivity).
Qed.

(** *** The driver *)

(** X11. [readInputs()] assembles the byte most significant bit first:
    when the input register presents the bits of a byte [w] (bit [i] in
    the iteration for bit [i]), the function returns [w] and caches [w] as
    the input state. *)
Theorem X11_readInputs_decodes_the_word :
  forall (w : Z) (sr : ShiftRegister),
    0 <= w < 256 ->
    fst (readInputs (bit_set w) sr) = w
    /\ getInputState (snd (readInputs (bit_set w) sr)) = w.
Proof.
  intros w sr Hw.
  assert (E : read_word (bit_set w) = w).
  { pose proof (read_word_range (bit_set w)) as Hr.
    apply Z.bits_inj'. intros n Hn.
    destruct (Z.ltb_spec n 8) as [Hlt | Hge].
    - rewrite <- !bit_set_testbit by lia.
      apply read_word_bit. unfold bits_msb_first.
      assert (Hc : n = 0 \/ n = 1 \/ n = 2 \/ n = 3 \/ n = 4 \/ n = 5
                   \/ n = 6 \/ n = 7) by lia.
      cbn. intuition auto.
    - rewrite <- (Z.mod_small (read_word (bit_set w)) (2 ^ 8)) by
        (change (2 ^ 8) with 256; lia).
      rewrite <- (Z.mod_small w (2 ^ 8)) by (change (2 ^ 8) with 256; lia).
      rewrite !Z.mod_pow2_bits_high by lia. reflexivity. }
  split; [exact E |]. cbn. exact E.
Qed.

Lemma X11_witness :
  fst (readInputs (bit_set 165) (ShiftRegister_new 0)) = 165
  /\ getInputState (snd (readInputs (bit_set 165) (ShiftRegister_new 0)))
     = 165.
Proof. apply (X11_readInputs_decodes_the_word 165). lia. Defined.

Lemma clock_edges_app (l1 l2 : list io_event) :
  clock_edges (l1 ++ l2) = (clock_edges l1 + clock_edges l2)%nat.
Proof. unfold clock_edges. rewrite List.filter_app. apply length_app. Qed.

Lemma clock_edges_clock_out (d i : Z) : clock_edges (clock_out d i) = 1%nat.
Proof.
  unfold clock_out. generalize (negb (Z.land (Z.shiftr d i) 1 =? 0)).
  intros []; reflexivity.
Qed.

Lemma clock_edges_clock_in (pin : Z) (level : bool) :
  clock_edges (clock_in pin level) = 1%nat.
Proof. reflexivity. Qed.

(** X12. Every access of the driver releases the chip select and uses
    whole bytes of clock pulses: the last thing [writeOutputs],
    [readInputs] and [setOutput] do on the pins is to drive the chip
    select of the compartment low; a write makes 8 rising edges on the
    shared clock and a read, with its re-assertion of the outputs, 16. *)
Theorem X12_chip_select_released :
  forall (d : Z) (miso : Z -> bool) (bit : Z) (on : bool)
         (sr : ShiftRegister),
    _csPin sr <> SR_CLK ->
    bit <= 7 ->
    let idle := DigitalWrite (_csPin sr) false in
    List.last (wire (writeOutputs d sr)) (Delay 0) = idle
    /\ List.last (wire (snd (readInputs miso sr))) (Delay 0) = idle
    /\ List.last (wire (setOutput bit on sr)) (Delay 0) = idle
    /\ clock_edges (write_sequence (_csPin sr) d) = 8%nat
    /\ clock_edges (read_sequence (_misoPin sr) miso
                    ++ write_sequence (_csPin sr) (getOutputState sr))
       = 16%nat.
Proof.
  intros d miso bit on sr Hcs Hbit idle.
  assert (L : forall (l : list io_event) c w,
             List.last (l ++ write_sequence c w) (Delay 0)
             = DigitalWrite c false).
  { intros l c w. unfold write_sequence.
    rewrite !app_assoc.
    match goal with |- List.last (?a ++ ?b) _ = _ =>
      change b with ([DigitalWrite SR_LATCH false; DelayMicroseconds 1;
                      DigitalWrite SR_LATCH true; DelayMicroseconds 1]
                     ++ [DigitalWrite c false])
    end.
    rewrite app_assoc. apply last_last. }
  assert (W : forall w, clock_edges (write_sequence (_csPin sr) w) = 8%nat).
  { intros w. unfold write_sequence, bits_msb_first. cbn [flat_map].
    rewrite !clock_edges_app, !clock_edges_clock_out.
    unfold clock_edges. cbn [List.filter length].
    destruct (Z.eqb_spec (_csPin sr) SR_CLK) as [E | _]; [contradiction |].
    reflexivity. }
  split; [apply L |].
  split; [cbn [readInputs snd]; apply L |].
  split.
  { unfold setOutput. destruct (Z.ltb_spec 7 bit) as [Hgt | _]; [lia |].
    apply L. }
  split; [apply W |].
  rewrite clock_edges_app, W.
  unfold read_sequence, bits_msb_first. cbn [flat_map].
  rewrite !clock_edges_app, !clock_edges_clock_in. reflexivity.
Qed.

Lemma X12_witness :
  let sr := _sr booted_locker in
  let idle := DigitalWrite (_csPin sr) false in
  List.last (wire (writeOutputs 3 sr)) (Delay 0) = idle
  /\ List.last (wire (snd (readInputs idle_sample sr))) (Delay 0) = idle
  /\ List.last (wire (setOutput 1 true sr)) (Delay 0) = idle
  /\ clock_edges (write_sequence (_csPin sr) 3) = 8%nat
  /\ clock_edges (read_sequence (_misoPin sr) idle_sample
                  ++ write_sequence (_csPin sr) (getOutputState sr))
     = 16%nat.
Proof.
  apply (X12_chip_select_released 3 idle_sample 1 true (_sr booted_locker)).
  - vm_compute. discriminate.
  - lia.
Defined.

(** *** Sensor events *)

Abbreviation event_of name i := ({| se_event := name; se_index := i |}).

(** X13. In the first [checkSensorChanges()] after [setup()], where every
    entry of [prevSensorStates] is 0xFF, a compartment reports no door
    event at all, whatever its doors do, and reports ITEM_REMOVED exactly
    when its occupancy input says empty; the entry then holds the sample. *)
Theorem X13_first_sensor_check :
  forall (l0 l1 l2 : LockerControl),
    let removed i (lc : LockerControl) :=
      if occupied (getSensors lc) then []
      else [event_of "ITEM_REMOVED"%string i] in
    checkSensorChanges [l0; l1; l2] initial_prevSensorStates
    = (removed 0 l0 ++ removed 1 l1 ++ removed 2 l2,
       [sensor_mask (getSensors l0); sensor_mask (getSensors l1);
        sensor_mask (getSensors l2)]).
Proof.
  intros l0 l1 l2 removed.
  assert (H : forall i s,
             check_locker i s 255
             = ((if occupied s then []
                 else [event_of "ITEM_REMOVED"%string i]),
                sensor_mask s)).
  { intros i [dc dop ir oc t so mf].
    destruct dc, dop, ir, oc, so, mf; reflexivity. }
  unfold checkSensorChanges, initial_prevSensorStates. cbn [check_from].
  rewrite !H. cbn [Z.add Pos.add]. subst removed. cbn beta.
  rewrite app_nil_r. reflexivity.
Qed.

(** X14. From the second check on, where the entry of [prevSensorStates]
    is the byte of the previous sample, the events of a compartment are
    the rising edges of door-closed and door-open and both edges of the
    occupancy input, in this order; the falling edges of the door inputs
    and every change of the IR beam, the motor-fault and the safety
    inputs are sent to nobody. The entry then holds the new sample, so a
    repeated sample gives no event. *)
Theorem X14_sensor_edges :
  forall (i : Z) (s0 s : SensorState),
    check_locker i s (sensor_mask s0)
    = ((if negb (doorClosed s0) && doorClosed s
        then [event_of "DOOR_CLOSED"%string i] else [])
       ++ (if negb (doorOpen s0) && doorOpen s
           then [event_of "DOOR_OPENED"%string i] else [])
       ++ (if xorb (occupied s0) (occupied s)
           then [event_of (if occupied s then "ITEM_PLACED"
                           else "ITEM_REMOVED")%string i]
           else []),
       sensor_mask s)
    /\ check_locker i s (sensor_mask s) = ([], sensor_mask s).
Proof.
  intros i [dc0 dop0 ir0 oc0 t0 so0 mf0] [dc dop ir oc t so mf].
  split.
  - destruct dc0, dop0, ir0, oc0, so0, mf0, dc, dop, ir, oc, so, mf;
      vm_compute; reflexivity.
  - destruct dc, dop, ir, oc, so, mf; reflexivity.
Qed.

Lemma check_locker_events (i : Z) (s : SensorState) (p : Z) (e : SentEvent) :
  In e (fst (check_locker i s p)) ->
  In (se_event e)
     ["DOOR_CLOSED"; "DOOR_OPENED"; "ITEM_PLACED"; "ITEM_REMOVED"]%string
  /\ se_index e = i.
Proof.
  unfold check_locker.
  destruct (sensor_mask s =? p); [intros [] |].
  cbn [fst].
  destruct (negb (Z.land (sensor_mask s) 1 =? Z.land p 1) && doorClosed s),
    (negb (Z.land (sensor_mask s) 2 =? Z.land p 2) && doorOpen s),
    (negb (Z.land (sensor_mask s) 4 =? Z.land p 4)),
    (occupied s);
    cbn [app In]; intros H;
    repeat (destruct H as [<- | H]; [cbn; auto 10 |]); destruct H.
Qed.

Lemma check_from_events (i : Z) (lockers : list LockerControl)
    (prev : list Z) (e : SentEvent) :
  In e (fst (check_from i lockers prev)) ->
  In (se_event e)
     ["DOOR_CLOSED"; "DOOR_OPENED"; "ITEM_PLACED"; "ITEM_REMOVED"]%string
  /\ i <= se_index e < i + Z.of_nat (length lockers).
Proof.
  revert i prev.
  induction lockers as [| lc lockers IH]; intros i prev Hin;
    [destruct Hin |].
  destruct prev as [| p prev]; [destruct Hin |].
  cbn [check_from] in Hin.
  pose proof (check_locker_events i (getSensors lc) p e) as Hone.
  destruct (check_locker i (getSensors lc) p) as [evs p'].
  specialize (IH (i + 1) prev).
  destruct (check_from (i + 1) lockers prev) as [rest prev''].
  cbn [fst] in *. apply in_app_or in Hin. destruct Hin as [Hin | Hin].
  - destruct (Hone Hin) as [Hn Hi]. split; [exact Hn |].
    cbn [length]. lia.
  - destruct (IH Hin) as [Hn Hi]. split; [exact Hn |].
    cbn [length]. lia.
Qed.

(** X15. [checkSensorChanges()] never sends anything but DOOR_CLOSED,
    DOOR_OPENED, ITEM_PLACED and ITEM_REMOVED, each for the index of a
    compartment it was given; a motor fault or a tripped safety input is
    never the subject of an event, whatever [prevSensorStates] holds. *)
Theorem X15_only_four_event_kinds :
  forall (lockers : list LockerControl) (prev : list Z) (e : SentEvent),
    In e (fst (checkSensorChanges lockers prev)) ->
    In (se_event e)
       ["DOOR_CLOSED"; "DOOR_OPENED"; "ITEM_PLACED"; "ITEM_REMOVED"]%string
    /\ 0 <= se_index e < Z.of_nat (length lockers).
Proof.
  intros lockers prev e Hin. unfold checkSensorChanges in Hin.
  destruct (check_from_events 0 lockers prev e Hin) as [Hn Hi].
  split; [exact Hn | lia].
Qed.

(** The compartment that went to Fault on a motor fault, at the first
    check: the only event is ITEM_REMOVED. *)
Lemma X15_witness :
  In (se_event (event_of "ITEM_REMOVED"%string 0))
     ["DOOR_CLOSED"; "DOOR_OPENED"; "ITEM_PLACED"; "ITEM_REMOVED"]%string
  /\ 0 <= se_index (event_of "ITEM_REMOVED"%string 0)
     < Z.of_nat (length [update 5 all_high booted_locker]).
Proof.
  apply (X15_only_four_event_kinds [update 5 all_high booted_locker] [255]).
  vm_compute. left. reflexivity.
Defined.

(** *** The network cycle *)

Lemma disconnected_is_silent (inputs : list CycleInput) (st : NetState) :
  networkConnected st = false -> network_cycles inputs st = ([], st).
Proof.
  revert st. induction inputs as [| c rest IH]; intros st H; [reflexivity |].
  cbn [network_cycles]. unfold updateNetwork. rewrite H. cbn [negb].
  rewrite (IH st H). reflexivity.
Qed.

(** X16. A cycle that finds the link down sends nothing and clears both
    [networkConnected] and [announced]; since nothing in the loop sets
    [networkConnected] again, no later cycle announces, sends a heartbeat
    or reports an event, even when the link is back. *)
Theorem X16_link_loss_is_final :
  forall (c : CycleInput) (rest : list CycleInput) (st : NetState),
    ci_linkOff c = true ->
    fst (network_cycles (c :: rest) st) = []
    /\ networkConnected (snd (network_cycles (c :: rest) st)) = false
    /\ (networkConnected st = true ->
        announced (snd (network_cycles (c :: rest) st)) = false).
Proof.
  intros c rest st Hoff. cbn [network_cycles]. unfold updateNetwork.
  rewrite Hoff. destruct (networkConnected st) eqn:Hc; cbn [negb].
  - rewrite disconnected_is_silent by reflexivity. repeat split.
  - rewrite disconnected_is_silent by exact Hc. cbn. split; [reflexivity |].
    split; [exact Hc | discriminate].
Qed.

Lemma X16_witness :
  let down := {| ci_linkOff := true; ci_now := 6000; ci_announce_ok := true;
                 ci_lockers := [booted_locker] |} in
  let up := {| ci_linkOff := false; ci_now := 60000; ci_announce_ok := true;
               ci_lockers := [open_locker] |} in
  fst (network_cycles [down; up; up] net_after_setup) = []
  /\ networkConnected (snd (network_cycles [down; up; up] net_after_setup))
     = false
  /\ (networkConnected net_after_setup = true ->
      announced (snd (network_cycles [down; up; up] net_after_setup))
      = false).
Proof.
  apply (X16_link_loss_is_final
           {| ci_linkOff := true; ci_now := 6000; ci_announce_ok := true;
              ci_lockers := [booted_locker] |}).
  reflexivity.
Defined.

(** X17. No heartbeat goes out before an announce has been acknowledged:
    starting unannounced, as long as every [sendAnnounce()] fails, the
    cycles post announces and sensor events only, and the column stays
    unannounced. *)
Theorem X17_no_heartbeat_before_announce :
  forall (inputs : list CycleInput) (st : NetState),
    announced st = false ->
    Forall (fun c => ci_announce_ok c = false) inputs ->
    ~ In PostHeartbeat (fst (network_cycles inputs st))
    /\ announced (snd (network_cycles inputs st)) = false.
Proof.
  intros inputs. induction inputs as [| c rest IH]; intros st Ha Hall.
  - cbn. split; [tauto | exact Ha].
  - inversion Hall as [| c' rest' Hc Hrest]; subst.
    cbn [network_cycles].
    destruct (updateNetwork (ci_linkOff c) (ci_now c) (ci_announce_ok c)
                (ci_lockers c) st) as [out st1] eqn:Hu.
    assert (H1 : ~ In PostHeartbeat out /\ announced st1 = false).
    { unfold updateNetwork in Hu. rewrite Ha, Hc in Hu.
      destruct (networkConnected st); cbn [negb] in Hu.
      2: { injection Hu as <- <-. split; [tauto | exact Ha]. }
      destruct (ci_linkOff c).
      { injection Hu as <- <-. split; [tauto | reflexivity]. }
      destruct (checkSensorChanges (ci_lockers c) (prevSensorStates st))
        as [evs prev1].
      cbn [andb negb] in Hu.
      replace (if ANNOUNCE_RETRY <? u32 (ci_now c - lastAnnounce st)
               then false else false) with false in Hu
        by (destruct (ANNOUNCE_RETRY <? u32 (ci_now c - lastAnnounce st));
            reflexivity).
      cbn [andb] in Hu. injection Hu as <- <-. split; [| reflexivity].
      intros Hin. apply in_app_or in Hin. destruct Hin as [Hin | Hin].
      - destruct (ANNOUNCE_RETRY <? u32 (ci_now c - lastAnnounce st));
          [destruct Hin as [Hin | []]; discriminate | destruct Hin].
      - cbn [app] in Hin. apply in_map_iff in Hin.
        destruct Hin as (x & Hx & _). discriminate. }
    destruct H1 as [Hout Ha1].
    destruct (IH st1 Ha1 Hrest) as [Hrest_out Hfinal].
    destruct (network_cycles rest st1) as [outs st2]. cbn [fst snd] in *.
    split; [| exact Hfinal].
    intros Hin. apply in_app_or in Hin. tauto.
Qed.

Lemma X17_witness :
  let c t := {| ci_linkOff := false; ci_now := t; ci_announce_ok := false;
                ci_lockers := [booted_locker] |} in
  ~ In PostHeartbeat
      (fst (network_cycles [c 6000; c 40000; c 80000] net_after_setup))
  /\ announced (snd (network_cycles [c 6000; c 40000; c 80000]
                       net_after_setup)) = false.
Proof.
  cbv zeta.
  apply (X17_no_heartbeat_before_announce
           [ {| ci_linkOff := false; ci_now := 6000; ci_announce_ok := false;
                ci_lockers := [booted_locker] |};
             {| ci_linkOff := false; ci_now := 40000; ci_announce_ok := false;
                ci_lockers := [booted_locker] |};
             {| ci_linkOff := false; ci_now := 80000; ci_announce_ok := false;
                ci_lockers := [booted_locker] |} ] net_after_setup).
  - reflexivity.
  - repeat constructor.
Defined.

End FirmwareExtra.

(** ** Part VI: further properties of the coordinator *)

Module CoordinatorExtra.

Import Coordinator CoordinatorApi CoordinatorSpec.
Local Open Scope Z_scope.

(** *** Announce *)

Lemma ensure_keeps (col : string) (now : Z) (t : gmap string Compartment)
    (i : nat) (k : string) (c : Compartment) :
  t !! k = Some c -> ensure_compartment col now t i !! k = Some c.
Proof.
  intros H. unfold ensure_compartment. cbv zeta.
  destruct (t !! (col +:+ "-" +:+ pretty i)) as [c0 |] eqn:E; [exact H |].
  rewrite lookup_insert_ne; [exact H |]. intros Hk. subst k. congruence.
Qed.

Lemma ensure_makes (col : string) (now : Z) (t : gmap string Compartment)
    (i : nat) :
  is_Some (ensure_compartment col now t i !! (col +:+ "-" +:+ pretty i)).
Proof.
  unfold ensure_compartment. cbv zeta.
  destruct (t !! (col +:+ "-" +:+ pretty i)) as [c0 |] eqn:E.
  - rewrite E. eauto.
  - rewrite lookup_insert_eq. eauto.
Qed.

Lemma ensure_origin (col : string) (now : Z) (t : gmap string Compartment)
    (i : nat) (k : string) (c : Compartment) :
  ensure_compartment col now t i !! k = Some c ->
  t !! k = Some c
  \/ (status c = "available"%string /\ currentOrderId c = None
      /\ columnId c = col /\ t !! k = None).
Proof.
  unfold ensure_compartment. cbv zeta.
  destruct (t !! (col +:+ "-" +:+ pretty i)) as [c0 |] eqn:E; [auto |].
  destruct (decide (col +:+ "-" +:+ pretty i = k)) as [<- | Hne].
  - rewrite lookup_insert_eq. intros [= <-]. right. repeat split. exact E.
  - rewrite lookup_insert_ne by exact Hne. auto.
Qed.

Lemma ensure_all (col : string) (now : Z) (l : list nat)
    (t : gmap string Compartment) :
  let t' := fold_left (ensure_compartment col now) l t in
  (forall k c, t !! k = Some c -> t' !! k = Some c)
  /\ (forall i, In i l -> is_Some (t' !! (col +:+ "-" +:+ pretty i)))
  /\ (forall k c, t' !! k = Some c ->
        t !! k = Some c
        \/ (status c = "available"%string /\ currentOrderId c = None
            /\ columnId c = col /\ t !! k = None)).
Proof.
  revert t. induction l as [| i l IH]; intros t; cbn [fold_left].
  - split; [auto |]. split; [intros i [] | auto].
  - destruct (IH (ensure_compartment col now t i)) as (K & M & O).
    split; [intros k c H; apply K, ensure_keeps, H |].
    split.
    + intros j [<- | Hj]; [| apply M, Hj].
      destruct (ensure_makes col now t i) as [c Hc].
      exists c. apply K, Hc.
    + intros k c H. destruct (O k c H) as [H1 | (S1 & S2 & S3 & S4)].
      * apply (ensure_origin col now t i k c H1).
      * right. repeat split; try assumption.
        destruct (t !! k) as [c0 |] eqn:E; [| reflexivity].
        rewrite (ensure_keeps col now t i k c0 E) in S4. discriminate.
Qed.

(** X18. An announce registers the column as seen now and online, with one
    default sensor record per compartment, and makes sure a row exists for
    each of its compartment ids. Rows that exist already are left exactly
    as they are, so a column that reboots keeps the status and the order
    binding of its compartments; every row the announce creates is
    'available' and unbound. Orders are not touched and nothing is sent. *)
Theorem X18_announce_registers_and_keeps_rows :
  forall (data : AnnounceData) (w : World),
    let w' := handleColumnAnnounce data w in
    let col := an_columnId data in
    columnRegistry w' !! col
    = Some {| col_id := col; ip := an_ip data; port := an_port data;
              lockerCount := an_lockerCount data;
              firmwareVersion := an_firmwareVersion data;
              lastSeen := clock w; isOnline := true;
              sensors := replicate (an_lockerCount data) default_sensors |}
    /\ isColumnOnline col w' = true
    /\ (forall i, (i < an_lockerCount data)%nat ->
          is_Some (tbl_Compartment w' !! (col +:+ "-" +:+ pretty i)))
    /\ (forall k c, tbl_Compartment w !! k = Some c ->
                    tbl_Compartment w' !! k = Some c)
    /\ (forall k c, tbl_Compartment w' !! k = Some c ->
          tbl_Compartment w !! k = Some c
          \/ (status c = "available"%string /\ currentOrderId c = None
              /\ columnId c = col /\ tbl_Compartment w !! k = None))
    /\ tbl_Order w' = tbl_Order w
    /\ sent w' = sent w.
Proof.
  intros data w w' col.
  assert (R : columnRegistry w' !! col
              = Some {| col_id := col; ip := an_ip data; port := an_port data;
                        lockerCount := an_lockerCount data;
                        firmwareVersion := an_firmwareVersion data;
                        lastSeen := clock w; isOnline := true;
                        sensors := replicate (an_lockerCount data)
                                     default_sensors |}).
  { subst w' col. unfold handleColumnAnnounce. cbn. apply lookup_insert_eq. }
  split; [exact R |].
  split.
  { unfold isColumnOnline. rewrite R. cbn [lastSeen].
    replace (clock w') with (clock w) by reflexivity.
    rewrite Z.sub_diag. reflexivity. }
  destruct (ensure_all col (clock w) (seq 0 (an_lockerCount data))
              (tbl_Compartment w)) as (K & M & O).
  split.
  { intros i Hi. apply M. apply in_seq. lia. }
  split; [exact K |]. split; [exact O |]. split; reflexivity.
Qed.

(** *** Heartbeat *)

Lemma store_sensors_length (l : list LockerSensorState) (k : HeartbeatLocker) :
  length (store_sensors l k) = length l.
Proof.
  unfold store_sensors.
  destruct ((hb_index k <? Z.of_nat (length l)) && (0 <=? hb_index k));
    [apply length_insert | reflexivity].
Qed.

Lemma stored_length (lockers : list HeartbeatLocker)
    (l : list LockerSensorState) :
  length (fold_left store_sensors lockers l) = length l.
Proof.
  revert l. induction lockers as [| k rest IH]; intros l; [reflexivity |].
  cbn [fold_left]. rewrite IH. apply store_sensors_length.
Qed.

Lemma stored_elsewhere (lockers : list HeartbeatLocker)
    (l : list LockerSensorState) (j : nat) :
  (forall k, In k lockers -> hb_index k <> Z.of_nat j) ->
  fold_left store_sensors lockers l !! j = l !! j.
Proof.
  revert l. induction lockers as [| k rest IH]; intros l H; [reflexivity |].
  cbn [fold_left]. rewrite IH by (intros k' Hk'; apply H; right; exact Hk').
  unfold store_sensors.
  destruct ((hb_index k <? Z.of_nat (length l)) && (0 <=? hb_index k))
    eqn:E; [| reflexivity].
  apply list_lookup_insert_ne.
  specialize (H k (or_introl eq_refl)).
  apply andb_true_iff in E. destruct E as [_ E]. apply Z.leb_le in E. lia.
Qed.

Lemma stored_last (pre : list HeartbeatLocker) (k : HeartbeatLocker)
    (l : list LockerSensorState) :
  0 <= hb_index k < Z.of_nat (length l) ->
  fold_left store_sensors (pre ++ [k]) l !! Z.to_nat (hb_index k)
  = Some (hb_sensors k).
Proof.
  intros Hk. rewrite fold_left_app. cbn [fold_left].
  unfold store_sensors at 1. rewrite stored_length.
  destruct (Z.ltb_spec (hb_index k) (Z.of_nat (length l))) as [_ | ?];
    [| lia].
  destruct (Z.leb_spec 0 (hb_index k)) as [_ | ?]; [| lia].
  cbn [andb]. apply list_lookup_insert_eq. rewrite stored_length. lia.
Qed.

(** The cached sensors after a heartbeat, index by index: the last report
    of the index, if there is one, and the old entry otherwise. *)
Lemma stored_lookup (lockers : list HeartbeatLocker)
    (l : list LockerSensorState) (j : nat) :
  (j < length l)%nat ->
  fold_left store_sensors lockers l !! j
  = match List.find (fun k => hb_index k =? Z.of_nat j) (rev lockers) with
    | Some k => Some (hb_sensors k)
    | None => l !! j
    end.
Proof.
  intros Hj. induction lockers as [| k pre IH] using rev_ind;
    [reflexivity |].
  rewrite fold_left_app, rev_app_distr. cbn [fold_left rev app List.find].
  unfold store_sensors at 1. rewrite stored_length.
  destruct (Z.eqb_spec (hb_index k) (Z.of_nat j)) as [E | E].
  - destruct (Z.ltb_spec (hb_index k) (Z.of_nat (length l))); [| lia].
    destruct (Z.leb_spec 0 (hb_index k)); [| lia].
    cbn [andb]. rewrite E, Nat2Z.id.
    apply list_lookup_insert_eq. rewrite stored_length. exact Hj.
  - rewrite <- IH.
    destruct ((hb_index k <? Z.of_nat (length l)) && (0 <=? hb_index k))
      eqn:Hin; [| reflexivity].
    apply list_lookup_insert_ne.
    apply andb_true_iff in Hin. destruct Hin as [_ Hin].
    apply Z.leb_le in Hin. lia.
Qed.

(** X19. A heartbeat of a column that never announced changes nothing (the
    column is not registered by it). A heartbeat of a registered column
    marks it seen now and online and keeps its address and the length of
    its sensor list. Every entry of the list is settled: the entry of an
    index holds the sensors of the last report of that index in the
    heartbeat, and is as it was when no report names the index; reports
    whose index is negative or beyond the list are ignored. No
    compartment row, no order and no network is touched. *)
Theorem X19_heartbeat_refreshes_the_column :
  forall (column_id : string) (lockers : list HeartbeatLocker) (w : World),
    let w' := handleHeartbeat column_id lockers w in
    match columnRegistry w !! column_id with
    | None => w' = w
    | Some column =>
        (exists column',
            columnRegistry w' !! column_id = Some column'
            /\ lastSeen column' = clock w /\ isOnline column' = true
            /\ ip column' = ip column /\ port column' = port column
            /\ length (sensors column') = length (sensors column)
            /\ (forall j,
                  (j < length (sensors column))%nat ->
                  sensors column' !! j
                  = match List.find
                            (fun k => hb_index k =? Z.of_nat j)
                            (rev lockers) with
                    | Some k => Some (hb_sensors k)
                    | None => sensors column !! j
                    end)
            /\ (forall j,
                  (forall k, In k lockers -> hb_index k <> Z.of_nat j) ->
                  sensors column' !! j = sensors column !! j)
            /\ (forall pre k,
                  lockers = pre ++ [k] ->
                  0 <= hb_index k < Z.of_nat (length (sensors column)) ->
                  sensors column' !! Z.to_nat (hb_index k)
                  = Some (hb_sensors k)))
        /\ isColumnOnline column_id w' = true
        /\ tbl_Compartment w' = tbl_Compartment w
        /\ tbl_Order w' = tbl_Order w
        /\ sent w' = sent w
    end.
Proof.
  intros column_id lockers w w'. subst w'. unfold handleHeartbeat.
  destruct (columnRegistry w !! column_id) as [column |] eqn:Hreg;
    [| reflexivity].
  cbn [columnRegistry tbl_Compartment tbl_Order sent with_registry
       with_columns clock].
  split.
  { eexists. split; [apply lookup_insert_eq |]. cbn [lastSeen isOnline ip port
                                                       sensors].
    split; [reflexivity |]. split; [reflexivity |]. split; [reflexivity |].
    split; [reflexivity |]. split; [apply stored_length |].
    split; [intros j Hj; apply stored_lookup, Hj |].
    split; [intros j Hj; apply stored_elsewhere, Hj |].
    intros pre k -> Hk. apply stored_last, Hk. }
  split.
  { unfold isColumnOnline.
    cbn [columnRegistry with_registry with_columns clock].
    rewrite lookup_insert_eq. cbn [lastSeen]. rewrite Z.sub_diag.
    reflexivity. }
  repeat split.
Qed.

(** *** Hardware events *)

Lemma set_status_keeps (st : string) (now : Z) (c : Compartment) :
  columnId (set_status st now c) = columnId c
  /\ lockerIndex (set_status st now c) = lockerIndex c
  /\ size (set_status st now c) = size c.
Proof. repeat split. Qed.

(** The events the handler knows. *)
Lemma event_unknown (ev : string) :
  ~ In ev [ "DOOR_OPENED"; "DOOR_CLOSED"; "ITEM_REMOVED"; "MOTOR_FAULT";
            "SAFETY_TRIPPED"; "MOTOR_FAULT_CLEARED";
            "SAFETY_CLEARED" ]%string ->
  String.eqb ev "DOOR_OPENED" = false
  /\ String.eqb ev "DOOR_CLOSED" = false
  /\ String.eqb ev "ITEM_REMOVED" = false
  /\ String.eqb ev "MOTOR_FAULT" = false
  /\ String.eqb ev "SAFETY_TRIPPED" = false
  /\ String.eqb ev "MOTOR_FAULT_CLEARED" = false
  /\ String.eqb ev "SAFETY_CLEARED" = false.
Proof.
  intros H. repeat split; apply String.eqb_neq; intros ->; apply H; cbn;
    tauto.
Qed.

(** X20. An event of a compartment that has a row appends exactly one
    record to the log, carrying the identifier, the compartment id, the
    name, the data and the time stamp of the event, and is local: the row
    keeps its column, index and size, every other compartment row is as it
    was, every order other than the one bound to the compartment is as it
    was, and no order loses its binding or its pickup code. Nothing is
    sent and the registry is not touched. An event whose name the handler
    does not know, ITEM_PLACED among them, is logged and changes neither
    table. *)
Theorem X20_events_are_logged_and_local :
  forall (nano : string) (data : EventData) (w : World) (c : Compartment),
    let cid := ed_columnId data +:+ "-" +:+ pretty (ed_lockerIndex data) in
    tbl_Compartment w !! cid = Some c ->
    let w' := handleLockerEvent nano data w in
    tbl_LockerEvent w'
    = tbl_LockerEvent w
      ++ [ {| ev_id := nano; ev_compartmentId := cid;
              ev_event := ed_event data; ev_data := ed_data data;
              ev_timestamp := eventTimestamp (ed_timestamp data) |} ]
    /\ (exists c', tbl_Compartment w' !! cid = Some c'
                   /\ columnId c' = columnId c
                   /\ lockerIndex c' = lockerIndex c /\ size c' = size c)
    /\ (forall k, k <> cid ->
          tbl_Compartment w' !! k = tbl_Compartment w !! k)
    /\ (forall oid, currentOrderId c <> Some oid ->
          tbl_Order w' !! oid = tbl_Order w !! oid)
    /\ (forall oid, compartmentId <$> tbl_Order w' !! oid
                    = compartmentId <$> tbl_Order w !! oid
                    /\ pickupCode <$> tbl_Order w' !! oid
                       = pickupCode <$> tbl_Order w !! oid)
    /\ (~ In (ed_event data)
             [ "DOOR_OPENED"; "DOOR_CLOSED"; "ITEM_REMOVED"; "MOTOR_FAULT";
               "SAFETY_TRIPPED"; "MOTOR_FAULT_CLEARED";
               "SAFETY_CLEARED" ]%string ->
        tbl_Compartment w' = tbl_Compartment w /\ tbl_Order w' = tbl_Order w)
    /\ sent w' = sent w
    /\ columnRegistry w' = columnRegistry w.
Proof.
  intros nano data w c cid Hc w'.
  destruct (event_frame nano data w) as (Hlog & Hsent & _ & Hreg & _ & _).
  pose proof (event_compartments nano data w) as Hcomp.
  pose proof (event_orders nano data w) as Hord.
  cbv zeta in Hcomp, Hord. fold cid in Hcomp, Hord. fold w' in Hcomp, Hord.
  rewrite Hc in Hcomp, Hord. cbn [mbind option_bind] in Hcomp, Hord.
  split; [exact Hlog |]. split.
  { rewrite Hcomp.
    repeat match goal with
           | |- context [if ?b then _ else _] => destruct b
           end;
      try (rewrite lookup_alter_eq, Hc; eexists; split; [reflexivity |];
           repeat split);
      (exists c; repeat split; exact Hc). }
  split.
  { intros k Hk. rewrite Hcomp.
    repeat match goal with
           | |- context [if ?b then _ else _] => destruct b
           end;
      try reflexivity; apply lookup_alter_ne; congruence. }
  split.
  { intros oid Hoid. rewrite Hord.
    destruct (currentOrderId c) as [[| a r] |];
      cbn [truthy]; rewrite ?andb_false_r; try reflexivity.
    destruct (String.eqb (ed_event data) "ITEM_REMOVED"); [| reflexivity].
    apply lookup_alter_ne. cbn. congruence. }
  split.
  { intros oid. rewrite Hord.
    destruct (String.eqb (ed_event data) "ITEM_REMOVED"
              && truthy (currentOrderId c)); [| split; reflexivity].
    destruct (decide (default EmptyString (currentOrderId c) = oid))
      as [<- | Hne].
    - rewrite lookup_alter_eq.
      destruct (tbl_Order w !! default EmptyString (currentOrderId c));
        split; reflexivity.
    - rewrite lookup_alter_ne by exact Hne. split; reflexivity. }
  split.
  { intros Hun. apply event_unknown in Hun.
    destruct Hun as (E1 & E2 & E3 & E4 & E5 & E6 & E7).
    rewrite Hcomp, Hord, E1, E2, E3, E4, E5, E6, E7. split; reflexivity. }
  split; [exact Hsent | exact Hreg].
Qed.

(** An ITEM_PLACED event of the loaded compartment "C1-0". *)
Lemma X20_witness :
  let data := {| ed_columnId := "C1"; ed_timestamp := inl 7000;
                 ed_event := "ITEM_PLACED"; ed_lockerIndex := 0;
                 ed_data := "{}" |} in
  let w' := handleLockerEvent "ev7" data loaded_world in
  tbl_LockerEvent w'
  = tbl_LockerEvent loaded_world
    ++ [ {| ev_id := "ev7"; ev_compartmentId := "C1-0";
            ev_event := "ITEM_PLACED"; ev_data := "{}";
            ev_timestamp := IsoOfMillis 7000 |} ]
  /\ tbl_Compartment w' = tbl_Compartment loaded_world
  /\ tbl_Order w' = tbl_Order loaded_world.
Proof.
  cbv zeta.
  destruct (X20_events_are_logged_and_local "ev7"
              {| ed_columnId := "C1"; ed_timestamp := inl 7000;
                 ed_event := "ITEM_PLACED"; ed_lockerIndex := 0;
                 ed_data := "{}" |} loaded_world
              {| columnId := "C1"; lockerIndex := 0; size := "M";
                 status := "occupied"; currentOrderId := Some "O1"%string;
                 lastStatusChange := 10 |})
    as (Hlog & _ & _ & _ & _ & Hun & _).
  - vm_compute. reflexivity.
  - split; [exact Hlog |]. apply Hun. cbn. intuition discriminate.
Defined.

(** What a relay puts on the network: nothing, and then it fails and
    returns the world it was given, or one request to the address of the
    column named by the first piece of the compartment id, for the index
    read from the second piece. *)
Lemma relay_sent (cid action : string) (b : Body) (w : World) :
  let r := relay_to_compartment cid action b w in
  (success (fst r) = false /\ snd r = w)
  \/ (exists column idx,
         columnRegistry w !! nth 0 (split_dash cid) EmptyString = Some column
         /\ parseInt10 (split_dash cid !! 1%nat) = Some idx
         /\ sent (snd r)
            = sent w
              ++ [ {| url_ip := ip column; url_port := port column;
                      url_endpoint :=
                        "/api/locker/" +:+ pretty idx +:+ "/" +:+ action;
                      body := b |} ]).
Proof.
  cbv zeta. unfold relay_to_compartment.
  destruct (parseInt10 (split_dash cid !! 1%nat)) as [idx |];
    [| left; split; reflexivity].
  unfold sendToColumn.
  destruct (columnRegistry w !! nth 0 (split_dash cid) EmptyString)
    as [column |]; [| left; split; reflexivity].
  destruct (isColumnOnline (nth 0 (split_dash cid) EmptyString) w);
    cbn [negb]; [| left; split; reflexivity].
  right. exists column, idx. split; [reflexivity |]. split; [reflexivity |].
  unfold fetch. destruct (inbox w) as [| r rest].
  - reflexivity.
  - destruct (took r <? 5000); destruct (answer r); reflexivity.
Qed.

(** The tables after a successful [assignOrderToLocker]. *)
Lemma assign_effect (orderId cid code : string) (w : World)
    (c : Compartment) :
  tbl_Compartment w !! cid = Some c ->
  status c = "available"%string ->
  let r := assignOrderToLocker orderId cid code w in
  fst r = AssignOk code
  /\ tbl_Compartment (snd r)
     = alter (set_status_order "reserved" (Some orderId) (clock w)) cid
         (tbl_Compartment w)
  /\ tbl_Order (snd r) = alter (assign_order cid code) orderId (tbl_Order w)
  /\ columnRegistry (snd r) = columnRegistry w
  /\ tbl_LockerEvent (snd r) = tbl_LockerEvent w.
Proof.
  intros Hc Hst. cbv zeta. unfold assignOrderToLocker. rewrite Hc, Hst.
  cbn [String.eqb Ascii.eqb Bool.eqb negb]. unfold updateLockerDisplay.
  match goal with |- context [relay_to_compartment ?a ?x ?y ?w0] =>
    pose proof (relay_spec a x y w0) as [(R1 & _ & R3 & R4 & R5) _];
    destruct (relay_to_compartment a x y w0) as [r1 w1]
  end.
  cbn [fst snd] in *. rewrite R1, R3, R4, R5. repeat split.
Qed.

(** X21. A DOOR_OPENED event sets the status of the compartment to 'open',
    MOTOR_FAULT and SAFETY_TRIPPED set it to 'fault', MOTOR_FAULT_CLEARED
    and SAFETY_CLEARED set it to 'available'; in each case whatever the
    status was and with the bound order kept. The orders are not written,
    and from then on no pickup code resolves to an order of this
    compartment. After one of the two 'cleared' events the compartment
    accepts a new assignment although an order may still be bound to
    it. *)
Theorem X21_status_events_block_pickup :
  forall (nano : string) (data : EventData) (w : World) (c : Compartment),
    let cid := ed_columnId data +:+ "-" +:+ pretty (ed_lockerIndex data) in
    let ev := ed_event data in
    tbl_Compartment w !! cid = Some c ->
    In ev [ "DOOR_OPENED"; "MOTOR_FAULT"; "SAFETY_TRIPPED";
            "MOTOR_FAULT_CLEARED"; "SAFETY_CLEARED" ]%string ->
    let w' := handleLockerEvent nano data w in
    let st :=
      if String.eqb ev "DOOR_OPENED" then "open"
      else if String.eqb ev "MOTOR_FAULT" || String.eqb ev "SAFETY_TRIPPED"
           then "fault" else "available" in
    tbl_Compartment w' !! cid = Some (set_status st (clock w) c)
    /\ tbl_Order w' = tbl_Order w
    /\ (forall code oid o,
          find_order_by_code w' code = Some (oid, o) ->
          compartmentId o <> Some cid)
    /\ (st = "available"%string ->
        forall orderId code,
          fst (assignOrderToLocker orderId cid code w') = AssignOk code
          /\ currentOrderId
             <$> tbl_Compartment
                   (snd (assignOrderToLocker orderId cid code w')) !! cid
             = Some (Some orderId)).
Proof.
  intros nano data w c cid ev Hc Hev w' st.
  pose proof (event_compartments nano data w) as Hcomp.
  pose proof (event_orders nano data w) as Hord.
  cbv zeta in Hcomp, Hord. fold cid in Hcomp, Hord. fold w' in Hcomp, Hord.
  fold ev in Hcomp, Hord.
  assert (Hrow : tbl_Compartment w' !! cid = Some (set_status st (clock w) c)
                 /\ tbl_Order w' = tbl_Order w
                 /\ st <> "occupied"%string).
  { rewrite Hcomp, Hord. subst st. cbn in Hev.
    destruct Hev as [<- | [<- | [<- | [<- | [<- | []]]]]];
      cbn [String.eqb Ascii.eqb Bool.eqb orb andb];
      rewrite lookup_alter_eq, Hc; repeat split; discriminate. }
  destruct Hrow as (Hrow & Ho & Hst).
  split; [exact Hrow |]. split; [exact Ho |]. split.
  { intros code oid o Hfind.
    apply (no_pickup_unless_occupied w' code oid cid o _ Hfind Hrow).
    exact Hst. }
  intros Hav orderId code.
  destruct (assign_effect orderId cid code w' (set_status st (clock w) c)
              Hrow Hav) as (Hres & Hc' & _).
  split; [exact Hres |].
  rewrite Hc', lookup_alter_eq, Hrow. reflexivity.
Qed.

(** The customer opens the loaded compartment "C1-0": the code "ABC123"
    no longer resolves. *)
Lemma X21_witness :
  let data := {| ed_columnId := "C1"; ed_timestamp := inl 8000;
                 ed_event := "DOOR_OPENED"; ed_lockerIndex := 0;
                 ed_data := "{}" |} in
  let w' := handleLockerEvent "ev8" data loaded_world in
  status <$> tbl_Compartment w' !! "C1-0" = Some "open"%string
  /\ currentOrderId <$> tbl_Compartment w' !! "C1-0"
     = Some (Some "O1"%string)
  /\ find_order_by_code w' "ABC123" = None.
Proof.
  cbv zeta.
  destruct (X21_status_events_block_pickup "ev8"
              {| ed_columnId := "C1"; ed_timestamp := inl 8000;
                 ed_event := "DOOR_OPENED"; ed_lockerIndex := 0;
                 ed_data := "{}" |} loaded_world
              {| columnId := "C1"; lockerIndex := 0; size := "M";
                 status := "occupied"; currentOrderId := Some "O1"%string;
                 lastStatusChange := 10 |})
    as (Hrow & _ & _ & _).
  - vm_compute. reflexivity.
  - cbn. tauto.
  - split.
    { etransitivity; [apply (f_equal (fmap status)); exact Hrow |].
      reflexivity. }
    split.
    { etransitivity; [apply (f_equal (fmap currentOrderId)); exact Hrow |].
      reflexivity. }
    vm_compute. reflexivity.
Defined.

(** *** Reservations *)

Lemma find_is_Some {A : Type} (f : A -> bool) (l : list A) (x : A) :
  In x l -> f x = true -> is_Some (find f l).
Proof.
  intros Hin Hf. destruct (find f l) as [y |] eqn:E; [eauto |].
  rewrite (find_none f l E x Hin) in Hf. discriminate.
Qed.

(** X23. Assigning an order to a compartment whose status is 'available'
    succeeds with the generated code whatever becomes of the display
    request (column unknown, offline, silent or answering an error). The
    row of the compartment becomes 'reserved' and bound to the order, the
    other rows are as they were. The row of the order, if there is one,
    gets the compartment, the code and the fulfilment type 'locker'; if
    there is none, none is created, so the code returned belongs to no
    order. At most one request is sent, the RESERVED screen with the last
    four characters of the order id in upper case. Until the order is
    marked loaded no pickup code resolves to an order of this
    compartment. *)
Theorem X23_assign_reserves :
  forall (orderId cid code : string) (w : World) (c : Compartment),
    tbl_Compartment w !! cid = Some c ->
    status c = "available"%string ->
    let r := assignOrderToLocker orderId cid code w in
    let w' := snd r in
    fst r = AssignOk code
    /\ tbl_Compartment w' !! cid
       = Some (set_status_order "reserved" (Some orderId) (clock w) c)
    /\ (forall k, k <> cid ->
          tbl_Compartment w' !! k = tbl_Compartment w !! k)
    /\ tbl_Order w' !! orderId
       = assign_order cid code <$> tbl_Order w !! orderId
    /\ (forall k, k <> orderId -> tbl_Order w' !! k = tbl_Order w !! k)
    /\ (tbl_Order w !! orderId = None -> tbl_Order w' = tbl_Order w)
    /\ (sent w' = sent w
        \/ exists rq,
             sent w' = sent w ++ [rq]
             /\ body rq = BodyDisplay "RESERVED"
                            (toUpperCase (slice_last4 orderId))
                            "Preparing...")
    /\ (forall code' oid o,
          find_order_by_code w' code' = Some (oid, o) ->
          compartmentId o <> Some cid).
Proof.
  intros orderId cid code w c Hc Hst r w'.
  destruct (assign_effect orderId cid code w c Hc Hst)
    as (Hres & Hcomp & Hord & _ & _).
  fold r in Hres, Hcomp, Hord. fold w' in Hcomp, Hord.
  assert (Hrow : tbl_Compartment w' !! cid
                 = Some (set_status_order "reserved" (Some orderId)
                           (clock w) c)).
  { rewrite Hcomp, lookup_alter_eq, Hc. reflexivity. }
  split; [exact Hres |]. split; [exact Hrow |]. split.
  { intros k Hk. rewrite Hcomp. apply lookup_alter_ne. congruence. }
  split.
  { rewrite Hord. apply lookup_alter_eq. }
  split.
  { intros k Hk. rewrite Hord. apply lookup_alter_ne. congruence. }
  split.
  { intros Hnone. rewrite Hord. apply alter_id'. exact Hnone. }
  split.
  { subst w' r. unfold assignOrderToLocker. rewrite Hc, Hst.
    cbn [String.eqb Ascii.eqb Bool.eqb negb]. unfold updateLockerDisplay.
    match goal with |- context [relay_to_compartment ?a ?x ?y ?w0] =>
      pose proof (relay_sent a x y w0) as Hs;
      destruct (relay_to_compartment a x y w0) as [r1 w1]
    end.
    cbv zeta in Hs. cbn [fst snd] in *.
    destruct Hs as [[_ ->] | (column & idx & _ & _ & ->)].
    - left. reflexivity.
    - right. eexists. split; reflexivity. }
  intros code' oid o Hfind.
  apply (no_pickup_unless_occupied w' code' oid cid o _ Hfind Hrow).
  cbn. discriminate.
Qed.

(** Order "O1" goes to compartment "C1-0" of the announced column. *)
Lemma X23_witness :
  let r := assignOrderToLocker "O1" "C1-0" "ABC123"
             (with_orders {[ "O1"%string := order_O1 ]} announced_world) in
  fst r = AssignOk "ABC123"
  /\ status <$> tbl_Compartment (snd r) !! "C1-0" = Some "reserved"%string
  /\ tbl_Order (snd r) !! "O1" = Some loaded_O1
  /\ length (sent (snd r)) = 1%nat.
Proof.
  cbv zeta.
  destruct (X23_assign_reserves "O1" "C1-0" "ABC123"
              (with_orders {[ "O1"%string := order_O1 ]} announced_world)
              {| columnId := "C1"; lockerIndex := 0; size := "M";
                 status := "available"; currentOrderId := None;
                 lastStatusChange := 0 |})
    as (Hres & Hrow & _ & Hord & _).
  - vm_compute. reflexivity.
  - reflexivity.
  - split; [exact Hres |]. split.
    { etransitivity; [apply (f_equal (fmap status)); exact Hrow |].
      reflexivity. }
    split; [rewrite Hord; vm_compute; reflexivity |].
    vm_compute. reflexivity.
Defined.

(** X24. [markOrderLoaded] fails with "Order not assigned to locker", and
    returns the world it was given, exactly when the order has no row or
    no compartment. Otherwise it reports success whatever the two relays
    (the ORDER_READY screen and the LED) achieve, sets the compartment of
    the order to 'occupied' whatever its status and its bound order were,
    and writes no order; the pickup code of the order, if it has one and
    is not picked up, resolves from then on. *)
Theorem X24_loaded_makes_the_code_valid :
  forall (orderId : string) (w : World),
    let r := markOrderLoaded orderId w in
    match tbl_Order w !! orderId ≫= compartmentId with
    | Some (String a s) =>
        let cid := String a s in
        fst r = {| success := true; error := None |}
        /\ tbl_Compartment (snd r)
           = alter (set_status "occupied" (clock w)) cid (tbl_Compartment w)
        /\ tbl_Order (snd r) = tbl_Order w
        /\ (forall o code,
              tbl_Order w !! orderId = Some o ->
              pickupCode o = Some code -> pickedUpAt o = None ->
              is_Some (tbl_Compartment w !! cid) ->
              is_Some (find_order_by_code (snd r) code))
    | _ => r = (relay_error "Order not assigned to locker", w)
    end.
Proof.
  intros orderId w r. subst r. unfold markOrderLoaded.
  destruct (tbl_Order w !! orderId ≫= compartmentId) as [[| a s] |] eqn:Hb;
    [reflexivity | | reflexivity].
  cbv zeta. unfold updateLockerDisplay, setLockerLED.
  match goal with |- context [relay_to_compartment ?c ?x ?y ?w0] =>
    pose proof (relay_spec c x y w0) as [H1 _];
    destruct (relay_to_compartment c x y w0) as [r1 w1]
  end.
  cbn [snd] in H1.
  match goal with |- context [relay_to_compartment ?c ?x ?y w1] =>
    pose proof (relay_spec c x y w1) as [H2 _];
    destruct (relay_to_compartment c x y w1) as [r2 w2]
  end.
  cbn [snd] in H2.
  destruct (same_data_trans _ _ _ H1 H2) as (_ & _ & Hc & Ho & _).
  cbn [fst snd tbl_Compartment tbl_Order with_compartments] in *.
  split; [reflexivity |]. split; [exact Hc |]. split; [exact Ho |].
  intros o code Hrow Hcode Hpick [c Hcomp].
  rewrite Hrow in Hb. cbn in Hb.
  unfold find_order_by_code.
  apply (find_is_Some _ _ (orderId, o)).
  - apply list_elem_of_In, elem_of_map_to_list. rewrite Ho. exact Hrow.
  - unfold code_matches. cbn [snd]. rewrite Hcode, Hpick, Hb.
    rewrite String.eqb_refl, Hc, lookup_alter_eq, Hcomp. reflexivity.
Qed.

(** X25. A pickup that succeeds has found an order carrying the code, not
    picked up, whose compartment is 'occupied', and the last request it
    sent is the unlock of that compartment: the path is
    "/api/locker/<n>/unlock" with [n] the number [parseInt] reads from
    the second piece of the order's compartment id, the request id is
    "pickup-<code>", and the address is that of the column registered
    under the first piece of the id. A pickup that fails with "Invalid or
    expired pickup code" has sent nothing and returns the world it was
    given; every other failure is a relay error or "Failed to unlock". In
    no case is a table written. *)
Theorem X25_pickup_outcomes :
  forall (nano code : string) (w : World),
    let r := validateAndUnlock nano code w in
    same_data w (snd r)
    /\ match fst r with
       | PickupOk cid orderNo =>
           exists oid order c column (idx : Z) pre,
             tbl_Order w !! oid = Some order
             /\ pickupCode order = Some code /\ pickedUpAt order = None
             /\ compartmentId order = Some cid
             /\ tbl_Compartment w !! cid = Some c
             /\ status c = "occupied"%string
             /\ orderNo = or_else (orderNumber order)
                            (toUpperCase (slice_last4 oid))
             /\ columnRegistry w !! nth 0 (split_dash cid) EmptyString
                = Some column
             /\ parseInt10 (split_dash cid !! 1%nat) = Some idx
             /\ sent (snd r)
                = pre
                  ++ [ {| url_ip := ip column; url_port := port column;
                          url_endpoint :=
                            "/api/locker/" +:+ pretty idx +:+ "/unlock";
                          body := BodyRequestId ("pickup-" +:+ code) |} ]
       | PickupErr msg =>
           (msg = "Invalid or expired pickup code"%string /\ snd r = w)
           \/ In msg ("Failed to unlock"%string :: relay_errors)
       end.
Proof.
  intros nano code w r.
  split; [apply validateAndUnlock_same_data |].
  subst r. unfold validateAndUnlock.
  destruct (find_order_by_code w code) as [[oid order] |] eqn:Hfind;
    [| left; split; reflexivity].
  unfold find_order_by_code in Hfind. apply find_some in Hfind.
  destruct Hfind as [Hin Hm].
  apply list_elem_of_In, elem_of_map_to_list in Hin.
  unfold code_matches in Hm. cbn [snd] in Hm.
  destruct (pickupCode order) as [pc |] eqn:Hpc; [| discriminate].
  destruct (pickedUpAt order) eqn:Hpu; [discriminate |].
  destruct (compartmentId order) as [cid |] eqn:Hcid; [| discriminate].
  apply andb_true_iff in Hm. destruct Hm as [Hcode Hocc].
  apply String.eqb_eq in Hcode. subst pc.
  destruct (tbl_Compartment w !! cid) as [c |] eqn:Hc; [| discriminate].
  apply String.eqb_eq in Hocc.
  cbn [default]. unfold updateLockerDisplay, unlockLocker.
  match goal with |- context [relay_to_compartment ?a ?x ?y w] =>
    pose proof (relay_spec a x y w) as [(Hreg & _) _];
    destruct (relay_to_compartment a x y w) as [r1 w1]
  end.
  cbn [snd] in Hreg.
  match goal with |- context [relay_to_compartment ?a ?x ?y w1] =>
    pose proof (relay_spec a x y w1) as [_ He];
    pose proof (relay_sent a x y w1) as Hs;
    destruct (relay_to_compartment a x y w1) as [r2 w2]
  end.
  cbv zeta in Hs. cbn [fst snd] in *.
  destruct (success r2) eqn:Hok; cbn [negb fst snd].
  - destruct Hs as [[Hfail _] | (column & idx & Hcol & Hidx & Hsent)];
      [congruence |].
    exists oid, order, c, column, idx, (sent w1).
    rewrite Hreg in Hcol. repeat split; try assumption; reflexivity.
  - right. destruct He as [-> | (e & -> & Hin')]; [left; reflexivity |].
    right. cbn in Hin'.
    destruct Hin' as [<- | [<- | [<- | [<- | []]]]]; cbn; tauto.
Qed.

(** *** Compartment ids *)

Lemma split_dash_cons (s : string) :
  exists h t, split_dash s = h :: t.
Proof.
  destruct s as [| c r]; [cbn; eauto |].
  cbn. destruct (Ascii.eqb c "-"); [eauto |].
  destruct (split_dash r); eauto.
Qed.

Lemma split_dash_app (a b : string) :
  split_dash (a +:+ "-" +:+ b) = split_dash a ++ split_dash b.
Proof.
  induction a as [| c r IH]; [reflexivity |].
  change (String c r +:+ "-" +:+ b) with (String c (r +:+ "-" +:+ b)).
  cbn [split_dash]. rewrite IH.
  destruct (Ascii.eqb c "-"); [reflexivity |].
  destruct (split_dash_cons r) as (h & t & ->). reflexivity.
Qed.

Lemma split_dash_plain (s : string) :
  has_dash s = false -> split_dash s = [s].
Proof.
  induction s as [| c r IH]; [reflexivity |].
  cbn. destruct (Ascii.eqb c "-"); [discriminate |].
  cbn. intros H. rewrite (IH H). reflexivity.
Qed.

(** An id with a dash splits into at least two pieces, the first of which
    is shorter than the id. *)
Lemma split_dash_dashed (s : string) :
  has_dash s = true ->
  exists h1 h2 t,
    split_dash s = h1 :: h2 :: t
    /\ (String.length h1 < String.length s)%nat.
Proof.
  induction s as [| c r IH]; [discriminate |].
  cbn. destruct (Ascii.eqb c "-").
  - intros _. destruct (split_dash_cons r) as (h & t & ->).
    exists EmptyString, h, t. split; [reflexivity | cbn; lia].
  - cbn. intros H. destruct (IH H) as (h1 & h2 & t & -> & Hlen).
    exists (String c h1), h2, t. split; [reflexivity | cbn; lia].
Qed.

Lemma digit_cases (d : N) :
  (d < 10)%N ->
  In (pretty_N_char d)
     ["0"; "1"; "2"; "3"; "4"; "5"; "6"; "7"; "8"; "9"]%char
  /\ Z.of_nat (nat_of_ascii (pretty_N_char d) - 48) = Z.of_N d.
Proof.
  intros H.
  assert (C : (d = 0 \/ d = 1 \/ d = 2 \/ d = 3 \/ d = 4 \/ d = 5 \/ d = 6
               \/ d = 7 \/ d = 8 \/ d = 9)%N) by lia.
  repeat (destruct C as [-> | C]; [split; [cbn; tauto | reflexivity] |]).
  subst. split; [cbn; tauto | reflexivity].
Qed.

Lemma digit_is_digit (c : ascii) :
  In c ["0"; "1"; "2"; "3"; "4"; "5"; "6"; "7"; "8"; "9"]%char ->
  is_digit c = true /\ Ascii.eqb c "-" = false.
Proof.
  cbn. intros H.
  repeat (destruct H as [<- | H]; [split; reflexivity |]). destruct H.
Qed.

(** The decimal text of a positive number: it starts with a digit, holds
    no dash, and reads back as the number. *)
Lemma pretty_N_go_reads (x : N) :
  forall s,
    (0 < x)%N ->
    (exists c r, pretty_N_go x s = String c r
                 /\ In c ["0"; "1"; "2"; "3"; "4"; "5"; "6"; "7"; "8";
                          "9"]%char)
    /\ has_dash (pretty_N_go x s) = has_dash s
    /\ exists k : nat,
         forall acc,
           digits_prefix acc (pretty_N_go x s)
           = digits_prefix
               (Some (10 ^ Z.of_nat k * default 0 acc + Z.of_N x)) s.
Proof.
  induction x as [x IH] using (well_founded_induction N.lt_wf_0).
  intros s Hx. rewrite pretty_N_go_step by exact Hx.
  assert (Hd : (x `mod` 10 < 10)%N) by (apply N.mod_lt; lia).
  destruct (digit_cases _ Hd) as [Hin Hval].
  destruct (digit_is_digit _ Hin) as [Hdig Hnd].
  assert (Hx10 : Z.of_N x = 10 * Z.of_N (x `div` 10) + Z.of_N (x `mod` 10)).
  { rewrite (N.div_mod x 10) at 1 by lia. lia. }
  destruct (N.eq_dec (x `div` 10)%N 0%N) as [Hq | Hq].
  - rewrite Hq, pretty_N_go_0. split; [eauto |]. split.
    { cbn [has_dash]. rewrite Hnd. reflexivity. }
    exists 1%nat. intros acc. cbn [digits_prefix]. rewrite Hdig, Hval.
    f_equal. f_equal. rewrite Hx10, Hq. lia.
  - assert (Hlt : (x `div` 10 < x)%N) by (apply N.div_lt; lia).
    assert (Hpos : (0 < x `div` 10)%N) by lia.
    destruct (IH _ Hlt (String (pretty_N_char (x `mod` 10)%N) s) Hpos)
      as (Hhead & Hdash & k & Hread).
    split; [exact Hhead |]. split.
    { rewrite Hdash. cbn [has_dash]. rewrite Hnd. reflexivity. }
    exists (S k). intros acc. rewrite Hread. cbn [digits_prefix].
    rewrite Hdig, Hval. cbn [default]. f_equal. f_equal.
    rewrite Nat2Z.inj_succ, Z.pow_succ_r by lia. unfold id. lia.
Qed.

Lemma parse_digit_head (c : ascii) (r : string) :
  In c ["0"; "1"; "2"; "3"; "4"; "5"; "6"; "7"; "8"; "9"]%char ->
  parseInt10 (Some (String c r)) = digits_prefix None (String c r).
Proof.
  cbn [In]. intros H.
  repeat (destruct H as [<- | H]; [reflexivity |]). destruct H.
Qed.

(** The index in a compartment id, [${i}], reads back with [parseInt]. *)
Lemma parse_pretty (i : nat) :
  parseInt10 (Some (pretty i)) = Some (Z.of_nat i)
  /\ has_dash (pretty i) = false.
Proof.
  unfold pretty, pretty_nat, pretty, pretty_N.
  destruct (decide (N.of_nat i = 0%N)) as [E | E].
  - assert (i = 0%nat) by lia. subst i. split; reflexivity.
  - assert (Hpos : (0 < N.of_nat i)%N) by lia.
    destruct (pretty_N_go_reads (N.of_nat i) EmptyString Hpos)
      as ((c & r & Hs & Hin) & Hdash & k & Hread).
    split; [| rewrite Hdash; reflexivity].
    rewrite Hs, (parse_digit_head c r Hin), <- Hs, Hread. cbn.
    f_equal. lia.
Qed.

(** X26. For a column whose id holds no dash, the id of its compartment
    [i], as the announce builds it, leads every relay to that column and
    to the path "/api/locker/<i>/<action>": the index read back with
    [parseInt] is the index the id was built from. If the column is
    registered and seen within the last 60 seconds, exactly one request is
    sent, to its registered address, and the relay succeeds exactly when
    an answer with [success] true arrives within five seconds. *)
Theorem X26_compartment_id_round_trip :
  forall (col : string) (i : nat) (action : string) (b : Body) (w : World),
    has_dash col = false ->
    let cid := col +:+ "-" +:+ pretty i in
    let endpoint := "/api/locker/" +:+ pretty i +:+ "/" +:+ action in
    relay_to_compartment cid action b w = sendToColumn col endpoint b w
    /\ (forall column,
          columnRegistry w !! col = Some column ->
          isColumnOnline col w = true ->
          sent (snd (relay_to_compartment cid action b w))
          = sent w
            ++ [ {| url_ip := ip column; url_port := port column;
                    url_endpoint := endpoint; body := b |} ]
          /\ (success (fst (relay_to_compartment cid action b w)) = true
              <-> exists rp rest,
                    inbox w = rp :: rest /\ took rp < 5000
                    /\ answer rp = Some true)).
Proof.
  intros col i action b w Hcol cid endpoint.
  destruct (parse_pretty i) as [Hparse Hdash].
  assert (E : relay_to_compartment cid action b w
              = sendToColumn col endpoint b w).
  { subst cid endpoint. unfold relay_to_compartment.
    rewrite split_dash_app, (split_dash_plain col Hcol),
      (split_dash_plain (pretty i) Hdash).
    cbn [app nth lookup list_lookup]. rewrite Hparse.
    replace (pretty (Z.of_nat i)) with (pretty i) by (destruct i; reflexivity).
    reflexivity. }
  split; [exact E |].
  intros column Hreg Hon. rewrite E. unfold sendToColumn.
  rewrite Hreg, Hon. cbn [negb]. unfold fetch.
  destruct (inbox w) as [| rp rest].
  - cbn. split; [reflexivity |]. split; [discriminate |].
    intros (rp & rest & Hnil & _). discriminate.
  - destruct (Z.ltb_spec (took rp) 5000) as [Hlt | Hge].
    + destruct (answer rp) as [[|] |] eqn:Ha; cbn; (split; [reflexivity |]).
      * split; [intros _; exists rp, rest; auto | reflexivity].
      * split; [discriminate |].
        intros (rp' & rest' & [= <- <-] & _ & Ha'). congruence.
      * split; [discriminate |].
        intros (rp' & rest' & [= <- <-] & _ & Ha'). congruence.
    + cbn. split; [reflexivity |]. split; [discriminate |].
      intros (rp' & rest' & [= <- <-] & Hlt' & _). lia.
Qed.

(** Compartment "C1-0" of the announced column. *)
Lemma X26_witness :
  relay_to_compartment "C1-0" "unlock" (BodyRequestId "r7") announced_world
  = sendToColumn "C1" "/api/locker/0/unlock" (BodyRequestId "r7")
      announced_world.
Proof.
  destruct (X26_compartment_id_round_trip "C1" 0 "unlock"
              (BodyRequestId "r7") announced_world eq_refl) as [E _].
  exact E.
Defined.

(** X27. For a column whose id holds a dash, such as the "COL-001" the
    firmware announces, the relays do not see the compartment index at
    all: the request for any compartment id of the column is the request
    for the column id itself, addressed to the column named by the text
    before the first dash, which is not the column, with the index read
    from the text after it. Unless a column of that shorter name is
    registered, every unlock, lock, display and LED relay to the
    compartments of the column fails with "Column not found" or "Invalid
    compartment ID" and sends nothing. *)
Theorem X27_dashed_column_ids_are_misrouted :
  forall (col rest action : string) (b : Body) (w : World),
    has_dash col = true ->
    let target := nth 0 (split_dash col) EmptyString in
    relay_to_compartment (col +:+ "-" +:+ rest) action b w
    = relay_to_compartment col action b w
    /\ target <> col
    /\ (columnRegistry w !! target = None ->
        exists msg,
          relay_to_compartment (col +:+ "-" +:+ rest) action b w
          = (relay_error msg, w)
          /\ (msg = "Column not found"%string
              \/ msg = "Invalid compartment ID"%string)).
Proof.
  intros col rest action b w Hcol target.
  destruct (split_dash_dashed col Hcol) as (h1 & h2 & t & Hs & Hlen).
  assert (E : relay_to_compartment (col +:+ "-" +:+ rest) action b w
              = relay_to_compartment col action b w).
  { unfold relay_to_compartment. rewrite split_dash_app, Hs. reflexivity. }
  split; [exact E |]. split.
  { subst target. rewrite Hs. cbn [nth]. intros ->. lia. }
  intros Hnone. rewrite E. unfold relay_to_compartment. fold target.
  destruct (parseInt10 (split_dash col !! 1%nat)) as [idx |].
  - exists "Column not found"%string. unfold sendToColumn. rewrite Hnone.
    split; [reflexivity | left; reflexivity].
  - exists "Invalid compartment ID"%string.
    split; [reflexivity | right; reflexivity].
Qed.

(** The column of the firmware as built has announced itself; its second
    compartment is to be unlocked. *)
Lemma X27_witness :
  let w := handleColumnAnnounce
             {| an_columnId := FirmwareLoop.COLUMN_ID;
                an_ip := "192.168.150.3";
                an_port := FirmwareLoop.HTTP_PORT; an_lockerCount := 3;
                an_firmwareVersion := "1.0.1" |}
             (empty_world [ok_reply]) in
  is_Some (tbl_Compartment w !! "COL-001-1")
  /\ isColumnOnline "COL-001" w = true
  /\ unlockLocker "n" "COL-001-1" None w
     = (relay_error "Column not found", w).
Proof.
  cbv zeta. split; [vm_compute; eauto |]. split; [vm_compute; reflexivity |].
  destruct (X27_dashed_column_ids_are_misrouted FirmwareLoop.COLUMN_ID "1"
              "unlock" (BodyRequestId "n")
              (handleColumnAnnounce
                 {| an_columnId := FirmwareLoop.COLUMN_ID;
                    an_ip := "192.168.150.3";
                    an_port := FirmwareLoop.HTTP_PORT; an_lockerCount := 3;
                    an_firmwareVersion := "1.0.1" |}
                 (empty_world [ok_reply])) eq_refl) as (E & _ & _).
  unfold unlockLocker. etransitivity; [exact E |]. vm_compute. reflexivity.
Defined.

(** *** Pickup codes *)

Lemma get_chars_of (n : nat) (s : string) (c : ascii) :
  String.get n s = Some c -> In c (chars_of s).
Proof.
  revert n. induction s as [| a r IH]; intros n; [discriminate |].
  destruct n as [| n]; cbn.
  - intros [= ->]. left. reflexivity.
  - intros H. right. exact (IH n H).
Qed.

Lemma get_in_range (n : nat) (s : string) :
  (n < String.length s)%nat -> exists c, String.get n s = Some c.
Proof.
  revert n. induction s as [| a r IH]; intros n; cbn; [lia |].
  destruct n as [| n]; [eauto |]. intros H. apply IH. lia.
Qed.

Lemma alphabet_chars :
  Forall (fun c => upper_char c = c /\ is_space c = false
                   /\ ~ In c ["0"; "1"; "I"; "O"]%char)
    (chars_of pickup_alphabet).
Proof.
  cbn [chars_of pickup_alphabet].
  repeat (constructor;
          [split; [reflexivity |]; split; [reflexivity |];
           cbn [In]; intros [H | [H | [H | [H | []]]]]; discriminate |]).
  constructor.
Qed.

Lemma alphabet_ascii (c : ascii) :
  In c (chars_of pickup_alphabet) -> (nat_of_ascii c <? 128)%nat = true.
Proof.
  cbn [chars_of pickup_alphabet In]. intros H.
  repeat (destruct H as [<- | H]; [reflexivity |]). destruct H.
Qed.

Lemma get_alphabet (n : nat) :
  (n < String.length pickup_alphabet)%nat ->
  exists c,
    String.get n pickup_alphabet = Some c
    /\ In c (chars_of pickup_alphabet)
    /\ upper_char c = c /\ is_space c = false
    /\ ~ In c ["0"; "1"; "I"; "O"]%char.
Proof.
  intros H. destruct (get_in_range n pickup_alphabet H) as [c Hc].
  exists c. split; [exact Hc |].
  pose proof (get_chars_of n pickup_alphabet c Hc) as Hin.
  split; [exact Hin |].
  pose proof alphabet_chars as A. rewrite Forall_forall in A.
  destruct (A c (proj2 (list_elem_of_In _ _) Hin)) as (U & S & N). auto.
Qed.

(** X28. With every draw an index into the alphabet, as
    [Math.floor(Math.random() * chars.length)] is, the pickup code has
    six characters, each from the alphabet, so none of them is 0, 1, I or
    O; and it is in the normal form of the pickup route: upper case,
    without white space, so that the route looks the code up as it is
    when it is submitted as it is. *)
Theorem X28_pickup_code_shape :
  forall (draw : nat -> nat),
    draw_ok draw ->
    let code := generatePickupCode draw in
    String.length code = 6%nat
    /\ Forall (fun c => In c (chars_of pickup_alphabet)) (chars_of code)
    /\ Forall (fun c => ~ In c ["0"; "1"; "I"; "O"]%char) (chars_of code)
    /\ normalize_code code = code
    /\ route_code (units_of_string code) = Some code.
Proof.
  intros draw Hdraw code.
  subst code. unfold generatePickupCode. cbn [seq fold_left].
  destruct (get_alphabet (draw 0%nat) (Hdraw _))
    as (c0 & -> & I0 & U0 & S0 & N0).
  destruct (get_alphabet (draw 1%nat) (Hdraw _))
    as (c1 & -> & I1 & U1 & S1 & N1).
  destruct (get_alphabet (draw 2%nat) (Hdraw _))
    as (c2 & -> & I2 & U2 & S2 & N2).
  destruct (get_alphabet (draw 3%nat) (Hdraw _))
    as (c3 & -> & I3 & U3 & S3 & N3).
  destruct (get_alphabet (draw 4%nat) (Hdraw _))
    as (c4 & -> & I4 & U4 & S4 & N4).
  destruct (get_alphabet (draw 5%nat) (Hdraw _))
    as (c5 & -> & I5 & U5 & S5 & N5).
  cbv beta iota delta [String.append]. cbn [String.length chars_of].
  split; [reflexivity |].
  split; [repeat (constructor; [assumption |]); constructor |].
  split; [repeat (constructor; [assumption |]); constructor |].
  match goal with |- normalize_code ?x = _ /\ _ =>
    assert (Hn : normalize_code x = x);
    [| assert (Ha : ascii_text x = true)]
  end.
  - unfold normalize_code. cbn [toUpperCase strip_whitespace].
    rewrite U0, U1, U2, U3, U4, U5, S0, S1, S2, S3, S4, S5. reflexivity.
  - cbn [ascii_text].
    rewrite (alphabet_ascii c0 I0), (alphabet_ascii c1 I1),
      (alphabet_ascii c2 I2), (alphabet_ascii c3 I3),
      (alphabet_ascii c4 I4), (alphabet_ascii c5 I5). reflexivity.
  - split; [exact Hn |]. rewrite (route_code_ascii _ Ha), Hn. reflexivity.
Qed.

Lemma X28_witness :
  let code := generatePickupCode (fun i => Nat.min (5 * i) 31) in
  String.length code = 6%nat
  /\ Forall (fun c => In c (chars_of pickup_alphabet)) (chars_of code)
  /\ Forall (fun c => ~ In c ["0"; "1"; "I"; "O"]%char) (chars_of code)
  /\ normalize_code code = code
  /\ route_code (units_of_string code) = Some code.
Proof.
  apply (X28_pickup_code_shape (fun i => Nat.min (5 * i) 31)).
  intros i. cbn [pickup_alphabet String.length]. lia.
Defined.

(** *** The health sweep *)

Lemma stale_mark_offline (now : Z) (c : LockerColumn) :
  stale now (mark_offline now c) = false.
Proof.
  unfold mark_offline. destruct (stale now c) eqn:E; [| exact E].
  unfold stale. cbn. apply andb_false_r.
Qed.

Lemma mark_offline_idem (now : Z) (c : LockerColumn) :
  mark_offline now (mark_offline now c) = mark_offline now c.
Proof.
  unfold mark_offline at 1. rewrite stale_mark_offline. reflexivity.
Qed.

(** X29. The sweep [checkColumnHealth] removes no column, stale or not,
    from the registry or from the table: every entry stays under its id
    with its address, locker count, firmware version, last-seen time and
    cached sensors, and its online flag is the old flag cleared when the
    entry was last seen more than 60 seconds ago. The sweep is
    idempotent. It leaves every entry last seen at most 60 seconds ago
    exactly as it is and never flags an entry online, so an entry it
    returns online was online before. It writes neither compartments nor
    orders nor the event log and sends nothing. At exactly 60 seconds the
    two tests disagree: the sweep keeps the entry flagged online while
    [isColumnOnline] already answers false. *)
Theorem X29_health_sweep :
  forall (w : World),
    let w' := checkColumnHealth w in
    checkColumnHealth w' = w'
    /\ dom (columnRegistry w') = dom (columnRegistry w)
    /\ (forall id c,
          columnRegistry w !! id = Some c ->
          exists c',
            columnRegistry w' !! id = Some c'
            /\ col_id c' = col_id c /\ ip c' = ip c /\ port c' = port c
            /\ lockerCount c' = lockerCount c
            /\ firmwareVersion c' = firmwareVersion c
            /\ lastSeen c' = lastSeen c /\ sensors c' = sensors c
            /\ isOnline c'
               = isOnline c && (clock w - lastSeen c <=? 60000))
    /\ (forall id,
          is_Some (tbl_LockerColumn w' !! id)
          <-> is_Some (tbl_LockerColumn w !! id))
    /\ (forall id c,
          columnRegistry w !! id = Some c -> clock w - lastSeen c <= 60000 ->
          columnRegistry w' !! id = Some c)
    /\ (forall id c',
          columnRegistry w' !! id = Some c' -> isOnline c' = true ->
          columnRegistry w !! id = Some c')
    /\ (forall id c,
          columnRegistry w !! id = Some c -> clock w - lastSeen c = 60000 ->
          isOnline c = true ->
          isColumnOnline id w' = false
          /\ isOnline <$> columnRegistry w' !! id = Some true)
    /\ tbl_Compartment w' = tbl_Compartment w
    /\ tbl_Order w' = tbl_Order w
    /\ tbl_LockerEvent w' = tbl_LockerEvent w
    /\ sent w' = sent w.
Proof.
  intros w w'.
  assert (Hreg : columnRegistry w'
                 = mark_offline (clock w) <$> columnRegistry w)
    by reflexivity.
  assert (Hfresh : forall id c,
             columnRegistry w !! id = Some c ->
             clock w - lastSeen c <= 60000 ->
             columnRegistry w' !! id = Some c).
  { intros id c Hc Hseen. rewrite Hreg, lookup_fmap, Hc. cbn. f_equal.
    unfold mark_offline, stale.
    destruct (Z.ltb_spec 60000 (clock w - lastSeen c)); [lia | reflexivity]. }
  split.
  { subst w'. unfold checkColumnHealth.
    cbn [clock columnRegistry tbl_LockerColumn tbl_Compartment tbl_Order
         tbl_LockerEvent sent inbox with_registry with_columns].
    unfold with_columns, with_registry.
    cbn [clock columnRegistry tbl_LockerColumn tbl_Compartment tbl_Order
         tbl_LockerEvent sent inbox].
    f_equal.
    - rewrite <- map_fmap_compose. apply map_fmap_ext.
      intros id c _. apply mark_offline_idem.
    - apply map_eq. intros id. rewrite !map_lookup_imap.
      destruct (tbl_LockerColumn w !! id) as [r |]; [| reflexivity].
      cbn [mbind option_bind]. rewrite lookup_fmap.
      destruct (columnRegistry w !! id) as [c |]; cbn [fmap option_fmap
                                                         option_map].
      + rewrite stale_mark_offline.
        destruct (stale (clock w) c); reflexivity.
      + reflexivity. }
  split; [rewrite Hreg; apply dom_fmap_L |].
  split.
  { intros id c Hc. exists (mark_offline (clock w) c).
    split; [rewrite Hreg, lookup_fmap, Hc; reflexivity |].
    unfold mark_offline, stale.
    destruct (Z.ltb_spec 60000 (clock w - lastSeen c)) as [Hs | Hs];
      destruct (Z.leb_spec (clock w - lastSeen c) 60000) as [Hl | Hl];
      try lia; destruct (isOnline c) eqn:E; cbn; rewrite ?E; repeat split. }
  split.
  { intros id. subst w'. unfold checkColumnHealth.
    cbn [tbl_LockerColumn with_columns with_registry columnRegistry clock].
    rewrite map_lookup_imap.
    destruct (tbl_LockerColumn w !! id) as [r |]; cbn [mbind option_bind];
      [| reflexivity].
    destruct (columnRegistry w !! id) as [c |];
      [destruct (stale (clock w) c) |]; split; eauto. }
  split; [exact Hfresh |]. split.
  { intros id c' Hc' Hon. rewrite Hreg, lookup_fmap in Hc'.
    destruct (columnRegistry w !! id) as [c |]; [| discriminate].
    cbn in Hc'. injection Hc' as <-. f_equal.
    unfold mark_offline in *. destruct (stale (clock w) c);
      [discriminate | reflexivity]. }
  split.
  { intros id c Hc Hseen Hon.
    assert (Hkeep : columnRegistry w' !! id = Some c)
      by (apply (Hfresh id c Hc); lia).
    split; [| rewrite Hkeep; cbn; f_equal; exact Hon].
    unfold isColumnOnline. rewrite Hkeep.
    replace (clock w') with (clock w) by reflexivity.
    apply Z.ltb_ge. lia. }
  repeat split.
Qed.

(** *** Automatic assignment *)

Lemma ascii_compare_lt (a b : ascii) :
  Ascii.compare a b = Lt <-> (N_of_ascii a < N_of_ascii b)%N.
Proof. unfold Ascii.compare. apply N.compare_lt_iff. Qed.

Lemma ascii_compare_refl (a : ascii) : Ascii.compare a a = Eq.
Proof. unfold Ascii.compare. apply N.compare_refl. Qed.

Lemma string_compare_refl (s : string) : String.compare s s = Eq.
Proof.
  induction s as [| a r IH]; [reflexivity |].
  cbn. rewrite ascii_compare_refl. exact IH.
Qed.

Lemma string_compare_trans (a b c : string) :
  String.compare a b = Lt -> String.compare b c = Lt ->
  String.compare a c = Lt.
Proof.
  revert b c. induction a as [| x a IH]; intros [| y b] [| z c]; cbn;
    try discriminate; try reflexivity.
  destruct (Ascii.compare x y) eqn:E1; destruct (Ascii.compare y z) eqn:E2;
    try discriminate; intros H1 H2.
  - apply Ascii.compare_eq_iff in E1, E2. subst.
    rewrite ascii_compare_refl. exact (IH b c H1 H2).
  - apply Ascii.compare_eq_iff in E1. subst. rewrite E2. reflexivity.
  - apply Ascii.compare_eq_iff in E2. subst. rewrite E1. reflexivity.
  - assert (E : Ascii.compare x z = Lt).
    { apply ascii_compare_lt.
      exact (N.lt_trans _ _ _ (proj1 (ascii_compare_lt x y) E1)
               (proj1 (ascii_compare_lt y z) E2)). }
    rewrite E. reflexivity.
Qed.

Lemma row_le_total : Total row_le.
Proof.
  intros a b. unfold row_le, row_leb.
  rewrite (String.compare_antisym (columnId a.2) (columnId b.2)).
  destruct (String.compare (columnId b.2) (columnId a.2)); cbn; auto.
  destruct (Z.leb_spec (lockerIndex a.2) (lockerIndex b.2)); [auto |].
  right. apply Z.leb_le. lia.
Qed.

Lemma row_le_trans : Transitive row_le.
Proof.
  intros a b c. unfold row_le, row_leb.
  destruct (String.compare (columnId a.2) (columnId b.2)) eqn:E1;
    destruct (String.compare (columnId b.2) (columnId c.2)) eqn:E2;
    try discriminate; intros H1 H2.
  - apply String.compare_eq_iff in E1, E2. rewrite E1, E2.
    rewrite string_compare_refl. apply Z.leb_le.
    apply Z.leb_le in H1, H2. lia.
  - apply String.compare_eq_iff in E1. rewrite E1, E2. reflexivity.
  - apply String.compare_eq_iff in E2. rewrite <- E2, E1. reflexivity.
  - rewrite (string_compare_trans _ _ _ E1 E2). reflexivity.
Qed.

(** The rows [getAvailableCompartments] returns are the available rows of
    the table, the least in the order of the query first. *)
Lemma available_rows (sz : option string) (w : World) :
  (forall row,
      In row (getAvailableCompartments sz w)
      <-> tbl_Compartment w !! row.1 = Some row.2
          /\ is_available sz row = true)
  /\ StronglySorted row_le (getAvailableCompartments sz w).
Proof.
  unfold getAvailableCompartments. split.
  - intros row.
    rewrite <- list_elem_of_In, merge_sort_Permutation, list_elem_of_In.
    rewrite filter_In, <- list_elem_of_In.
    destruct row as [k c]. rewrite elem_of_map_to_list. reflexivity.
  - apply StronglySorted_merge_sort;
      [apply row_le_trans | apply row_le_total].
Qed.

(** X30. Without an order id the assign route answers 400 "Missing
    orderId" and changes nothing. With an order id and no compartment
    named, it answers 400 "No available compartments", changing nothing,
    exactly when no row is 'available' (and of the size asked for, if one
    is); otherwise it assigns the available row that comes first by
    column id and index, and answers 200 with that compartment and the
    pickup code. *)
Theorem X30_auto_assign_takes_the_first_available :
  forall (a : ascii) (r : string) (sz : option string) (code : string)
         (w : World),
    let oid := String a r in
    let resp := assign_POST (Some oid) None sz code w in
    (forall cid,
        assign_POST None cid sz code w
        = ({| assign_status := 400;
              assign_reply := AssignReplyErr "Missing orderId" |}, w)
        /\ assign_POST (Some EmptyString) cid sz code w
           = ({| assign_status := 400;
                 assign_reply := AssignReplyErr "Missing orderId" |}, w))
    /\ ((forall k c, tbl_Compartment w !! k = Some c ->
                     is_available sz (k, c) = false) ->
        resp = ({| assign_status := 400;
                   assign_reply :=
                     AssignReplyErr "No available compartments" |}, w))
    /\ (forall k c,
          tbl_Compartment w !! k = Some c -> is_available sz (k, c) = true ->
          exists first,
            tbl_Compartment w !! first.1 = Some first.2
            /\ is_available sz first = true
            /\ (forall k' c',
                  tbl_Compartment w !! k' = Some c' ->
                  is_available sz (k', c') = true ->
                  row_le first (k', c'))
            /\ fst resp = {| assign_status := 200;
                             assign_reply := AssignReplyOk first.1 code |}
            /\ snd resp = snd (assignOrderToLocker oid first.1 code w)).
Proof.
  intros a r sz code w oid resp.
  destruct (available_rows sz w) as [Hrows Hsorted].
  split; [intros cid; split; reflexivity |].
  split.
  { intros Hnone. subst resp oid. unfold assign_POST.
    destruct (getAvailableCompartments sz w) as [| [k c] rest];
      [reflexivity |].
    destruct (proj1 (Hrows (k, c)) (or_introl eq_refl)) as [Hk Hav].
    rewrite (Hnone k c Hk) in Hav. discriminate. }
  intros k c Hk Hav.
  assert (Hin : In (k, c) (getAvailableCompartments sz w))
    by (apply Hrows; split; assumption).
  subst resp oid. unfold assign_POST.
  destruct (getAvailableCompartments sz w) as [| first rest];
    [destruct Hin |].
  destruct (proj1 (Hrows first) (or_introl eq_refl)) as [Hf Hfav].
  exists first. split; [exact Hf |]. split; [exact Hfav |].
  apply StronglySorted_inv in Hsorted. destruct Hsorted as [_ Hall].
  split.
  { intros k' c' Hk' Hav'.
    assert (Hin' : In (k', c') (first :: rest))
      by (apply Hrows; split; assumption).
    destruct Hin' as [<- | Hin'].
    - destruct (row_le_total first first); assumption.
    - rewrite List.Forall_forall in Hall. apply Hall, Hin'. }
  assert (Hst : status first.2 = "available"%string).
  { unfold is_available in Hfav. apply andb_true_iff in Hfav.
    destruct Hfav as [Hfav _]. apply String.eqb_eq in Hfav. exact Hfav. }
  destruct (assign_effect (String a r) first.1 code w first.2 Hf Hst)
    as (Hres & _).
  destruct (assignOrderToLocker (String a r) first.1 code w) as [res w1].
  cbn [fst snd] in *. subst res. split; reflexivity.
Qed.

End CoordinatorExtra.

(** ** Part VII: the column and the coordinator together *)

Module SystemExtra.

Import Coordinator CoordinatorSpec.
Local Open Scope Z_scope.

(** The first check of a compartment after [setup()], its entry of
    [prevSensorStates] being 0xFF. *)
Lemma check_locker_first (i : Z) (s : Firmware.SensorState) :
  FirmwareLoop.check_locker i s 255
  = ((if Firmware.occupied s then []
      else [ {| FirmwareLoop.se_event := "ITEM_REMOVED";
                FirmwareLoop.se_index := i |} ]),
     FirmwareLoop.sensor_mask s).
Proof.
  destruct s as [dc dop ir oc t so mf].
  destruct dc, dop, ir, oc, so, mf; reflexivity.
Qed.

Lemma first_check_events (l0 l1 l2 : Firmware.LockerControl)
    (e : FirmwareLoop.SentEvent) :
  In e (fst (FirmwareLoop.checkSensorChanges [l0; l1; l2]
               FirmwareLoop.initial_prevSensorStates)) ->
  FirmwareLoop.se_event e = "ITEM_REMOVED"%string
  /\ 0 <= FirmwareLoop.se_index e < 3
  /\ Firmware.occupied
       (Firmware.getSensors
          (nth (Z.to_nat (FirmwareLoop.se_index e)) [l0; l1; l2] l0))
     = false.
Proof.
  unfold FirmwareLoop.checkSensorChanges,
    FirmwareLoop.initial_prevSensorStates.
  cbn [FirmwareLoop.check_from]. rewrite !check_locker_first.
  cbn [Z.add Pos.add fst].
  destruct (Firmware.occupied (Firmware.getSensors l0)) eqn:O0;
    destruct (Firmware.occupied (Firmware.getSensors l1)) eqn:O1;
    destruct (Firmware.occupied (Firmware.getSensors l2)) eqn:O2;
    cbn [app In]; intros H;
    repeat (destruct H as [<- | H];
            [cbn; split; [reflexivity |]; split; [lia | assumption] |]);
    destruct H.
Qed.

(** X22. Every event of the first [checkSensorChanges()] after a boot of
    the column is an ITEM_REMOVED of a compartment whose occupancy input
    reads empty. When the coordinator handles such an event for a
    compartment that has an order bound to it, whatever the status of the
    compartment (reserved and not yet loaded, for one), the compartment
    becomes 'available' and unbound and the order is marked picked up, so
    that no pickup code resolves to that order any more. *)
Theorem X22_boot_releases_bound_compartments :
  forall (l0 l1 l2 : Firmware.LockerControl) (e : FirmwareLoop.SentEvent)
         (nano : string) (data : EventData) (w : World) (c : Compartment)
         (a : ascii) (r : string),
    In e (fst (FirmwareLoop.checkSensorChanges [l0; l1; l2]
                 FirmwareLoop.initial_prevSensorStates)) ->
    ed_event data = FirmwareLoop.se_event e ->
    ed_lockerIndex data = FirmwareLoop.se_index e ->
    let cid :=
      ed_columnId data +:+ "-" +:+ pretty (FirmwareLoop.se_index e) in
    let oid := String a r in
    tbl_Compartment w !! cid = Some c ->
    currentOrderId c = Some oid ->
    let w' := handleLockerEvent nano data w in
    FirmwareLoop.se_event e = "ITEM_REMOVED"%string
    /\ Firmware.occupied
         (Firmware.getSensors
            (nth (Z.to_nat (FirmwareLoop.se_index e)) [l0; l1; l2] l0))
       = false
    /\ tbl_Compartment w' !! cid
       = Some (set_status_order "available" None (clock w) c)
    /\ tbl_Order w' = alter (set_pickedUpAt (clock w)) oid (tbl_Order w)
    /\ (forall code oid' o,
          find_order_by_code w' code = Some (oid', o) -> oid' <> oid).
Proof.
  intros l0 l1 l2 e nano data w c a r Hin Hev Hidx cid oid Hc Hbound w'.
  destruct (first_check_events l0 l1 l2 e Hin) as (Hname & _ & Hocc).
  pose proof (event_compartments nano data w) as Hcomp.
  pose proof (event_orders nano data w) as Hord.
  cbv zeta in Hcomp, Hord. rewrite Hidx, Hev, Hname in Hcomp, Hord.
  fold cid in Hcomp, Hord. fold w' in Hcomp, Hord.
  rewrite Hc in Hcomp, Hord. cbn [mbind option_bind] in Hcomp, Hord.
  rewrite Hbound in Hcomp, Hord.
  cbn [String.eqb Ascii.eqb Bool.eqb truthy andb default] in Hcomp, Hord.
  unfold oid, id in Hcomp, Hord. fold oid in Hord.
  split; [exact Hname |]. split; [exact Hocc |]. split.
  { rewrite Hcomp, lookup_alter_eq, Hc. reflexivity. }
  split; [exact Hord |].
  intros code oid' o Hfind ->.
  unfold find_order_by_code in Hfind. apply find_some in Hfind.
  destruct Hfind as [Hrow Hm].
  apply list_elem_of_In, elem_of_map_to_list in Hrow.
  rewrite Hord, lookup_alter_eq in Hrow.
  destruct (tbl_Order w !! oid) as [o0 |]; [| discriminate].
  cbn in Hrow. injection Hrow as <-.
  unfold code_matches in Hm. cbn in Hm.
  destruct (pickupCode o0); discriminate.
Qed.

(** The column boots with its first compartment empty while order "O1"
    is reserved for it. *)
Lemma X22_witness :
  let w' := handleLockerEvent "ev9" item_removed_C1_0 reserved_world in
  status <$> tbl_Compartment reserved_world !! "C1-0" = Some "reserved"%string
  /\ status <$> tbl_Compartment w' !! "C1-0" = Some "available"%string
  /\ currentOrderId <$> tbl_Compartment w' !! "C1-0" = Some None
  /\ is_Some (tbl_Order w' !! "O1" ≫= pickedUpAt)
  /\ find_order_by_code w' "ABC123" = None.
Proof.
  cbv zeta.
  destruct (X22_boot_releases_bound_compartments
              Firmware.booted_locker Firmware.booted_locker
              Firmware.booted_locker
              {| FirmwareLoop.se_event := "ITEM_REMOVED";
                 FirmwareLoop.se_index := 0 |}
              "ev9" item_removed_C1_0 reserved_world
              {| columnId := "C1"; lockerIndex := 0; size := "M";
                 status := "reserved"; currentOrderId := Some "O1"%string;
                 lastStatusChange := 0 |} "O" "1")
    as (_ & _ & Hrow & Hord & _).
  - vm_compute. left. reflexivity.
  - reflexivity.
  - reflexivity.
  - vm_compute. reflexivity.
  - reflexivity.
  - split; [vm_compute; reflexivity |].
    split.
    { etransitivity; [apply (f_equal (fmap status)); exact Hrow |].
      reflexivity. }
    split.
    { etransitivity; [apply (f_equal (fmap currentOrderId)); exact Hrow |].
      reflexivity. }
    split; [rewrite Hord; vm_compute; eauto |].
    vm_compute. reflexivity.
Defined.

End SystemExtra.
